(** * Contacts and tasks services: a shallow embedding and its properties

    The development follows the two service modules of the application,
    [src/services/contacts.ts] and [src/services/tasks.ts], the JSON store
    they share, the route handlers that call them and the retry helper of
    the contact page.  Each exported function of the services is a
    computation over an explicit [World]: the two module-level caches, the
    two JSON documents on disk, the stream of values [Math.random()] will
    return and the stream of values [Date.now()] will return.  A thrown
    [Error] is the message string it carries.

    Numbers are integers ([Z]): identifiers, timestamps, page numbers and
    page sizes are integral in the application, and the model is exact for
    them below 2^53.  Random draws are rationals in [0,1).  Strings are
    sequences of 8-bit code units.  Input and output errors of the file
    system, other than a missing file, are outside the model. *)

From Stdlib Require Import ZArith QArith Qround String Ascii List Lia Bool.
From Stdlib Require Import DecimalString DecimalZ DecimalPos Sorted Permutation.
From Stdlib Require Import Lqa.
From stdpp Require Import base option list strings.

Local Open Scope list_scope.
Local Open Scope string_scope.
Local Open Scope Z_scope.

#[local] Arguments String.append _ _ : simpl nomatch.

(** ** JavaScript primitives used by the services *)

Module JS.

(** White space removed by [String.prototype.trim], on 8-bit code units:
    TAB, LF, VT, FF, CR, SPACE and NBSP. *)
Definition isWhiteSpace (c : ascii) : bool :=
  let n := nat_of_ascii c in
  ((9 <=? n)%nat && (n <=? 13)%nat) || (n =? 32)%nat || (n =? 160)%nat.

Fixpoint trimStart (s : string) : string :=
  match s with
  | EmptyString => EmptyString
  | String c t => if isWhiteSpace c then trimStart t else s
  end.

Fixpoint trimEnd (s : string) : string :=
  match s with
  | EmptyString => EmptyString
  | String c t =>
      match trimEnd t with
      | EmptyString => if isWhiteSpace c then EmptyString else String c EmptyString
      | t' => String c t'
      end
  end.

Definition trim (s : string) : string := trimEnd (trimStart s).

(** [s.includes(sub)] *)
Fixpoint includes (s sub : string) : bool :=
  String.prefix sub s
  || match s with
     | EmptyString => false
     | String _ t => includes t sub
     end.

(** [s.slice(1)] on a string: everything after the first code unit. *)
Definition slice1 (s : string) : string :=
  match s with
  | EmptyString => EmptyString
  | String _ t => t
  end.

(** A string in a boolean position: the empty string is falsy. *)
Definition truthy (s : string) : bool :=
  match s with
  | EmptyString => false
  | String _ _ => true
  end.

(** [String(n)] for an integral number. *)
Definition String_of_number (n : Z) : string :=
  NilZero.string_of_int (Z.to_int n).

(** [Number(s)], [None] standing for NaN.  The model reads the strings
    made of decimal digits only (the empty string is 0, as in
    JavaScript) and answers NaN on every other string; identifiers are
    a one-letter prefix followed by decimal digits.  The reading is the
    number written, which is what the source reads below 2^53; the
    properties of the ids that creation assigns are stated for stored ids
    of this kind ([ids_decimal], below). *)
Definition Number (s : string) : option Z :=
  match NilEmpty.uint_of_string s with
  | Some u => Some (Z.of_uint u)
  | None => None
  end.

(** [x || 0] for a number [x]: NaN and 0 are falsy. *)
Definition or0 (x : option Z) : Z :=
  match x with
  | Some n => n
  | None => 0
  end.

(** [Array.prototype.slice(start, end)]: negative indices count from the
    end, and both bounds are clamped to the array. *)
Definition relativeIndex (len i : Z) : Z :=
  if i <? 0 then Z.max (len + i) 0 else Z.min i len.

Definition slice {A : Type} (l : list A) (start stop : Z) : list A :=
  let len := Z.of_nat (length l) in
  let k := relativeIndex len start in
  let final := relativeIndex len stop in
  firstn (Z.to_nat (final - k)) (skipn (Z.to_nat k) l).

(** [Array.prototype.sort(comparefn)].  The language requires a stable
    sort; the model is the stable insertion sort, which every stable sort
    agrees with when [comparefn] is a consistent comparator. *)
Fixpoint sort_insert {A : Type} (cmp : A -> A -> Z) (x : A) (l : list A) : list A :=
  match l with
  | [] => [x]
  | y :: l' => if cmp x y <=? 0 then x :: l else y :: sort_insert cmp x l'
  end.

Fixpoint sort {A : Type} (cmp : A -> A -> Z) (l : list A) : list A :=
  match l with
  | [] => []
  | x :: l' => sort_insert cmp x (sort cmp l')
  end.

(** [Array.prototype.findIndex] and [find], by the index and the element
    of the first hit. *)
Fixpoint findIndex {A : Type} (p : A -> bool) (l : list A) : option nat :=
  match l with
  | [] => None
  | x :: l' => if p x then Some O else option_map S (findIndex p l')
  end.

Definition find {A : Type} (p : A -> bool) (l : list A) : option A :=
  List.find p l.

(** [l.splice(idx, 1)] *)
Definition splice1 {A : Type} (idx : nat) (l : list A) : list A :=
  (firstn idx l ++ skipn (S idx) l)%list.

(** The values a record field can hold, as [typeof] and [String] see them. *)
Inductive value : Type :=
| VString (s : string)
| VNumber (n : Z)
| VBoolean (b : bool)
| VUndefined
| VStrings (l : list string).

Fixpoint join (l : list string) : string :=
  match l with
  | [] => ""
  | [s] => s
  | s :: l' => s ++ "," ++ join l'
  end.

Definition String_of_value (v : value) : string :=
  match v with
  | VString s => s
  | VNumber n => String_of_number n
  | VBoolean true => "true"
  | VBoolean false => "false"
  | VUndefined => "undefined"
  | VStrings l => join l
  end.

End JS.

(** The platform's locale tables are outside the repository: lower-casing
    and collation are an interface, with the two laws the services rely on
    (the empty string is its own lower case; a comparison and its converse
    have opposite signs). *)
Class Locale : Type := {
  toLowerCase : string -> string;
  localeCompare : string -> string -> Z;
  toLowerCase_empty : toLowerCase "" = "";
  localeCompare_antisym :
    forall a b : string, Z.sgn (localeCompare b a) = - Z.sgn (localeCompare a b)
}.

(** An instance over 8-bit code units: ASCII lower-casing and code-unit
    order. *)
Module AsciiLocale.

Definition lowerChar (c : ascii) : ascii :=
  let n := nat_of_ascii c in
  if ((65 <=? n)%nat && (n <=? 90)%nat)%bool then ascii_of_nat (n + 32) else c.

Fixpoint lower (s : string) : string :=
  match s with
  | EmptyString => EmptyString
  | String c t => String (lowerChar c) (lower t)
  end.

Definition compare (a b : string) : Z :=
  match String.compare a b with
  | Lt => -1
  | Eq => 0
  | Gt => 1
  end.

End AsciiLocale.

(** ** The records of the two collections *)

Module Contact.

Record t : Type := mk {
  id : string;
  firstName : string;
  lastName : string;
  email : string;
  phone : string;
  company : string;
  city : string;
  state : string;
  tags : list string;
  createdAt : Z;
  lastActivityAt : Z
}.

(** [keyof Contact] *)
Inductive key : Type :=
| Kid | KfirstName | KlastName | Kemail | Kphone | Kcompany | Kcity | Kstate
| Ktags | KcreatedAt | KlastActivityAt.

(** [c[k]] *)
Definition get (c : t) (k : key) : JS.value :=
  match k with
  | Kid => JS.VString (id c)
  | KfirstName => JS.VString (firstName c)
  | KlastName => JS.VString (lastName c)
  | Kemail => JS.VString (email c)
  | Kphone => JS.VString (phone c)
  | Kcompany => JS.VString (company c)
  | Kcity => JS.VString (city c)
  | Kstate => JS.VString (state c)
  | Ktags => JS.VStrings (tags c)
  | KcreatedAt => JS.VNumber (createdAt c)
  | KlastActivityAt => JS.VNumber (lastActivityAt c)
  end.

End Contact.

Module Task.

Inductive Priority : Type := low | medium | high.

Definition Priority_string (p : Priority) : string :=
  match p with
  | low => "low"
  | medium => "medium"
  | high => "high"
  end.

Record t : Type := mk {
  id : string;
  contactId : string;
  title : string;
  notes : option string;
  dueDate : option Z;
  completed : bool;
  priority : Priority;
  createdAt : Z;
  updatedAt : Z
}.

(** [keyof Task] *)
Inductive key : Type :=
| Kid | KcontactId | Ktitle | Knotes | KdueDate | Kcompleted | Kpriority
| KcreatedAt | KupdatedAt.

(** [t[k]]; an absent optional field reads [undefined]. *)
Definition get (x : t) (k : key) : JS.value :=
  match k with
  | Kid => JS.VString (id x)
  | KcontactId => JS.VString (contactId x)
  | Ktitle => JS.VString (title x)
  | Knotes => match notes x with Some s => JS.VString s | None => JS.VUndefined end
  | KdueDate => match dueDate x with Some n => JS.VNumber n | None => JS.VUndefined end
  | Kcompleted => JS.VBoolean (completed x)
  | Kpriority => JS.VString (Priority_string (priority x))
  | KcreatedAt => JS.VNumber (createdAt x)
  | KupdatedAt => JS.VNumber (updatedAt x)
  end.

End Task.

Inductive SortOrder : Type := asc | desc.

(** ** The world the services run in, and computations over it *)

Record World : Type := mkWorld {
  CONTACTS_CACHE : option (list Contact.t);   (* contacts.ts, module level *)
  TASKS_CACHE : option (list Task.t);         (* tasks.ts, module level *)
  contacts_json : option (list Contact.t);    (* data/contacts.json; None: no file *)
  tasks_json : option (list Task.t);          (* data/tasks.json; None: no file *)
  randoms : nat -> Q;                         (* what Math.random() is drawn from *)
  drawn : nat;                                (* draws made so far *)
  clock : nat -> Z;                           (* what Date.now() reads *)
  ticks : nat                                 (* readings made so far *)
}.

Definition set_CONTACTS_CACHE (v : option (list Contact.t)) (w : World) : World :=
  mkWorld v (TASKS_CACHE w) (contacts_json w) (tasks_json w)
          (randoms w) (drawn w) (clock w) (ticks w).

Definition set_TASKS_CACHE (v : option (list Task.t)) (w : World) : World :=
  mkWorld (CONTACTS_CACHE w) v (contacts_json w) (tasks_json w)
          (randoms w) (drawn w) (clock w) (ticks w).

Definition set_contacts_json (v : option (list Contact.t)) (w : World) : World :=
  mkWorld (CONTACTS_CACHE w) (TASKS_CACHE w) v (tasks_json w)
          (randoms w) (drawn w) (clock w) (ticks w).

Definition set_tasks_json (v : option (list Task.t)) (w : World) : World :=
  mkWorld (CONTACTS_CACHE w) (TASKS_CACHE w) (contacts_json w) v
          (randoms w) (drawn w) (clock w) (ticks w).

Definition set_drawn (n : nat) (w : World) : World :=
  mkWorld (CONTACTS_CACHE w) (TASKS_CACHE w) (contacts_json w) (tasks_json w)
          (randoms w) n (clock w) (ticks w).

Definition set_ticks (n : nat) (w : World) : World :=
  mkWorld (CONTACTS_CACHE w) (TASKS_CACHE w) (contacts_json w) (tasks_json w)
          (randoms w) (drawn w) (clock w) n.

(** How a call ends: with a value, or with a thrown [Error], kept as its
    message. *)
Inductive Outcome (A : Type) : Type :=
| Return (a : A)
| Throw (message : string).

Arguments Return {A} a.
Arguments Throw {A} message.

(** A computation reads and writes the world and ends with an outcome; what
    it wrote before throwing stays written. *)
Definition Eff (A : Type) : Type := World -> Outcome A * World.

Definition ret {A : Type} (a : A) : Eff A := fun w => (Return a, w).

Definition throw {A : Type} (message : string) : Eff A := fun w => (Throw message, w).

Definition bind {A B : Type} (c : Eff A) (k : A -> Eff B) : Eff B :=
  fun w =>
    match c w with
    | (Return a, w') => k a w'
    | (Throw m, w') => (Throw m, w')
    end.

(** [try { c } catch { h }] *)
Definition try_catch {A : Type} (c : Eff A) (h : Eff A) : Eff A :=
  fun w =>
    match c w with
    | (Return a, w') => (Return a, w')
    | (Throw _, w') => h w'
    end.

Definition gets {A : Type} (f : World -> A) : Eff A := fun w => (Return (f w), w).

Definition modify (f : World -> World) : Eff unit := fun w => (Return tt, f w).

Notation "x <- c1 ;; c2" := (bind c1 (fun x => c2))
  (at level 100, c1 at next level, right associativity).
Notation "c1 ;;; c2" := (bind c1 (fun _ => c2))
  (at level 100, right associativity).

(** The fractional part: every draw lies in [0,1), as [Math.random()]
    promises. *)
Definition frac (q : Q) : Q := (q - inject_Z (Qfloor q))%Q.

(** The [k]-th value [Math.random()] will return from world [w] on. *)
Definition upcoming (k : nat) (w : World) : Q := frac (randoms w (k + drawn w)%nat).

Definition Math_random : Eff Q :=
  fun w => (Return (upcoming 0 w), set_drawn (S (drawn w)) w).

Definition Date_now : Eff Z :=
  fun w => (Return (clock w (ticks w)), set_ticks (S (ticks w)) w).

(** [await new Promise(r => setTimeout(r, ms))]: the wait has no effect on
    the world. *)
Definition setTimeout (ms : Q) : Eff unit := ret tt.

(** [a < b] on draws. *)
Definition Qltb (a b : Q) : bool := negb (Qle_bool b a).

(** [Math.floor] of a rational. *)
Definition Math_floor (q : Q) : Z := Qfloor q.

(** ** The JSON store *)

Module Store.

(** The two documents under the data directory, by the type they hold. *)
Inductive File : Type -> Type :=
| CONTACTS_FILE : File (list Contact.t)
| TASKS_FILE : File (list Task.t).

(** A missing file reads as [null]; other I/O failures are outside the
    model. *)
Definition readJson {T : Type} (f : File T) : Eff (option T) :=
  match f in File T return Eff (option T) with
  | CONTACTS_FILE => gets contacts_json
  | TASKS_FILE => gets tasks_json
  end.

Definition writeJson {T : Type} (f : File T) : T -> Eff unit :=
  match f in File T return T -> Eff unit with
  | CONTACTS_FILE => fun data => modify (set_contacts_json (Some data))
  | TASKS_FILE => fun data => modify (set_tasks_json (Some data))
  end.

End Store.

(** ** [src/services/contacts.ts] *)

Module Contacts.

Import Store.

Module ListParams.
Record t : Type := mk {
  q : option string;
  sortBy : option Contact.key;
  sortOrder : option SortOrder;
  page : option Z;
  pageSize : option Z
}.
End ListParams.

Module ListResult.
Record t : Type := mk {
  data : list Contact.t;
  total : Z;
  page : Z;
  pageSize : Z;
  hasNext : bool
}.
End ListResult.

Module ContactCreateInput.
Record t : Type := mk {
  firstName : string;
  lastName : string;
  email : string;
  phone : option string;
  company : option string;
  city : option string;
  state : option string;
  tags : option (list string)
}.
End ContactCreateInput.

(** [arr[Math.floor(Math.random() * arr.length)]]; the index is in range
    for a non-empty table. *)
Definition randomChoice (arr : list string) : Eff string :=
  r <- Math_random ;;
  ret (nth (Z.to_nat (Math_floor (r * inject_Z (Z.of_nat (length arr))))) arr "").

(** The loop [while (s.length < size) s = '0' + s] runs
    [size - s.length] times. *)
Fixpoint pad_loop (n : nat) (s : string) : string :=
  match n with
  | O => s
  | S n' => pad_loop n' ("0" ++ s)
  end.

(** [pad(num, size = 4)] *)
Definition pad (num : Z) (size : nat) : string :=
  let s := JS.String_of_number num in
  pad_loop (size - String.length s) s.

Definition firstNames : list string :=
  ["Avery"; "Jordan"; "Taylor"; "Casey"; "Riley"; "Skyler"; "Alex"; "Morgan";
   "Jamie"; "Quinn"].

Definition lastNames : list string :=
  ["Chen"; "Singh"; "Garcia"; "Patel"; "Kim"; "Nguyen"; "Lopez"; "Brown";
   "Khan"; "Ivanov"].

Definition companies : list string :=
  ["Lumina Labs"; "Vertex Systems"; "NovaWorks"; "BluePeak"; "Quantica";
   "Hyperion"; "Apexio"; "Terranova"; "Orchid"; "Zennic"].

Definition cities : list string :=
  ["San Francisco"; "New York"; "Austin"; "Seattle"; "Chicago"; "Toronto";
   "London"; "Berlin"; "Sydney"; "Tokyo"].

Definition states : list string :=
  ["CA"; "NY"; "TX"; "WA"; "IL"; "ON"; "ENG"; "BE"; "NSW"; "TK"].

Definition tagsPool : list string :=
  ["vip"; "lead"; "customer"; "partner"; "prospect"; "churn-risk"; "beta"].

(** [s.replace(/\s+/g, '')] *)
Fixpoint removeSpaces (s : string) : string :=
  match s with
  | EmptyString => EmptyString
  | String c t => if JS.isWhiteSpace c then removeSpaces t else String c (removeSpaces t)
  end.

(** [Array.from(new Set(l))]: the first occurrence of each element. *)
Fixpoint unique (l : list string) : list string :=
  match l with
  | [] => []
  | x :: l' => x :: List.filter (fun y => negb (String.eqb x y)) (unique l')
  end.

Section WithLocale.

Context {L : Locale}.

(** One round of the seeding loop, for the index [i]. *)
Definition seedContact (now i : Z) : Eff Contact.t :=
  firstName <- randomChoice firstNames ;;
  lastName <- randomChoice lastNames ;;
  company <- randomChoice companies ;;
  city <- randomChoice cities ;;
  state <- match JS.findIndex (String.eqb city) cities with
           | Some k =>
               match nth_error states k with
               | Some s => ret s
               | None => randomChoice states
               end
           | None => randomChoice states
           end ;;
  let id := "C" ++ pad i 5 in
  let email :=
    toLowerCase firstName ++ "." ++ toLowerCase lastName ++ JS.String_of_number i
    ++ "@" ++ removeSpaces (toLowerCase company) ++ ".com" in
  let phone :=
    "+1-(" ++ JS.String_of_number (100 + i mod 900) ++ ")-" ++ pad (i mod 1000) 3
    ++ "-" ++ pad ((i * 7) mod 10000) 4 in
  r1 <- Math_random ;;
  let createdAt := now - Math_floor (r1 * 1000 * 60 * 60 * 24 * 365) in
  r2 <- Math_random ;;
  let lastActivityAt := createdAt + Math_floor (r2 * inject_Z (now - createdAt)) in
  t1 <- randomChoice tagsPool ;;
  t2 <- randomChoice tagsPool ;;
  let tags := JS.slice (unique [t1; t2]) 0 2 in
  ret (Contact.mk id firstName lastName email phone company city state tags
                  createdAt lastActivityAt).

(** [for (let i = 1; i <= count; i++)], entered at [i] with [n] rounds left. *)
Fixpoint seedContacts_loop (n : nat) (now i : Z) (out : list Contact.t)
  : Eff (list Contact.t) :=
  match n with
  | O => ret out
  | S n' =>
      c <- seedContact now i ;;
      seedContacts_loop n' now (i + 1) (out ++ [c])%list
  end.

(** [seedContacts(count = 12000)] *)
Definition seedContacts (count : Z) : Eff (list Contact.t) :=
  now <- Date_now ;;
  seedContacts_loop (Z.to_nat count) now 1 [].

Definition ensureSeeded : Eff unit :=
  cache <- gets CONTACTS_CACHE ;;
  match cache with
  | Some _ => ret tt
  | None =>
      existing <- readJson CONTACTS_FILE ;;
      match existing with
      | Some (c :: l) => modify (set_CONTACTS_CACHE (Some (c :: l)))
      | _ =>
          seeded <- seedContacts 12000 ;;
          modify (set_CONTACTS_CACHE (Some seeded)) ;;;
          writeJson CONTACTS_FILE seeded
      end
  end.

Definition normalize (str : string) : string := toLowerCase str.

(** The callback of [filter] in [listContacts]. *)
Definition matches (qn : string) (c : Contact.t) : bool :=
  if negb (JS.truthy qn) then true
  else
    JS.includes (normalize (Contact.firstName c ++ " " ++ Contact.lastName c)) qn
    || JS.includes (normalize (Contact.email c)) qn
    || JS.includes (normalize (Contact.company c)) qn
    || JS.includes (normalize (Contact.city c)) qn
    || JS.includes (normalize (Contact.state c)) qn
    || existsb (fun t => JS.includes (normalize t) qn) (Contact.tags c).

(** The callback of [sort] in [listContacts]. *)
Definition comparator (sortBy : Contact.key) (sortOrder : SortOrder)
  (a b : Contact.t) : Z :=
  let av := Contact.get a sortBy in
  let bv := Contact.get b sortBy in
  let cmp :=
    match av, bv with
    | JS.VNumber x, JS.VNumber y => x - y
    | _, _ => localeCompare (JS.String_of_value av) (JS.String_of_value bv)
    end in
  match sortOrder with
  | asc => cmp
  | desc => - cmp
  end.

Definition listContacts (params : ListParams.t) : Eff ListResult.t :=
  ensureSeeded ;;;
  let q := default "" (ListParams.q params) in
  let sortBy := default Contact.KlastActivityAt (ListParams.sortBy params) in
  let sortOrder := default desc (ListParams.sortOrder params) in
  let page := default 1 (ListParams.page params) in
  let pageSize := default 50 (ListParams.pageSize params) in
  latency <- Math_random ;;
  setTimeout (120 + latency * 180) ;;;
  roulette <- Math_random ;;
  if Qltb roulette (5 # 100) then throw "TransientError: simulated network failure"
  else
    cache <- gets CONTACTS_CACHE ;;
    let qn := normalize q in
    let filtered := List.filter (matches qn) (default [] cache) in
    let sorted := JS.sort (comparator sortBy sortOrder) filtered in
    let start := (page - 1) * pageSize in
    let data := JS.slice sorted start (start + pageSize) in
    let total := Z.of_nat (length filtered) in
    let hasNext := start + pageSize <? total in
    ret (ListResult.mk data total page pageSize hasNext).

Definition _getAllContactsUnsafe : Eff (list Contact.t) :=
  cache <- gets CONTACTS_CACHE ;;
  ret (default [] cache).

Definition getContact (id : string) : Eff Contact.t :=
  ensureSeeded ;;;
  latency <- Math_random ;;
  setTimeout (100 + latency * 200) ;;;
  roulette <- Math_random ;;
  if Qltb roulette (5 # 100) then throw "TransientError: simulated network failure"
  else
    cache <- gets CONTACTS_CACHE ;;
    match JS.find (fun x => String.eqb (Contact.id x) id) (default [] cache) with
    | None => throw "NotFoundError: contact not found"
    | Some c => ret c
    end.

(** The numeric suffix [Number(id.slice(1)) || 0] of an identifier. *)
Definition suffix (id : string) : Z := JS.or0 (JS.Number (JS.slice1 id)).

Definition nextContactId (contacts : list Contact.t) : string :=
  let max := fold_left (fun m c => Z.max m (suffix (Contact.id c))) contacts 0 + 1 in
  "C" ++ pad max 5.

Definition createContact (input : ContactCreateInput.t) : Eff Contact.t :=
  ensureSeeded ;;;
  let firstName := JS.trim (ContactCreateInput.firstName input) in
  let lastName := JS.trim (ContactCreateInput.lastName input) in
  let email := JS.trim (ContactCreateInput.email input) in
  if negb (JS.truthy firstName) || negb (JS.truthy lastName) || negb (JS.truthy email)
  then throw "ValidationError: firstName, lastName, email required"
  else
    cache <- gets CONTACTS_CACHE ;;
    if existsb (fun c => String.eqb (toLowerCase (Contact.email c)) (toLowerCase email))
               (default [] cache)
    then throw "ValidationError: email already exists"
    else
      now <- Date_now ;;
      cache <- gets CONTACTS_CACHE ;;
      let contact :=
        Contact.mk (nextContactId (default [] cache)) firstName lastName email
                   (default "" (ContactCreateInput.phone input))
                   (default "" (ContactCreateInput.company input))
                   (default "" (ContactCreateInput.city input))
                   (default "" (ContactCreateInput.state input))
                   (default [] (ContactCreateInput.tags input))
                   now now in
      let cache' := contact :: default [] cache in
      modify (set_CONTACTS_CACHE (Some cache')) ;;;
      writeJson CONTACTS_FILE cache' ;;;
      ret contact.

Definition deleteContact (id : string) : Eff bool :=
  ensureSeeded ;;;
  cache <- gets CONTACTS_CACHE ;;
  match JS.findIndex (fun c => String.eqb (Contact.id c) id) (default [] cache) with
  | None => throw "NotFoundError: contact not found"
  | Some idx =>
      let cache' := JS.splice1 idx (default [] cache) in
      modify (set_CONTACTS_CACHE (Some cache')) ;;;
      writeJson CONTACTS_FILE cache' ;;;
      (* Cascade delete related tasks *)
      try_catch
        (existing <- readJson TASKS_FILE ;;
         let tasks := default [] existing in
         let filtered :=
           List.filter (fun t => negb (String.eqb (Task.contactId t) id)) tasks in
         writeJson TASKS_FILE filtered)
        (ret tt) ;;;
      ret true
  end.

End WithLocale.

End Contacts.

(** ** [src/services/tasks.ts] *)

Module Tasks.

Import Store.

Module TaskListParams.
Record t : Type := mk {
  contactId : option string;
  q : option string;
  sortBy : option Task.key;
  sortOrder : option SortOrder;
  page : option Z;
  pageSize : option Z;
  completed : option bool
}.
End TaskListParams.

Module TaskListResult.
Record t : Type := mk {
  data : list Task.t;
  total : Z;
  page : Z;
  pageSize : Z;
  hasNext : bool
}.
End TaskListResult.

Module TaskCreateInput.
Record t : Type := mk {
  contactId : string;
  title : string;
  notes : option string;
  dueDate : option Z;
  priority : option Task.Priority
}.
End TaskCreateInput.

Module TaskUpdateInput.
Record t : Type := mk {
  title : option string;
  notes : option string;
  dueDate : option Z;
  completed : option bool;
  priority : option Task.Priority
}.
End TaskUpdateInput.

(** [pad(num, size = 5)], with the same loop as in [contacts.ts]. *)
Definition pad (num : Z) (size : nat) : string :=
  let s := JS.String_of_number num in
  Contacts.pad_loop (size - String.length s) s.

Section WithLocale.

Context {L : Locale}.

Definition titles : list string :=
  ["Follow up email"; "Schedule demo"; "Prepare quote"; "Update contract";
   "Check-in call"; "Share roadmap"; "Collect feedback"; "Onboarding session";
   "Invoice review"; "Bug triage"].

Definition seedNotes : list string :=
  ["Mention new feature release."; "Include discount details.";
   "Ask for availability next week."; "Confirm billing address.";
   "Record pain points."; "Add training materials."].

Definition prios : list Task.Priority := [Task.low; Task.medium; Task.high].

(** One round of the seeding loop, for the index [i]. *)
Definition seedTask (now i : Z) : Eff Task.t :=
  r1 <- Math_random ;;
  let createdAt := now - Math_floor (r1 * 1000 * 60 * 60 * 24 * 120) in
  r2 <- Math_random ;;
  let updatedAt := createdAt + Math_floor (r2 * inject_Z (now - createdAt)) in
  r3 <- Math_random ;;
  r4 <- Math_random ;;
  ret (Task.mk
         ("T" ++ pad i 5)
         ("C" ++ pad ((i * 13) mod 5000) 5)
         (nth (Z.to_nat (i mod Z.of_nat (length titles))) titles "")
         (nth_error seedNotes (Z.to_nat (i mod Z.of_nat (length seedNotes))))
         (Some (createdAt + Math_floor (r3 * 1000 * 60 * 60 * 24 * 30)))
         (Qltb r4 (35 # 100))
         (nth (Z.to_nat (i mod Z.of_nat (length prios))) prios Task.low)
         createdAt updatedAt).

Fixpoint seedTasks_loop (n : nat) (now i : Z) (out : list Task.t) : Eff (list Task.t) :=
  match n with
  | O => ret out
  | S n' =>
      t <- seedTask now i ;;
      seedTasks_loop n' now (i + 1) (out ++ [t])%list
  end.

(** [seedTasks(count = 0)] *)
Definition seedTasks (count : Z) : Eff (list Task.t) :=
  now <- Date_now ;;
  seedTasks_loop (Z.to_nat count) now 1 [].

Definition ensureSeeded : Eff unit :=
  cache <- gets TASKS_CACHE ;;
  match cache with
  | Some _ => ret tt
  | None =>
      existing <- readJson TASKS_FILE ;;
      match existing with
      | Some l => modify (set_TASKS_CACHE (Some l))
      | None =>
          seeded <- seedTasks 0 ;;
          modify (set_TASKS_CACHE (Some seeded)) ;;;
          writeJson TASKS_FILE seeded
      end
  end.

Definition normalize (s : string) : string := toLowerCase s.

(** The callback of [filter] in [listTasks]. *)
Definition matches (contactId : option string) (completed : option bool)
  (qn : string) (t : Task.t) : bool :=
  if match contactId with
     | Some cid => JS.truthy cid && negb (String.eqb (Task.contactId t) cid)
     | None => false
     end
  then false
  else if match completed with
          | Some b => negb (Bool.eqb (Task.completed t) b)
          | None => false
          end
  then false
  else if negb (JS.truthy qn) then true
  else
    JS.includes (normalize (Task.title t)) qn
    || match Task.notes t with
       | Some n => if JS.truthy n then JS.includes (normalize n) qn else false
       | None => false
       end.

(** The callback of [sort] in [listTasks]. *)
Definition comparator (sortBy : Task.key) (sortOrder : SortOrder) (a b : Task.t) : Z :=
  let av := Task.get a sortBy in
  let bv := Task.get b sortBy in
  let cmp :=
    match av, bv with
    | JS.VNumber x, JS.VNumber y => x - y
    | _, _ => localeCompare (JS.String_of_value av) (JS.String_of_value bv)
    end in
  match sortOrder with
  | asc => cmp
  | desc => - cmp
  end.

Definition listTasks (params : TaskListParams.t) : Eff TaskListResult.t :=
  ensureSeeded ;;;
  let contactId := TaskListParams.contactId params in
  let q := default "" (TaskListParams.q params) in
  let sortBy := default Task.KupdatedAt (TaskListParams.sortBy params) in
  let sortOrder := default desc (TaskListParams.sortOrder params) in
  let page := default 1 (TaskListParams.page params) in
  let pageSize := default 50 (TaskListParams.pageSize params) in
  let completed := TaskListParams.completed params in
  latency <- Math_random ;;
  setTimeout (120 + latency * 180) ;;;
  roulette <- Math_random ;;
  if Qltb roulette (5 # 100) then throw "TransientError: simulated network failure"
  else
    cache <- gets TASKS_CACHE ;;
    let qn := normalize q in
    let filtered := List.filter (matches contactId completed qn) (default [] cache) in
    let sorted := JS.sort (comparator sortBy sortOrder) filtered in
    let start := (page - 1) * pageSize in
    let data := JS.slice sorted start (start + pageSize) in
    let total := Z.of_nat (length filtered) in
    let hasNext := start + pageSize <? total in
    ret (TaskListResult.mk data total page pageSize hasNext).

(** The numeric suffix [Number(t.id.slice(1)) || 0] of an identifier. *)
Definition suffix (id : string) : Z := JS.or0 (JS.Number (JS.slice1 id)).

Definition createTask (input : TaskCreateInput.t) : Eff Task.t :=
  ensureSeeded ;;;
  try_catch
    (Contacts.getContact (TaskCreateInput.contactId input) ;;; ret tt)
    (throw "ValidationError: contact does not exist") ;;;
  let title := JS.trim (TaskCreateInput.title input) in
  if negb (JS.truthy title) then throw "ValidationError: title required"
  else if (120 <? Z.of_nat (String.length title)) then throw "ValidationError: title too long"
  else
    latency <- Math_random ;;
    setTimeout (150 + latency * 250) ;;;
    roulette <- Math_random ;;
    if Qltb roulette (12 # 100) then throw "TransientError: simulate mutation failure"
    else
      now <- Date_now ;;
      cache <- gets TASKS_CACHE ;;
      let maxNum :=
        fold_left (fun m t => Z.max m (suffix (Task.id t))) (default [] cache) 0 + 1 in
      let id := "T" ++ pad maxNum 5 in
      let task :=
        Task.mk id (TaskCreateInput.contactId input) title
                (TaskCreateInput.notes input) (TaskCreateInput.dueDate input)
                false (default Task.medium (TaskCreateInput.priority input))
                now now in
      let cache' := (default [] cache ++ [task])%list in
      modify (set_TASKS_CACHE (Some cache')) ;;;
      writeJson TASKS_FILE cache' ;;;
      ret task.

(** The merge of [updates] into [prev] made by [updateTask], stamped [now]. *)
Definition merge (prev : Task.t) (updates : TaskUpdateInput.t) (now : Z) : Task.t :=
  Task.mk
    (Task.id prev)
    (Task.contactId prev)
    (match TaskUpdateInput.title updates with
     | Some s => if JS.truthy (JS.trim s) then JS.trim s else Task.title prev
     | None => Task.title prev
     end)
    (match TaskUpdateInput.notes updates with
     | Some s => Some s
     | None => Task.notes prev
     end)
    (match TaskUpdateInput.dueDate updates with
     | Some d => Some d
     | None => Task.dueDate prev
     end)
    (match TaskUpdateInput.completed updates with
     | Some b => b
     | None => Task.completed prev
     end)
    (match TaskUpdateInput.priority updates with
     | Some p => p
     | None => Task.priority prev
     end)
    (Task.createdAt prev)
    now.

Definition updateTask (id : string) (updates : TaskUpdateInput.t) : Eff Task.t :=
  ensureSeeded ;;;
  latency <- Math_random ;;
  setTimeout (150 + latency * 250) ;;;
  roulette <- Math_random ;;
  if Qltb roulette (12 # 100) then throw "TransientError: simulate mutation failure"
  else
    cache <- gets TASKS_CACHE ;;
    match JS.findIndex (fun t => String.eqb (Task.id t) id) (default [] cache) with
    | None => throw "NotFoundError: task not found"
    | Some idx =>
        (* [prev = TASKS_CACHE[idx]]: the index [findIndex] returned is in
           range, so the first branch is never taken. *)
        match default [] cache !! idx with
        | None => throw "NotFoundError: task not found"
        | Some prev =>
            now <- Date_now ;;
            let next := merge prev updates now in
            let cache' := <[idx := next]> (default [] cache) in
            modify (set_TASKS_CACHE (Some cache')) ;;;
            writeJson TASKS_FILE cache' ;;;
            ret next
        end
    end.

Definition deleteTask (id : string) : Eff bool :=
  ensureSeeded ;;;
  latency <- Math_random ;;
  setTimeout (120 + latency * 200) ;;;
  roulette <- Math_random ;;
  if Qltb roulette (12 # 100) then throw "TransientError: simulate mutation failure"
  else
    cache <- gets TASKS_CACHE ;;
    match JS.findIndex (fun t => String.eqb (Task.id t) id) (default [] cache) with
    | None => throw "NotFoundError: task not found"
    | Some idx =>
        let cache' := JS.splice1 idx (default [] cache) in
        modify (set_TASKS_CACHE (Some cache')) ;;;
        writeJson TASKS_FILE cache' ;;;
        ret true
    end.

End WithLocale.

End Tasks.

(** ** The routes: [src/app/api/.../route.ts]

    A handler is a computation that ends with a response.  The body of the
    request is the computation [req.json()], which may throw and whose
    value is of the input type the service declares (a JSON body of another
    shape, [null] for one, is outside the model); the id of a dynamic route
    is given as it is.  The two [GET] handlers of the lists
    read page and page size with [Number] from the query string, which may
    give a fraction or [NaN]; they are outside the model. *)

Module Api.

(** [NextResponse.json(body, { status })]: the body is the value the
    service returned, or [{ message }]. *)
Inductive Body (A : Type) : Type :=
| Json (a : A)
| Message (message : string).

Arguments Json {A} a.
Arguments Message {A} message.

Record Response (A : Type) : Type := mkResponse {
  body : Body A;
  status : Z
}.

Arguments mkResponse {A} body status.
Arguments body {A} r.
Arguments status {A} r.

(** [try { c } catch (err) { h }], the handler reading the error. *)
Definition try_catch_err {A : Type} (c : Eff A) (h : string -> Eff A) : Eff A :=
  fun w =>
    match c w with
    | (Return a, w') => (Return a, w')
    | (Throw m, w') => h m w'
    end.

(** [(err as Error).message || 'Unknown error'] *)
Definition messageOf (err : string) : string :=
  if JS.truthy err then err else "Unknown error".

(** [src/app/api/tasks/route.ts] *)
Module tasks.

Section WithLocale.

Context {L : Locale}.

Definition POST (req_json : Eff Tasks.TaskCreateInput.t) : Eff (Response Task.t) :=
  try_catch_err
    (body <- req_json ;;
     task <- Tasks.createTask body ;;
     ret (mkResponse (Json task) 201))
    (fun err =>
       let msg := messageOf err in
       let status :=
         if String.prefix "ValidationError" msg then 400
         else if String.prefix "NotFoundError" msg then 404
         else 503 in
       ret (mkResponse (Message msg) status)).

End WithLocale.

End tasks.

(** [src/app/api/tasks/[id]/route.ts]; the body [{ ok: true }] of [DELETE]
    is its field. *)
Module tasks_id.

Definition PATCH (req_json : Eff Tasks.TaskUpdateInput.t) (id : string)
  : Eff (Response Task.t) :=
  try_catch_err
    (body <- req_json ;;
     updated <- Tasks.updateTask id body ;;
     ret (mkResponse (Json updated) 200))
    (fun err =>
       let msg := messageOf err in
       let status :=
         if String.prefix "ValidationError" msg then 400
         else if String.prefix "NotFoundError" msg then 404
         else 503 in
       ret (mkResponse (Message msg) status)).

Definition DELETE (id : string) : Eff (Response bool) :=
  try_catch_err
    (Tasks.deleteTask id ;;;
     ret (mkResponse (Json true) 200))
    (fun err =>
       let msg := messageOf err in
       let status := if String.prefix "NotFoundError" msg then 404 else 503 in
       ret (mkResponse (Message msg) status)).

End tasks_id.

(** [src/app/api/contacts/route.ts] *)
Module contacts.

Section WithLocale.

Context {L : Locale}.

Definition POST (req_json : Eff Contacts.ContactCreateInput.t)
  : Eff (Response Contact.t) :=
  try_catch_err
    (body <- req_json ;;
     contact <- Contacts.createContact body ;;
     ret (mkResponse (Json contact) 201))
    (fun err =>
       let msg := messageOf err in
       let status := if String.prefix "ValidationError" msg then 400 else 503 in
       ret (mkResponse (Message msg) status)).

End WithLocale.

End contacts.

(** [src/app/api/contacts/[id]/route.ts] *)
Module contacts_id.

Section WithLocale.

Context {L : Locale}.

Definition GET (id : string) : Eff (Response Contact.t) :=
  try_catch_err
    (if negb (JS.truthy id)
     then ret (mkResponse (Message "BadRequest: missing id") 400)
     else
       c <- Contacts.getContact id ;;
       ret (mkResponse (Json c) 200))
    (fun err =>
       let msg := messageOf err in
       let status := if String.prefix "NotFoundError" msg then 404 else 503 in
       ret (mkResponse (Message msg) status)).

Definition DELETE (id : string) : Eff (Response bool) :=
  try_catch_err
    (if negb (JS.truthy id)
     then ret (mkResponse (Message "BadRequest: missing id") 400)
     else
       Contacts.deleteContact id ;;;
       ret (mkResponse (Json true) 200))
    (fun err =>
       let msg := messageOf err in
       let status := if String.prefix "NotFoundError" msg then 404 else 503 in
       ret (mkResponse (Message msg) status)).

End WithLocale.

End contacts_id.

End Api.

(** ** The contact page: [src/app/contacts/[id]/page.tsx] *)

Module ContactPage.

(** [sleep(ms)] *)
Definition sleep (ms : Z) : Eff unit := setTimeout (inject_Z ms).

(** The loop of [withRetry], entered at [i] with [remaining] attempts after
    this one.  On the last attempt ([i === attempts - 1]) the loop breaks
    and the error just caught is thrown; before any other the loop sleeps
    for [200 * (i + 1)] ms and a jitter. *)
Fixpoint withRetry_loop {T : Type} (fn : Eff T) (remaining : nat) (i : Z) : Eff T :=
  Api.try_catch_err fn
    (fun e =>
       match remaining with
       | O => throw e
       | S remaining' =>
           let base := 200 * (i + 1) in
           r <- Math_random ;;
           let jitter := Math_floor (r * 200) in
           sleep (base + jitter) ;;;
           withRetry_loop fn remaining' (i + 1)
       end).

(** [withRetry(fn, attempts = 3)], for [attempts] of 1 or more, as at
    every call of the page. *)
Definition withRetry {T : Type} (fn : Eff T) (attempts : nat) : Eff T :=
  withRetry_loop fn (attempts - 1) 0.

End ContactPage.

(** ** Vocabulary of the properties *)

(** [sub] occurs in [s] as a substring. *)
Definition contains (s sub : string) : Prop :=
  exists pre post : string, s = pre ++ sub ++ post.

(** The three kinds of error, by the prefix of the message, as the routes
    tell them apart. *)
Definition isTransientError (message : string) : bool :=
  String.prefix "TransientError" message.

Definition isNotFoundError (message : string) : bool :=
  String.prefix "NotFoundError" message.

Definition isValidationError (message : string) : bool :=
  String.prefix "ValidationError" message.

(** The world once a service has made sure its collection is loaded, and
    the collection it then works on. *)
Definition contacts_seeded {L : Locale} (w : World) : World :=
  snd (Contacts.ensureSeeded w).

Definition contacts_snapshot {L : Locale} (w : World) : list Contact.t :=
  default [] (CONTACTS_CACHE (contacts_seeded w)).

Definition tasks_seeded (w : World) : World := snd (Tasks.ensureSeeded w).

Definition tasks_snapshot (w : World) : list Task.t :=
  default [] (TASKS_CACHE (tasks_seeded w)).

(** The world once [createTask] has loaded the tasks and, looking the
    contact up, the contacts. *)
Definition tasks_prepared {L : Locale} (w : World) : World :=
  contacts_seeded (tasks_seeded w).

(** [R] holds of every two neighbours of [l]. *)
Definition adjacent {A : Type} (R : A -> A -> Prop) (l : list A) : Prop :=
  forall (i : nat) (a b : A), l !! i = Some a -> l !! S i = Some b -> R a b.

(** The text fields a search looks in: for a contact the first and last
    name joined, email, company, city, state and every tag; for a task the
    title and the notes. *)
Definition contact_text_fields (c : Contact.t) : list string :=
  (Contact.firstName c ++ " " ++ Contact.lastName c)
    :: Contact.email c :: Contact.company c :: Contact.city c :: Contact.state c
    :: Contact.tags c.

Definition task_text_fields (t : Task.t) : list string :=
  Task.title t :: match Task.notes t with Some n => [n] | None => [] end.

(** A search text that is not empty occurs, lower-cased, in one of the
    fields, lower-cased. *)
Definition search_passes {L : Locale} (q : string) (fields : list string) : Prop :=
  q <> "" ->
  exists f : string, In f fields /\ contains (toLowerCase f) (toLowerCase q).

Definition contact_passes {L : Locale} (params : Contacts.ListParams.t)
  (c : Contact.t) : Prop :=
  search_passes (default "" (Contacts.ListParams.q params)) (contact_text_fields c).

(** The filter on tasks in the words of the specification: every filter
    given in the query matches exactly, and the search passes. *)
Definition task_passes {L : Locale} (params : Tasks.TaskListParams.t)
  (t : Task.t) : Prop :=
  (forall cid, Tasks.TaskListParams.contactId params = Some cid ->
               Task.contactId t = cid)
  /\ (forall b, Tasks.TaskListParams.completed params = Some b ->
                Task.completed t = b)
  /\ search_passes (default "" (Tasks.TaskListParams.q params)) (task_text_fields t).

(** The same filter with a [contactId] that is the empty string counting
    as not given. *)
Definition task_passes_nonempty {L : Locale} (params : Tasks.TaskListParams.t)
  (t : Task.t) : Prop :=
  (forall cid, Tasks.TaskListParams.contactId params = Some cid -> cid <> "" ->
               Task.contactId t = cid)
  /\ (forall b, Tasks.TaskListParams.completed params = Some b ->
                Task.completed t = b)
  /\ search_passes (default "" (Tasks.TaskListParams.q params)) (task_text_fields t).

(** The declared comparison of two field values: numbers by subtraction,
    anything else by the collation of the string representations. *)
Definition declared_cmp {L : Locale} (av bv : JS.value) : Z :=
  match av, bv with
  | JS.VNumber x, JS.VNumber y => x - y
  | _, _ => localeCompare (JS.String_of_value av) (JS.String_of_value bv)
  end.

(** A comparison result respects the sort order: not positive when
    ascending, not negative when descending. *)
Definition respects (sortOrder : SortOrder) (c : Z) : Prop :=
  match sortOrder with
  | asc => c <= 0
  | desc => 0 <= c
  end.

(** The decimal representation of [n], with zeros in front up to [width]
    characters. *)
Fixpoint zeros (k : nat) : string :=
  match k with
  | O => ""
  | S k' => String "0" (zeros k')
  end.

Definition zero_padded (width : nat) (n : Z) : string :=
  zeros (width - String.length (JS.String_of_number n)) ++ JS.String_of_number n.

(** The largest of the numeric suffixes of a list of identifiers, 0 for
    the empty list. *)
Definition max_suffix (suffix : string -> Z) (ids : list string) : Z :=
  fold_right Z.max 0 (map suffix ids).

(** An id as the services write it: one character, then decimal digits
    only, which read as a number below 2^53 - 1.  For such ids [Number]
    reads the digits as they are written, and the largest suffix and its
    successor are whole numbers that the doubles of the source hold
    exactly. *)
Definition isDigit (c : ascii) : bool :=
  (48 <=? nat_of_ascii c)%nat && (nat_of_ascii c <=? 57)%nat.

Fixpoint allDigits (s : string) : bool :=
  match s with
  | EmptyString => true
  | String c s' => isDigit c && allDigits s'
  end.

Definition decimal_id (id : string) : bool :=
  match id with
  | EmptyString => false
  | String _ digits => allDigits digits && (JS.or0 (JS.Number digits) <? 2 ^ 53 - 1)
  end.

Definition ids_decimal (ids : list string) : Prop :=
  Forall (fun id => decimal_id id = true) ids.

(** A valid input of [createContact]: first name, last name and email are
    not empty once trimmed, and no contact of the collection has the email,
    case aside. *)
Definition contact_input_valid {L : Locale} (input : Contacts.ContactCreateInput.t)
  (old : list Contact.t) : Prop :=
  JS.trim (Contacts.ContactCreateInput.firstName input) <> ""
  /\ JS.trim (Contacts.ContactCreateInput.lastName input) <> ""
  /\ JS.trim (Contacts.ContactCreateInput.email input) <> ""
  /\ forall c, In c old ->
        toLowerCase (Contact.email c)
        <> toLowerCase (JS.trim (Contacts.ContactCreateInput.email input)).

(** A valid input of [createTask]: the contact is in the collection, and
    the title has 1 to 120 characters once trimmed. *)
Definition task_input_valid (input : Tasks.TaskCreateInput.t)
  (contacts : list Contact.t) : Prop :=
  (exists c, In c contacts /\ Contact.id c = Tasks.TaskCreateInput.contactId input)
  /\ (1 <= String.length (JS.trim (Tasks.TaskCreateInput.title input)) <= 120)%nat.

(** Neither simulated failure fires during [createTask]: the draw of
    [getContact] is not below 0.05 and the draw of [createTask] itself is
    not below 0.12. *)
Definition createTask_undisturbed {L : Locale} (w : World) : Prop :=
  Qltb (upcoming 1 (tasks_prepared w)) (5 # 100) = false
  /\ Qltb (upcoming 3 (tasks_prepared w)) (12 # 100) = false.

(** Sample records and worlds for the examples: one contact and one of its
    tasks, loaded and on disk; every draw is 0.99, as in the tests of the
    services, or 0.01, the value the tests use to make a call fail. *)
Module Sample.

Definition ada : Contact.t :=
  Contact.mk "C00001" "Ada" "Lovelace" "ada@x.com" "" "" "" "" [] 1000 1000.

Definition call : Task.t :=
  Task.mk "T00001" "C00001" "Call" None None false Task.medium 2000 2000.

Definition world (draw : Q) : World :=
  mkWorld (Some [ada]) (Some [call]) (Some [ada]) (Some [call])
          (fun _ => draw) 0 (fun n => 5000 + Z.of_nat n) 0.

Definition calm : World := world (99 # 100).

Definition stormy : World := world (1 # 100).

(** The first two draws are 0.99 and the later ones 0.01: the lookup of the
    contact goes through and the write that follows fails. *)
Definition flaky : World :=
  mkWorld (Some [ada]) (Some [call]) (Some [ada]) (Some [call])
          (fun n => if (n <? 2)%nat then 99 # 100 else 1 # 100) 0
          (fun n => 5000 + Z.of_nat n) 0.

(** A title of 121 characters. *)
Definition long_title : string := string_of_list_ascii (repeat "a"%char 121).

Definition grace : Contact.t :=
  Contact.mk "C00002" "Grace" "Hopper" "grace@y.org" "" "Navy" "" "" ["vip"] 900 1500.

Definition demo : Task.t :=
  Task.mk "T00002" "C00002" "Schedule demo" (Some "Ask Ada") (Some 9000) true
          Task.high 2100 2600.

Definition quote : Task.t :=
  Task.mk "T00003" "C00001" "Prepare quote" None (Some 10000) false Task.low 2200 2500.

(** A world with two contacts and three tasks, every draw 0.99. *)
Definition busy : World :=
  mkWorld (Some [ada; grace]) (Some [call; demo; quote])
          (Some [ada; grace]) (Some [call; demo; quote])
          (fun _ => 99 # 100) 0 (fun n => 5000 + Z.of_nat n) 0.

End Sample.

(** ** Vocabulary of the further properties *)

(** Two worlds hold the same collections, in memory and on disk. *)
Definition same_store (w w' : World) : Prop :=
  CONTACTS_CACHE w' = CONTACTS_CACHE w
  /\ TASKS_CACHE w' = TASKS_CACHE w
  /\ contacts_json w' = contacts_json w
  /\ tasks_json w' = tasks_json w.

(** The title of a stored task has 1 to 120 characters once trimmed. *)
Definition title_ok (t : Task.t) : Prop :=
  (1 <= String.length (JS.trim (Task.title t)) <= 120)%nat.

(** No two records share an id; no two contacts share an email, case
    aside. *)
Definition task_ids_distinct (l : list Task.t) : Prop :=
  List.NoDup (map Task.id l).

Definition contact_ids_distinct (l : list Contact.t) : Prop :=
  List.NoDup (map Contact.id l).

Definition contact_emails_distinct {L : Locale} (l : list Contact.t) : Prop :=
  List.NoDup (map (fun c => toLowerCase (Contact.email c)) l).

(** A query with its page and page size replaced. *)
Definition contacts_with_paging (params : Contacts.ListParams.t) (page pageSize : Z)
  : Contacts.ListParams.t :=
  Contacts.ListParams.mk (Contacts.ListParams.q params)
                         (Contacts.ListParams.sortBy params)
                         (Contacts.ListParams.sortOrder params)
                         (Some page) (Some pageSize).

Definition tasks_with_paging (params : Tasks.TaskListParams.t) (page pageSize : Z)
  : Tasks.TaskListParams.t :=
  Tasks.TaskListParams.mk (Tasks.TaskListParams.contactId params)
                          (Tasks.TaskListParams.q params)
                          (Tasks.TaskListParams.sortBy params)
                          (Tasks.TaskListParams.sortOrder params)
                          (Some page) (Some pageSize)
                          (Tasks.TaskListParams.completed params).

(** The task store is sound: the tasks are loaded, the file holds what the
    cache holds, and no two tasks share an id.  Likewise the contact store,
    where also no two contacts share an email. *)
Definition tasks_sound (w : World) : Prop :=
  exists l, TASKS_CACHE w = Some l /\ tasks_json w = Some l /\ task_ids_distinct l.

Definition contacts_sound {L : Locale} (w : World) : Prop :=
  exists l, CONTACTS_CACHE w = Some l /\ contacts_json w = Some l
            /\ contact_ids_distinct l /\ contact_emails_distinct l.

(** What the seeding loop promises of a contact it makes at time [now]:
    it was created within the 365 days before [now], its last activity lies
    between its creation and [now], and its state is the state of its
    city. *)
Definition seeded_ok (now : Z) (c : Contact.t) : Prop :=
  now - 31536000000 < Contact.createdAt c
  /\ Contact.createdAt c <= Contact.lastActivityAt c
  /\ Contact.lastActivityAt c <= now
  /\ In (Contact.city c, Contact.state c) (combine Contacts.cities Contacts.states).

(** What the seeding loop of the tasks promises of a task it makes at time
    [now]: it was created within the 120 days before [now], was updated
    between its creation and [now], and is due within the 30 days after its
    creation. *)
Definition seeded_task_ok (now : Z) (t : Task.t) : Prop :=
  now - 10368000000 < Task.createdAt t
  /\ Task.createdAt t <= Task.updatedAt t
  /\ Task.updatedAt t <= now
  /\ exists d, Task.dueDate t = Some d
               /\ Task.createdAt t <= d < Task.createdAt t + 2592000000.

(** A process that starts on an empty data directory; the draws cycle
    through tenths and the clock starts at 10^12. *)
Definition fresh_world : World :=
  mkWorld None None None None (fun n => Z.of_nat (n mod 10) # 10) 0
          (fun n => 1000000000000 + Z.of_nat n) 0.

(** The busy world with the first two draws 0.01 and the later ones 0.99:
    a write on tasks fails once and then goes through. *)
Definition recovering_world : World :=
  mkWorld (Some [Sample.ada; Sample.grace])
          (Some [Sample.call; Sample.demo; Sample.quote])
          (Some [Sample.ada; Sample.grace])
          (Some [Sample.call; Sample.demo; Sample.quote])
          (fun n => if (n <? 2)%nat then 1 # 100 else 99 # 100) 0
          (fun n => 5000 + Z.of_nat n) 0.

(** The status a handler answers with from the world [w]. *)
Definition answer {A : Type} (handler : Eff (Api.Response A)) (w : World) : option Z :=
  match fst (handler w) with
  | Return r => Some (Api.status r)
  | Throw _ => None
  end.

(** * Properties *)

(** ** The locale over code units *)

Lemma AsciiLocale_compare_antisym (a b : string) :
  Z.sgn (AsciiLocale.compare b a) = - Z.sgn (AsciiLocale.compare a b).
Proof.
  unfold AsciiLocale.compare. rewrite (String.compare_antisym a b).
  destruct (String.compare b a); reflexivity.
Qed.

#[export] Instance ascii_locale : Locale := {|
  toLowerCase := AsciiLocale.lower;
  localeCompare := AsciiLocale.compare;
  toLowerCase_empty := eq_refl;
  localeCompare_antisym := AsciiLocale_compare_antisym
|}.

(** ** The primitives on small inputs *)

Example trim_examples :
  JS.trim "  a b   " = "a b" /\ JS.trim "   " = "" /\ JS.trim "Call" = "Call".
Proof. repeat split. Qed.

Example includes_examples :
  JS.includes "hello" "ell" = true
  /\ JS.includes "hello" "" = true
  /\ JS.includes "" "a" = false
  /\ JS.includes "hello" "elo" = false.
Proof. repeat split. Qed.

Example slice_examples :
  JS.slice [1; 2; 3; 4; 5] 1 3 = [2; 3]
  /\ JS.slice [1; 2; 3; 4; 5] (-2) 10 = [4; 5]
  /\ JS.slice [1; 2; 3; 4; 5] 4 2 = []
  /\ JS.slice [1; 2; 3; 4; 5] (-10) (-1) = [1; 2; 3; 4].
Proof. repeat split. Qed.

Example Number_examples :
  JS.Number "00042" = Some 42 /\ JS.Number "" = Some 0 /\ JS.Number "4x" = None.
Proof. repeat split. Qed.

Example pad_examples :
  Contacts.pad 42 5 = "00042"
  /\ Contacts.pad 123456 5 = "123456"
  /\ Contacts.pad 7 3 = "007"
  /\ Tasks.pad 1 5 = "00001".
Proof. repeat split. Qed.

Example sort_examples :
  JS.sort (fun a b => a - b) [3; 1; 2; 1] = [1; 1; 2; 3]
  /\ JS.sort (fun a b => - (a - b)) [3; 1; 2; 1] = [3; 2; 1; 1]
  /\ JS.sort (fun a b : Z * string => fst a - fst b) [(2, "x"); (1, "y"); (2, "z")]
     = [(1, "y"); (2, "x"); (2, "z")].
Proof. repeat split. Qed.

Example findIndex_splice_examples :
  JS.findIndex (Z.eqb 2) [3; 1; 2; 1] = Some 2%nat
  /\ JS.findIndex (Z.eqb 7) [3; 1; 2; 1] = None
  /\ JS.splice1 1 [3; 1; 2; 1] = [3; 2; 1].
Proof. repeat split. Qed.

(** The seventh seeded contact when every draw is 0.99 and the clock reads
    10^12. *)
Example seedContact_example :
  fst (Contacts.seedContact (L := ascii_locale) 1000000000000 7 Sample.calm)
  = Return (Contact.mk "C00007" "Quinn" "Ivanov" "quinn.ivanov7@zennic.com"
                       "+1-(107)-007-0049" "Zennic" "Tokyo" "TK" ["beta"]
                       968779360000 999687793600).
Proof. vm_compute. reflexivity. Qed.

Example seedContacts_ids :
  match fst (Contacts.seedContacts (L := ascii_locale) 3 Sample.calm) with
  | Return l => map Contact.id l
  | Throw _ => []
  end = ["C00001"; "C00002"; "C00003"].
Proof. vm_compute. reflexivity. Qed.

(** The tasks start empty: [seedTasks(0)]. *)
Example seedTasks_empty : fst (Tasks.seedTasks 0 Sample.calm) = Return [].
Proof. reflexivity. Qed.

(** ** Strings *)

Lemma prefix_app (p s : string) :
  String.prefix p s = true <-> exists post, s = p ++ post.
Proof.
  revert s. induction p as [|a p IH]; intros s; simpl.
  - destruct s; split; intros; eauto.
  - destruct s as [|b s]; simpl.
    + split; [discriminate | intros [post H]; discriminate].
    + destruct (ascii_dec a b) as [->|Hne].
      * rewrite IH. split; intros [post H]; exists post; simpl in *; congruence.
      * split; [discriminate | intros [post H]; simpl in H; congruence].
Qed.

Lemma includes_nil (sub : string) :
  JS.includes "" sub = String.prefix sub "" || false.
Proof. reflexivity. Qed.

Lemma includes_cons (c : ascii) (s sub : string) :
  JS.includes (String c s) sub
  = String.prefix sub (String c s) || JS.includes s sub.
Proof. reflexivity. Qed.

Lemma includes_contains (s sub : string) :
  JS.includes s sub = true <-> contains s sub.
Proof.
  unfold contains. induction s as [|c s IH].
  - rewrite includes_nil, orb_false_r, prefix_app. split.
    + intros [post H]. exists "", post. exact H.
    + intros [pre [post H]]. destruct pre; simpl in H.
      * eauto.
      * discriminate.
  - rewrite includes_cons, orb_true_iff, prefix_app, IH. split.
    + intros [[post H]|[pre [post H]]].
      * exists "", post. exact H.
      * exists (String c pre), post. simpl. congruence.
    + intros [pre [post H]]. destruct pre as [|c' pre]; simpl in H.
      * left. eauto.
      * right. exists pre, post. congruence.
Qed.

Lemma truthy_false (s : string) : JS.truthy s = false <-> s = "".
Proof. destruct s; simpl; split; congruence. Qed.

Lemma truthy_true (s : string) : JS.truthy s = true <-> s <> "".
Proof. destruct s; simpl; split; congruence. Qed.

(** ** Arrays: [slice], [sort], [findIndex] *)

Section Arrays.

Context {A : Type}.

Lemma In_take (n : nat) (l : list A) (x : A) : In x (firstn n l) -> In x l.
Proof.
  intros H. rewrite <- (firstn_skipn n l). apply in_or_app. now left.
Qed.

Lemma In_drop (n : nat) (l : list A) (x : A) : In x (skipn n l) -> In x l.
Proof.
  intros H. rewrite <- (firstn_skipn n l). apply in_or_app. now right.
Qed.

Lemma slice_In (l : list A) (start stop : Z) (x : A) :
  In x (JS.slice l start stop) -> In x l.
Proof.
  unfold JS.slice. intros H. apply In_take in H. now apply In_drop in H.
Qed.

(** The page [start, start + size) of an array, for a start and a size
    that are not negative. *)
Lemma slice_page_length (l : list A) (start size : Z) :
  0 <= start -> 0 <= size ->
  Z.of_nat (length (JS.slice l start (start + size)))
  = Z.min size (Z.max 0 (Z.of_nat (length l) - start)).
Proof.
  intros Hs Hz. unfold JS.slice, JS.relativeIndex.
  destruct (Z.ltb_spec start 0); [lia|].
  destruct (Z.ltb_spec (start + size) 0); [lia|].
  rewrite length_firstn, length_skipn. lia.
Qed.

Lemma slice_lookup (l : list A) (start stop : Z) (i : nat) (x : A) :
  JS.slice l start stop !! i = Some x ->
  l !! (Z.to_nat (JS.relativeIndex (Z.of_nat (length l)) start) + i)%nat = Some x.
Proof.
  unfold JS.slice. intros H.
  apply lookup_take_Some in H as [H _]. now rewrite lookup_drop in H.
Qed.

Lemma slice_adjacent (R : A -> A -> Prop) (l : list A) (start stop : Z) :
  adjacent R l -> adjacent R (JS.slice l start stop).
Proof.
  intros Hl i a b Ha Hb.
  apply slice_lookup in Ha, Hb.
  rewrite Nat.add_succ_r in Hb. exact (Hl _ _ _ Ha Hb).
Qed.

Variable cmp : A -> A -> Z.

Lemma sort_insert_perm (x : A) (l : list A) :
  Permutation (JS.sort_insert cmp x l) (x :: l).
Proof.
  induction l as [|y l IH]; simpl.
  - reflexivity.
  - destruct (cmp x y <=? 0).
    + reflexivity.
    + rewrite IH. apply perm_swap.
Qed.

Lemma sort_perm (l : list A) : Permutation (JS.sort cmp l) l.
Proof.
  induction l as [|x l IH]; simpl.
  - reflexivity.
  - rewrite sort_insert_perm. now constructor.
Qed.

Lemma sort_In (l : list A) (x : A) : In x (JS.sort cmp l) <-> In x l.
Proof.
  split; apply Permutation_in; [|symmetry]; apply sort_perm.
Qed.

Lemma sort_length (l : list A) : length (JS.sort cmp l) = length l.
Proof. apply Permutation_length, sort_perm. Qed.

(** A comparator that never puts two elements both ways round strictly. *)
Hypothesis cmp_total : forall a b : A, cmp a b <= 0 \/ cmp b a <= 0.

Lemma sort_insert_sorted (x : A) (l : list A) :
  Sorted (fun a b => cmp a b <= 0) l ->
  Sorted (fun a b => cmp a b <= 0) (JS.sort_insert cmp x l).
Proof using cmp_total.
  induction l as [|y l IH]; intros Hl; simpl.
  - repeat constructor.
  - destruct (Z.leb_spec (cmp x y) 0) as [Hxy|Hxy].
    + constructor; [assumption | constructor; assumption].
    + inversion Hl as [|? ? Hs Hhd]; subst.
      constructor; [now apply IH|].
      destruct l as [|z l]; simpl.
      * constructor. destruct (cmp_total x y); lia.
      * destruct (cmp x z <=? 0); constructor.
        -- destruct (cmp_total x y); lia.
        -- now inversion Hhd.
Qed.

Lemma sort_sorted (l : list A) : Sorted (fun a b => cmp a b <= 0) (JS.sort cmp l).
Proof using cmp_total.
  induction l as [|x l IH]; simpl.
  - constructor.
  - now apply sort_insert_sorted.
Qed.

Lemma Sorted_adjacent (R : A -> A -> Prop) (l : list A) :
  Sorted R l -> adjacent R l.
Proof.
  induction 1 as [|x l Hs IH Hhd]; intros i a b Ha Hb.
  - discriminate.
  - destruct i as [|i]; simpl in *.
    + destruct l as [|y l]; [discriminate|].
      simpl in Hb. inversion Hhd; subst. congruence.
    + exact (IH _ _ _ Ha Hb).
Qed.

Lemma sort_adjacent (l : list A) :
  adjacent (fun a b => cmp a b <= 0) (JS.sort cmp l).
Proof using cmp_total.
  apply Sorted_adjacent, sort_sorted.
Qed.

End Arrays.

Section Finding.

Context {A : Type}.

Variable p : A -> bool.

Lemma findIndex_Some (l : list A) (i : nat) :
  JS.findIndex p l = Some i ->
  exists x, l !! i = Some x /\ p x = true /\ JS.find p l = Some x.
Proof.
  unfold JS.find. revert i. induction l as [|y l IH]; intros i H; simpl in *.
  - discriminate.
  - destruct (p y) eqn:Hy.
    + injection H as <-. eauto.
    + destruct (JS.findIndex p l) as [j|]; [|discriminate].
      injection H as <-. destruct (IH j eq_refl) as (x & ? & ? & ?). eauto.
Qed.

Lemma findIndex_None (l : list A) :
  JS.findIndex p l = None <-> JS.find p l = None.
Proof.
  unfold JS.find. induction l as [|y l IH]; simpl.
  - tauto.
  - destruct (p y); [split; discriminate|].
    destruct (JS.findIndex p l); simpl; [|tauto].
    split; [discriminate|]. intros H. apply IH in H. discriminate.
Qed.

Lemma find_findIndex (l : list A) (x : A) :
  JS.find p l = Some x ->
  exists i, JS.findIndex p l = Some i /\ l !! i = Some x.
Proof.
  intros H. destruct (JS.findIndex p l) as [i|] eqn:Hi.
  - destruct (findIndex_Some _ _ Hi) as (y & ? & ? & ?). exists i. split; congruence.
  - apply findIndex_None in Hi. congruence.
Qed.

End Finding.

(** ** Seeding *)

Lemma set_drawn_same (w : World) : set_drawn (drawn w) w = w.
Proof. now destruct w. Qed.

Lemma tasks_ensureSeeded_run (w : World) :
  Tasks.ensureSeeded w = (Return tt, tasks_seeded w).
Proof.
  unfold tasks_seeded, Tasks.ensureSeeded, bind, gets.
  destruct (TASKS_CACHE w); [reflexivity|].
  simpl. destruct (tasks_json w); reflexivity.
Qed.

Lemma tasks_seeded_loaded (w : World) (l : list Task.t) :
  TASKS_CACHE w = Some l -> tasks_seeded w = w.
Proof.
  intros H. unfold tasks_seeded, Tasks.ensureSeeded, bind, gets. now rewrite H.
Qed.

Lemma tasks_seeded_cache (w : World) :
  TASKS_CACHE (tasks_seeded w) = Some (tasks_snapshot w).
Proof.
  unfold tasks_snapshot, tasks_seeded, Tasks.ensureSeeded, bind, gets.
  destruct (TASKS_CACHE w) eqn:E; simpl; [now rewrite E|].
  destruct (tasks_json w); reflexivity.
Qed.

(** Loading the tasks leaves the contacts, the draws and the clock's
    readings as they were. *)
Lemma tasks_seeded_frame (w : World) :
  CONTACTS_CACHE (tasks_seeded w) = CONTACTS_CACHE w
  /\ contacts_json (tasks_seeded w) = contacts_json w
  /\ randoms (tasks_seeded w) = randoms w
  /\ drawn (tasks_seeded w) = drawn w
  /\ clock (tasks_seeded w) = clock w.
Proof.
  unfold tasks_seeded, Tasks.ensureSeeded, bind, gets.
  destruct (TASKS_CACHE w); simpl; [tauto|].
  destruct (tasks_json w); simpl; tauto.
Qed.

Section ContactsSeeding.

Context {L : Locale}.

Lemma seedContact_run (now i : Z) (w : World) :
  exists c n, Contacts.seedContact now i w = (Return c, set_drawn n w).
Proof.
  unfold Contacts.seedContact, Contacts.randomChoice, Math_random, ret, bind.
  cbn beta iota.
  match goal with
  | |- context [JS.findIndex ?f ?l] => destruct (JS.findIndex f l) as [k|]
  end.
  - match goal with
    | |- context [nth_error ?l ?k] => destruct (nth_error l k)
    end; eexists _, _; reflexivity.
  - eexists _, _; reflexivity.
Qed.

Lemma seedContacts_loop_run (n : nat) (now i : Z) (out : list Contact.t) (w : World) :
  exists l k, Contacts.seedContacts_loop n now i out w = (Return l, set_drawn k w).
Proof.
  revert i out w. induction n as [|n IH]; intros i out w; simpl.
  - exists out, (drawn w). unfold ret. now rewrite set_drawn_same.
  - unfold bind. destruct (seedContact_run now i w) as (c & k & ->).
    destruct (IH (i + 1) (out ++ [c])%list (set_drawn k w)) as (l & k' & ->).
    now exists l, k'.
Qed.

Lemma contacts_ensureSeeded_run (w : World) :
  Contacts.ensureSeeded w = (Return tt, contacts_seeded w).
Proof.
  unfold contacts_seeded, Contacts.ensureSeeded, bind, gets.
  destruct (CONTACTS_CACHE w); [reflexivity|].
  simpl. destruct (contacts_json w) as [[|c l]|]; try reflexivity.
  all: unfold Contacts.seedContacts, bind, Date_now;
    generalize (Z.to_nat 12000); intros n;
    match goal with
    | |- context [Contacts.seedContacts_loop n ?now ?i ?out ?w0] =>
        destruct (seedContacts_loop_run n now i out w0) as (l' & k & ->)
    end; reflexivity.
Qed.

Lemma contacts_seeded_loaded (w : World) (l : list Contact.t) :
  CONTACTS_CACHE w = Some l -> contacts_seeded w = w.
Proof.
  intros H. unfold contacts_seeded, Contacts.ensureSeeded, bind, gets. now rewrite H.
Qed.

Lemma contacts_snapshot_loaded (w : World) (l : list Contact.t) :
  CONTACTS_CACHE w = Some l -> contacts_snapshot w = l.
Proof.
  intros H. unfold contacts_snapshot. rewrite (contacts_seeded_loaded w l H).
  now rewrite H.
Qed.

Lemma contacts_seeded_cache (w : World) :
  CONTACTS_CACHE (contacts_seeded w) = Some (contacts_snapshot w).
Proof.
  unfold contacts_snapshot, contacts_seeded, Contacts.ensureSeeded, bind, gets.
  destruct (CONTACTS_CACHE w) eqn:E; simpl; [now rewrite E|].
  destruct (contacts_json w) as [[|c l]|]; try reflexivity.
  all: unfold Contacts.seedContacts, bind, Date_now;
    generalize (Z.to_nat 12000); intros n;
    match goal with
    | |- context [Contacts.seedContacts_loop n ?now ?i ?out ?w0] =>
        destruct (seedContacts_loop_run n now i out w0) as (l' & k & ->)
    end; reflexivity.
Qed.

(** Loading the contacts leaves the tasks, the stream of draws and the
    clock's readings as they were. *)
Lemma contacts_seeded_frame (w : World) :
  TASKS_CACHE (contacts_seeded w) = TASKS_CACHE w
  /\ tasks_json (contacts_seeded w) = tasks_json w
  /\ randoms (contacts_seeded w) = randoms w
  /\ clock (contacts_seeded w) = clock w.
Proof.
  unfold contacts_seeded, Contacts.ensureSeeded, bind, gets.
  destruct (CONTACTS_CACHE w); simpl; [tauto|].
  destruct (contacts_json w) as [[|c l]|]; simpl; try tauto.
  all: unfold Contacts.seedContacts, bind, Date_now;
    generalize (Z.to_nat 12000); intros n;
    match goal with
    | |- context [Contacts.seedContacts_loop n ?now ?i ?out ?w0] =>
        destruct (seedContacts_loop_run n now i out w0) as (l' & k & ->)
    end; simpl; tauto.
Qed.

End ContactsSeeding.

(** ** What each call computes

    One equation per exported function: the outcome and the world left
    behind, from the world the call starts in. *)

Ltac run_eff :=
  unfold Math_random, Date_now, setTimeout, gets, modify, throw, ret,
    try_catch, bind, Store.readJson, Store.writeJson;
  cbn beta iota.

Ltac simpl_world :=
  cbn [CONTACTS_CACHE TASKS_CACHE contacts_json tasks_json randoms drawn clock
       ticks set_CONTACTS_CACHE set_TASKS_CACHE set_contacts_json set_tasks_json
       set_drawn set_ticks] in *.

Section Runs.

Context {L : Locale}.

Lemma listContacts_run (params : Contacts.ListParams.t) (w : World) :
  let w1 := contacts_seeded w in
  let sortBy := default Contact.KlastActivityAt (Contacts.ListParams.sortBy params) in
  let sortOrder := default desc (Contacts.ListParams.sortOrder params) in
  let page := default 1 (Contacts.ListParams.page params) in
  let pageSize := default 50 (Contacts.ListParams.pageSize params) in
  let qn := toLowerCase (default "" (Contacts.ListParams.q params)) in
  let filtered := List.filter (Contacts.matches qn) (contacts_snapshot w) in
  let sorted := JS.sort (Contacts.comparator sortBy sortOrder) filtered in
  let start := (page - 1) * pageSize in
  Contacts.listContacts params w
  = (if Qltb (upcoming 1 w1) (5 # 100)
     then Throw "TransientError: simulated network failure"
     else Return (Contacts.ListResult.mk
                    (JS.slice sorted start (start + pageSize))
                    (Z.of_nat (length filtered)) page pageSize
                    (start + pageSize <? Z.of_nat (length filtered))),
     set_drawn (2 + drawn w1) w1).
Proof.
  cbv zeta. unfold Contacts.listContacts, bind at 1.
  rewrite contacts_ensureSeeded_run. unfold contacts_snapshot, Contacts.normalize.
  generalize (contacts_seeded w). intros w1. run_eff.
  change (upcoming 0 (set_drawn (S (drawn w1)) w1)) with (upcoming 1 w1).
  destruct (Qltb (upcoming 1 w1) (5 # 100)); reflexivity.
Qed.

Lemma getContact_run (id : string) (w : World) :
  let w1 := contacts_seeded w in
  Contacts.getContact id w
  = (if Qltb (upcoming 1 w1) (5 # 100)
     then Throw "TransientError: simulated network failure"
     else match JS.find (fun x => String.eqb (Contact.id x) id) (contacts_snapshot w) with
          | None => Throw "NotFoundError: contact not found"
          | Some c => Return c
          end,
     set_drawn (2 + drawn w1) w1).
Proof.
  cbv zeta. unfold Contacts.getContact, bind at 1.
  rewrite contacts_ensureSeeded_run. unfold contacts_snapshot.
  generalize (contacts_seeded w). intros w1. run_eff.
  change (upcoming 0 (set_drawn (S (drawn w1)) w1)) with (upcoming 1 w1).
  destruct (Qltb (upcoming 1 w1) (5 # 100)); [reflexivity|].
  simpl_world.
  destruct (JS.find _ _); reflexivity.
Qed.

Lemma createContact_run (input : Contacts.ContactCreateInput.t) (w : World) :
  let w1 := contacts_seeded w in
  let old := contacts_snapshot w in
  let firstName := JS.trim (Contacts.ContactCreateInput.firstName input) in
  let lastName := JS.trim (Contacts.ContactCreateInput.lastName input) in
  let email := JS.trim (Contacts.ContactCreateInput.email input) in
  let contact :=
    Contact.mk (Contacts.nextContactId old) firstName lastName email
               (default "" (Contacts.ContactCreateInput.phone input))
               (default "" (Contacts.ContactCreateInput.company input))
               (default "" (Contacts.ContactCreateInput.city input))
               (default "" (Contacts.ContactCreateInput.state input))
               (default [] (Contacts.ContactCreateInput.tags input))
               (clock w1 (ticks w1)) (clock w1 (ticks w1)) in
  Contacts.createContact input w
  = if negb (JS.truthy firstName) || negb (JS.truthy lastName) || negb (JS.truthy email)
    then (Throw "ValidationError: firstName, lastName, email required", w1)
    else if existsb (fun c => String.eqb (toLowerCase (Contact.email c))
                                         (toLowerCase email)) old
    then (Throw "ValidationError: email already exists", w1)
    else (Return contact,
          set_contacts_json (Some (contact :: old))
            (set_CONTACTS_CACHE (Some (contact :: old))
               (set_ticks (S (ticks w1)) w1))).
Proof.
  cbv zeta. unfold Contacts.createContact, bind at 1.
  rewrite contacts_ensureSeeded_run. unfold contacts_snapshot.
  generalize (contacts_seeded w). intros w1.
  destruct (negb _ || negb _ || negb _); [reflexivity|].
  run_eff. destruct (existsb _ _); reflexivity.
Qed.

Lemma deleteContact_run (id : string) (w : World) :
  let w1 := contacts_seeded w in
  let old := contacts_snapshot w in
  Contacts.deleteContact id w
  = match JS.findIndex (fun c => String.eqb (Contact.id c) id) old with
    | None => (Throw "NotFoundError: contact not found", w1)
    | Some idx =>
        (Return true,
         set_tasks_json
           (Some (List.filter (fun t => negb (String.eqb (Task.contactId t) id))
                              (default [] (tasks_json w1))))
           (set_contacts_json (Some (JS.splice1 idx old))
              (set_CONTACTS_CACHE (Some (JS.splice1 idx old)) w1)))
    end.
Proof.
  cbv zeta. unfold Contacts.deleteContact, bind at 1.
  rewrite contacts_ensureSeeded_run. unfold contacts_snapshot.
  generalize (contacts_seeded w). intros w1. run_eff.
  destruct (JS.findIndex _ _); reflexivity.
Qed.

Lemma listTasks_run (params : Tasks.TaskListParams.t) (w : World) :
  let w1 := tasks_seeded w in
  let sortBy := default Task.KupdatedAt (Tasks.TaskListParams.sortBy params) in
  let sortOrder := default desc (Tasks.TaskListParams.sortOrder params) in
  let page := default 1 (Tasks.TaskListParams.page params) in
  let pageSize := default 50 (Tasks.TaskListParams.pageSize params) in
  let qn := toLowerCase (default "" (Tasks.TaskListParams.q params)) in
  let filtered :=
    List.filter (Tasks.matches (Tasks.TaskListParams.contactId params)
                               (Tasks.TaskListParams.completed params) qn)
                (tasks_snapshot w) in
  let sorted := JS.sort (Tasks.comparator sortBy sortOrder) filtered in
  let start := (page - 1) * pageSize in
  Tasks.listTasks params w
  = (if Qltb (upcoming 1 w1) (5 # 100)
     then Throw "TransientError: simulated network failure"
     else Return (Tasks.TaskListResult.mk
                    (JS.slice sorted start (start + pageSize))
                    (Z.of_nat (length filtered)) page pageSize
                    (start + pageSize <? Z.of_nat (length filtered))),
     set_drawn (2 + drawn w1) w1).
Proof.
  cbv zeta. unfold Tasks.listTasks, bind at 1.
  rewrite tasks_ensureSeeded_run. unfold tasks_snapshot, Tasks.normalize.
  generalize (tasks_seeded w). intros w1. run_eff.
  change (upcoming 0 (set_drawn (S (drawn w1)) w1)) with (upcoming 1 w1).
  destruct (Qltb (upcoming 1 w1) (5 # 100)); reflexivity.
Qed.

Lemma updateTask_run (id : string) (updates : Tasks.TaskUpdateInput.t) (w : World) :
  let w1 := tasks_seeded w in
  let w2 := set_drawn (2 + drawn w1) w1 in
  let old := tasks_snapshot w in
  Tasks.updateTask id updates w
  = if Qltb (upcoming 1 w1) (12 # 100)
    then (Throw "TransientError: simulate mutation failure", w2)
    else match JS.find (fun t => String.eqb (Task.id t) id) old,
               JS.findIndex (fun t => String.eqb (Task.id t) id) old with
         | Some prev, Some idx =>
             let next := Tasks.merge prev updates (clock w1 (ticks w1)) in
             (Return next,
              set_tasks_json (Some (<[idx := next]> old))
                (set_TASKS_CACHE (Some (<[idx := next]> old))
                   (set_ticks (S (ticks w1)) w2)))
         | _, _ => (Throw "NotFoundError: task not found", w2)
         end.
Proof.
  cbv zeta. unfold Tasks.updateTask, bind at 1.
  rewrite tasks_ensureSeeded_run. unfold tasks_snapshot.
  generalize (tasks_seeded w). intros w1. run_eff.
  change (upcoming 0 (set_drawn (S (drawn w1)) w1)) with (upcoming 1 w1).
  destruct (Qltb (upcoming 1 w1) (12 # 100)); [reflexivity|].
  simpl_world.
  destruct (JS.findIndex _ _) as [idx|] eqn:Hidx.
  - destruct (findIndex_Some _ _ _ Hidx) as (prev & Hl & _ & Hf).
    rewrite Hf, Hl. reflexivity.
  - apply findIndex_None in Hidx. now rewrite Hidx.
Qed.

Lemma deleteTask_run (id : string) (w : World) :
  let w1 := tasks_seeded w in
  let w2 := set_drawn (2 + drawn w1) w1 in
  let old := tasks_snapshot w in
  Tasks.deleteTask id w
  = if Qltb (upcoming 1 w1) (12 # 100)
    then (Throw "TransientError: simulate mutation failure", w2)
    else match JS.findIndex (fun t => String.eqb (Task.id t) id) old with
         | None => (Throw "NotFoundError: task not found", w2)
         | Some idx =>
             (Return true,
              set_tasks_json (Some (JS.splice1 idx old))
                (set_TASKS_CACHE (Some (JS.splice1 idx old)) w2))
         end.
Proof.
  cbv zeta. unfold Tasks.deleteTask, bind at 1.
  rewrite tasks_ensureSeeded_run. unfold tasks_snapshot.
  generalize (tasks_seeded w). intros w1. run_eff.
  change (upcoming 0 (set_drawn (S (drawn w1)) w1)) with (upcoming 1 w1).
  destruct (Qltb (upcoming 1 w1) (12 # 100)); [reflexivity|].
  simpl_world.
  destruct (JS.findIndex _ _); reflexivity.
Qed.

Lemma tasks_prepared_cache (w : World) :
  TASKS_CACHE (tasks_prepared w) = Some (tasks_snapshot w).
Proof.
  unfold tasks_prepared.
  destruct (contacts_seeded_frame (tasks_seeded w)) as (-> & _).
  apply tasks_seeded_cache.
Qed.

Lemma createTask_run (input : Tasks.TaskCreateInput.t) (w : World) :
  let wc := tasks_prepared w in
  let w2 := set_drawn (2 + drawn wc) wc in
  let w3 := set_drawn (4 + drawn wc) wc in
  let old := tasks_snapshot w in
  let cid := Tasks.TaskCreateInput.contactId input in
  let title := JS.trim (Tasks.TaskCreateInput.title input) in
  let maxNum := fold_left (fun m t => Z.max m (Tasks.suffix (Task.id t))) old 0 + 1 in
  let task :=
    Task.mk ("T" ++ Tasks.pad maxNum 5) cid title
            (Tasks.TaskCreateInput.notes input) (Tasks.TaskCreateInput.dueDate input)
            false (default Task.medium (Tasks.TaskCreateInput.priority input))
            (clock wc (ticks wc)) (clock wc (ticks wc)) in
  Tasks.createTask input w
  = if Qltb (upcoming 1 wc) (5 # 100)
    then (Throw "ValidationError: contact does not exist", w2)
    else match JS.find (fun x => String.eqb (Contact.id x) cid)
                       (contacts_snapshot (tasks_seeded w)) with
         | None => (Throw "ValidationError: contact does not exist", w2)
         | Some _ =>
             if negb (JS.truthy title)
             then (Throw "ValidationError: title required", w2)
             else if 120 <? Z.of_nat (String.length title)
             then (Throw "ValidationError: title too long", w2)
             else if Qltb (upcoming 3 wc) (12 # 100)
             then (Throw "TransientError: simulate mutation failure", w3)
             else (Return task,
                   set_tasks_json (Some (old ++ [task])%list)
                     (set_TASKS_CACHE (Some (old ++ [task])%list)
                        (set_ticks (S (ticks wc)) w3)))
         end.
Proof.
  cbv zeta. unfold Tasks.createTask, bind at 1.
  rewrite tasks_ensureSeeded_run.
  unfold try_catch, bind at 1. unfold bind at 1.
  pose proof (getContact_run (Tasks.TaskCreateInput.contactId input) (tasks_seeded w))
    as Hget.
  cbv zeta in Hget. rewrite Hget. clear Hget.
  pose proof (tasks_prepared_cache w) as Hcache.
  unfold tasks_prepared in *.
  generalize dependent (contacts_snapshot (tasks_seeded w)). intros snapshot.
  generalize dependent (contacts_seeded (tasks_seeded w)). intros wc Hcache.
  destruct (Qltb (upcoming 1 wc) (5 # 100)); [reflexivity|].
  destruct (JS.find _ snapshot); [|reflexivity].
  unfold ret at 1. unfold bind at 1.
  destruct (negb _); [reflexivity|].
  destruct (120 <? _); [reflexivity|].
  run_eff.
  match goal with
  | |- context [Qltb ?x (12 # 100)] => change x with (upcoming 3 wc)
  end.
  destruct (Qltb (upcoming 3 wc) (12 # 100)); [reflexivity|].
  run_eff. simpl_world. rewrite Hcache. reflexivity.
Qed.

End Runs.

(** ** Filtering *)

Section Filtering.

Context {L : Locale}.

Lemma contains_empty (s : string) : contains s "".
Proof.
  exists s, "". simpl. induction s as [|c s IH]; simpl; congruence.
Qed.

Lemma lower_truthy (q : string) :
  JS.truthy (toLowerCase q) = true -> q <> "".
Proof.
  intros H ->. rewrite toLowerCase_empty in H. discriminate.
Qed.

(** The callback decides the search over a list of fields. *)
Lemma search_passes_existsb (q : string) (fields : list string) :
  fields <> [] ->
  (if negb (JS.truthy (toLowerCase q)) then true
   else existsb (fun f => JS.includes (toLowerCase f) (toLowerCase q)) fields) = true
  <-> search_passes q fields.
Proof.
  intros Hne. unfold search_passes.
  destruct (JS.truthy (toLowerCase q)) eqn:Hq; simpl.
  - rewrite existsb_exists. split.
    + intros (f & Hin & Hf) _. exists f. now rewrite <- includes_contains.
    + intros H. destruct (H (lower_truthy _ Hq)) as (f & Hin & Hf).
      exists f. now rewrite includes_contains.
  - apply truthy_false in Hq. rewrite Hq. split; [|reflexivity].
    intros _ _. destruct fields as [|f fields]; [congruence|].
    exists f. split; [now left | apply contains_empty].
Qed.

Lemma contacts_matches_passes (params : Contacts.ListParams.t) (c : Contact.t) :
  Contacts.matches (toLowerCase (default "" (Contacts.ListParams.q params))) c = true
  <-> contact_passes params c.
Proof.
  unfold contact_passes. rewrite <- search_passes_existsb by discriminate.
  unfold Contacts.matches, Contacts.normalize, contact_text_fields. simpl existsb.
  now rewrite !orb_assoc.
Qed.

Lemma notes_includes (n qn : string) :
  JS.truthy qn = true ->
  (if JS.truthy n then JS.includes (toLowerCase n) qn else false)
  = JS.includes (toLowerCase n) qn.
Proof.
  intros Hq. destruct n; simpl; [|reflexivity].
  rewrite toLowerCase_empty. destruct qn; [discriminate | reflexivity].
Qed.

Lemma tasks_search_passes (q : string) (t : Task.t) :
  (if negb (JS.truthy (toLowerCase q)) then true
   else JS.includes (toLowerCase (Task.title t)) (toLowerCase q)
        || match Task.notes t with
           | Some n =>
               if JS.truthy n then JS.includes (toLowerCase n) (toLowerCase q)
               else false
           | None => false
           end) = true
  <-> search_passes q (task_text_fields t).
Proof.
  rewrite <- search_passes_existsb by (unfold task_text_fields; discriminate).
  unfold task_text_fields.
  destruct (JS.truthy (toLowerCase q)) eqn:Hq; simpl; [|reflexivity].
  destruct (Task.notes t) as [n|]; simpl.
  - now rewrite notes_includes, orb_false_r.
  - reflexivity.
Qed.

Lemma tasks_matches_passes (params : Tasks.TaskListParams.t) (t : Task.t) :
  Tasks.matches (Tasks.TaskListParams.contactId params)
                (Tasks.TaskListParams.completed params)
                (toLowerCase (default "" (Tasks.TaskListParams.q params))) t = true
  <-> task_passes_nonempty params t.
Proof.
  unfold task_passes_nonempty.
  rewrite <- tasks_search_passes.
  unfold Tasks.matches, Tasks.normalize.
  set (search := if negb (JS.truthy _) then true else _).
  assert (Hcompleted :
    (if match Tasks.TaskListParams.completed params with
        | Some b => negb (Bool.eqb (Task.completed t) b)
        | None => false
        end then false else search) = true
    <-> (forall b, Tasks.TaskListParams.completed params = Some b ->
                   Task.completed t = b) /\ search = true).
  { destruct (Tasks.TaskListParams.completed params) as [b|].
    - destruct (Bool.eqb (Task.completed t) b) eqn:Hb; simpl.
      + apply eqb_prop in Hb. split; [|tauto].
        intros H. split; [congruence | exact H].
      + split; [discriminate|]. intros (H & _).
        rewrite (H b eq_refl), eqb_reflx in Hb. discriminate.
    - split; [|tauto]. intros H. split; [discriminate | exact H]. }
  destruct (Tasks.TaskListParams.contactId params) as [cid|].
  - destruct (JS.truthy cid) eqn:Hcid; simpl.
    + destruct (String.eqb_spec (Task.contactId t) cid) as [Heq|Hne]; simpl.
      * rewrite Hcompleted. split; [|tauto].
        intros H. split; [congruence | exact H].
      * split; [discriminate|]. intros (H & _). exfalso.
        apply Hne, H; [reflexivity | now apply truthy_true].
    + rewrite Hcompleted. split; [|tauto].
      intros H. split; [|exact H].
      intros cid' [= <-] Hne. apply truthy_false in Hcid. contradiction.
  - rewrite Hcompleted. split; [|tauto].
    intros H. split; [discriminate | exact H].
Qed.

End Filtering.

(** C1, as amended.  Whenever the simulated failure does not fire (the second
    draw after loading is not below 0.05), [listContacts] and [listTasks]
    return a result; every record of [data] is a record of the loaded
    collection that passes the filter, and [total] is the number of records
    of the loaded collection that pass it.  The filter: when the search
    text is not empty, one of the entity's text fields contains it
    (both lower-cased); a [completed] filter matches exactly; a [contactId]
    filter matches exactly when it is not the empty string, and is ignored
    when it is. *)
Theorem list_data_and_total_match_filter {L : Locale} :
  (forall (w : World) (params : Contacts.ListParams.t),
      Qltb (upcoming 1 (contacts_seeded w)) (5 # 100) = false ->
      exists r w',
        Contacts.listContacts params w = (Return r, w')
        /\ (forall c, In c (Contacts.ListResult.data r) ->
                      In c (contacts_snapshot w) /\ contact_passes params c)
        /\ exists f : Contact.t -> bool,
            (forall c, f c = true <-> contact_passes params c)
            /\ Contacts.ListResult.total r
               = Z.of_nat (length (List.filter f (contacts_snapshot w))))
  /\ (forall (w : World) (params : Tasks.TaskListParams.t),
      Qltb (upcoming 1 (tasks_seeded w)) (5 # 100) = false ->
      exists r w',
        Tasks.listTasks params w = (Return r, w')
        /\ (forall t, In t (Tasks.TaskListResult.data r) ->
                      In t (tasks_snapshot w) /\ task_passes_nonempty params t)
        /\ exists f : Task.t -> bool,
            (forall t, f t = true <-> task_passes_nonempty params t)
            /\ Tasks.TaskListResult.total r
               = Z.of_nat (length (List.filter f (tasks_snapshot w)))).
Proof.
  split; intros w params Hok.
  - pose proof (listContacts_run params w) as Hrun. cbv zeta in Hrun.
    rewrite Hok in Hrun. eexists _, _. split; [exact Hrun|]. simpl. split.
    + intros c Hc. apply slice_In, sort_In, filter_In in Hc as [Hin Hm].
      split; [exact Hin | now apply contacts_matches_passes].
    + eexists. split; [|reflexivity]. intros c. apply contacts_matches_passes.
  - pose proof (listTasks_run params w) as Hrun. cbv zeta in Hrun.
    rewrite Hok in Hrun. eexists _, _. split; [exact Hrun|]. simpl. split.
    + intros t Ht. apply slice_In, sort_In, filter_In in Ht as [Hin Hm].
      split; [exact Hin | now apply tasks_matches_passes].
    + eexists. split; [|reflexivity]. intros t. apply tasks_matches_passes.
Qed.

(** C1, as stated, fails: asked for the tasks whose [contactId] is the empty
    string, [listTasks] returns a task of contact C00001. *)
Lemma list_tasks_ignores_empty_contactId :
  exists r w' t,
    Tasks.listTasks (L := ascii_locale)
      (Tasks.TaskListParams.mk (Some "") None None None None None None)
      Sample.calm = (Return r, w')
    /\ In t (Tasks.TaskListResult.data r)
    /\ ~ task_passes (L := ascii_locale)
           (Tasks.TaskListParams.mk (Some "") None None None None None None) t.
Proof.
  exists (Tasks.TaskListResult.mk [Sample.call] 1 1 50 false),
    (set_drawn 2 Sample.calm), Sample.call.
  split; [reflexivity|]. split.
  - left. reflexivity.
  - intros (H & _). specialize (H "" eq_refl). discriminate H.
Qed.

Lemma list_data_and_total_match_filter_witness :
  (exists r w',
      Contacts.listContacts (L := ascii_locale)
        (Contacts.ListParams.mk (Some "ADA") None None None None) Sample.calm
      = (Return r, w')
      /\ (forall c, In c (Contacts.ListResult.data r) ->
            In c (contacts_snapshot Sample.calm)
            /\ contact_passes (Contacts.ListParams.mk (Some "ADA") None None None None) c)
      /\ exists f : Contact.t -> bool,
          (forall c, f c = true
                     <-> contact_passes
                           (Contacts.ListParams.mk (Some "ADA") None None None None) c)
          /\ Contacts.ListResult.total r
             = Z.of_nat (length (List.filter f (contacts_snapshot Sample.calm))))
  /\ (exists r w',
      Tasks.listTasks (L := ascii_locale)
        (Tasks.TaskListParams.mk (Some "C00001") (Some "call") None None None None
                                 (Some false)) Sample.calm
      = (Return r, w')
      /\ (forall t, In t (Tasks.TaskListResult.data r) ->
            In t (tasks_snapshot Sample.calm)
            /\ task_passes_nonempty
                 (Tasks.TaskListParams.mk (Some "C00001") (Some "call") None None
                                          None None (Some false)) t)
      /\ exists f : Task.t -> bool,
          (forall t, f t = true
                     <-> task_passes_nonempty
                           (Tasks.TaskListParams.mk (Some "C00001") (Some "call") None
                                                    None None None (Some false)) t)
          /\ Tasks.TaskListResult.total r
             = Z.of_nat (length (List.filter f (tasks_snapshot Sample.calm)))).
Proof.
  split.
  - apply (proj1 (list_data_and_total_match_filter (L := ascii_locale))). reflexivity.
  - apply (proj2 (list_data_and_total_match_filter (L := ascii_locale))). reflexivity.
Defined.

(** On the sample, the search for "ADA" finds Ada, and the tasks of
    C00001 that are not completed and mention "call" are the one task. *)
Example listContacts_sample :
  fst (Contacts.listContacts (L := ascii_locale)
         (Contacts.ListParams.mk (Some "ADA") None None None None) Sample.calm)
  = Return (Contacts.ListResult.mk [Sample.ada] 1 1 50 false).
Proof. reflexivity. Qed.

Example listTasks_sample :
  fst (Tasks.listTasks (L := ascii_locale)
         (Tasks.TaskListParams.mk (Some "C00001") (Some "call") None None None None
                                  (Some false)) Sample.calm)
  = Return (Tasks.TaskListResult.mk [Sample.call] 1 1 50 false).
Proof. reflexivity. Qed.

(** ** Pagination *)

Lemma page_of_sorted {A : Type} (cmp : A -> A -> Z) (filtered : list A)
  (page pageSize : Z) :
  1 <= page -> 1 <= pageSize ->
  let start := (page - 1) * pageSize in
  let total := Z.of_nat (length filtered) in
  let data := JS.slice (JS.sort cmp filtered) start (start + pageSize) in
  Z.of_nat (length data) = Z.min pageSize (Z.max 0 (total - start))
  /\ (total <= start -> data = [] /\ (start + pageSize <? total) = false).
Proof.
  intros Hp Hs start total data.
  assert (Hlen : Z.of_nat (length data) = Z.min pageSize (Z.max 0 (total - start))).
  { subst data total. rewrite slice_page_length by nia. now rewrite sort_length. }
  split; [exact Hlen|]. intros Hbeyond. split.
  - destruct data; [reflexivity|]. simpl length in Hlen. lia.
  - apply Z.ltb_ge. lia.
Qed.

(** C2.  For a page number and a page size that are at least 1, whenever the
    simulated failure does not fire, [listContacts] and [listTasks] return
    a result with
    [data.length = min(pageSize, max(0, total - (page-1)*pageSize))] and
    [hasNext = ((page-1)*pageSize + pageSize < total)]; [total] counts the
    records that pass the filter whatever the page; and a page beyond the
    last has no data and no next page. *)
Theorem list_pagination {L : Locale} :
  (forall (w : World) (params : Contacts.ListParams.t),
      let page := default 1 (Contacts.ListParams.page params) in
      let pageSize := default 50 (Contacts.ListParams.pageSize params) in
      1 <= page -> 1 <= pageSize ->
      Qltb (upcoming 1 (contacts_seeded w)) (5 # 100) = false ->
      exists r w',
        Contacts.listContacts params w = (Return r, w')
        /\ Z.of_nat (length (Contacts.ListResult.data r))
           = Z.min pageSize
               (Z.max 0 (Contacts.ListResult.total r - (page - 1) * pageSize))
        /\ Contacts.ListResult.hasNext r
           = ((page - 1) * pageSize + pageSize <? Contacts.ListResult.total r)
        /\ (exists f : Contact.t -> bool,
              (forall c, f c = true <-> contact_passes params c)
              /\ Contacts.ListResult.total r
                 = Z.of_nat (length (List.filter f (contacts_snapshot w))))
        /\ (Contacts.ListResult.total r <= (page - 1) * pageSize ->
            Contacts.ListResult.data r = []
            /\ Contacts.ListResult.hasNext r = false))
  /\ (forall (w : World) (params : Tasks.TaskListParams.t),
      let page := default 1 (Tasks.TaskListParams.page params) in
      let pageSize := default 50 (Tasks.TaskListParams.pageSize params) in
      1 <= page -> 1 <= pageSize ->
      Qltb (upcoming 1 (tasks_seeded w)) (5 # 100) = false ->
      exists r w',
        Tasks.listTasks params w = (Return r, w')
        /\ Z.of_nat (length (Tasks.TaskListResult.data r))
           = Z.min pageSize
               (Z.max 0 (Tasks.TaskListResult.total r - (page - 1) * pageSize))
        /\ Tasks.TaskListResult.hasNext r
           = ((page - 1) * pageSize + pageSize <? Tasks.TaskListResult.total r)
        /\ (exists f : Task.t -> bool,
              (forall t, f t = true <-> task_passes_nonempty params t)
              /\ Tasks.TaskListResult.total r
                 = Z.of_nat (length (List.filter f (tasks_snapshot w))))
        /\ (Tasks.TaskListResult.total r <= (page - 1) * pageSize ->
            Tasks.TaskListResult.data r = []
            /\ Tasks.TaskListResult.hasNext r = false)).
Proof.
  split; intros w params page pageSize Hp Hs Hok.
  - pose proof (listContacts_run params w) as Hrun. cbv zeta in Hrun.
    rewrite Hok in Hrun. eexists _, _. split; [exact Hrun|]. simpl.
    match goal with
    | |- context [JS.sort ?cmp ?filtered] =>
        destruct (page_of_sorted cmp filtered page pageSize Hp Hs) as [Hlen Hbeyond]
    end.
    split; [exact Hlen|]. split; [reflexivity|]. split; [|exact Hbeyond].
    eexists. split; [|reflexivity]. intros c. apply contacts_matches_passes.
  - pose proof (listTasks_run params w) as Hrun. cbv zeta in Hrun.
    rewrite Hok in Hrun. eexists _, _. split; [exact Hrun|]. simpl.
    match goal with
    | |- context [JS.sort ?cmp ?filtered] =>
        destruct (page_of_sorted cmp filtered page pageSize Hp Hs) as [Hlen Hbeyond]
    end.
    split; [exact Hlen|]. split; [reflexivity|]. split; [|exact Hbeyond].
    eexists. split; [|reflexivity]. intros t. apply tasks_matches_passes.
Qed.

Lemma list_pagination_witness :
  (exists r w',
      Contacts.listContacts (L := ascii_locale)
        (Contacts.ListParams.mk None None None (Some 3) (Some 10)) Sample.calm
      = (Return r, w')
      /\ Z.of_nat (length (Contacts.ListResult.data r))
         = Z.min 10 (Z.max 0 (Contacts.ListResult.total r - (3 - 1) * 10))
      /\ Contacts.ListResult.hasNext r
         = ((3 - 1) * 10 + 10 <? Contacts.ListResult.total r)
      /\ (exists f : Contact.t -> bool,
            (forall c, f c = true
                       <-> contact_passes
                             (Contacts.ListParams.mk None None None (Some 3) (Some 10)) c)
            /\ Contacts.ListResult.total r
               = Z.of_nat (length (List.filter f (contacts_snapshot Sample.calm))))
      /\ (Contacts.ListResult.total r <= (3 - 1) * 10 ->
          Contacts.ListResult.data r = [] /\ Contacts.ListResult.hasNext r = false))
  /\ (exists r w',
      Tasks.listTasks (L := ascii_locale)
        (Tasks.TaskListParams.mk None None None None (Some 1) (Some 1) None) Sample.calm
      = (Return r, w')
      /\ Z.of_nat (length (Tasks.TaskListResult.data r))
         = Z.min 1 (Z.max 0 (Tasks.TaskListResult.total r - (1 - 1) * 1))
      /\ Tasks.TaskListResult.hasNext r
         = ((1 - 1) * 1 + 1 <? Tasks.TaskListResult.total r)
      /\ (exists f : Task.t -> bool,
            (forall t, f t = true
                       <-> task_passes_nonempty
                             (Tasks.TaskListParams.mk None None None None (Some 1) (Some 1)
                                                      None) t)
            /\ Tasks.TaskListResult.total r
               = Z.of_nat (length (List.filter f (tasks_snapshot Sample.calm))))
      /\ (Tasks.TaskListResult.total r <= (1 - 1) * 1 ->
          Tasks.TaskListResult.data r = [] /\ Tasks.TaskListResult.hasNext r = false)).
Proof.
  split.
  - apply (proj1 (list_pagination (L := ascii_locale)) Sample.calm
             (Contacts.ListParams.mk None None None (Some 3) (Some 10)));
      [simpl; lia | simpl; lia | reflexivity].
  - apply (proj2 (list_pagination (L := ascii_locale)) Sample.calm
             (Tasks.TaskListParams.mk None None None None (Some 1) (Some 1) None));
      [simpl; lia | simpl; lia | reflexivity].
Defined.

(** The third page of ten of a one-contact collection is empty, with the
    total still 1. *)
Example listContacts_beyond_last :
  fst (Contacts.listContacts (L := ascii_locale)
         (Contacts.ListParams.mk None None None (Some 3) (Some 10)) Sample.calm)
  = Return (Contacts.ListResult.mk [] 1 3 10 false).
Proof. reflexivity. Qed.

(** ** Sorting *)

Section Sorting.

Context {L : Locale}.

Lemma declared_cmp_antisym (av bv : JS.value) :
  Z.sgn (declared_cmp bv av) = - Z.sgn (declared_cmp av bv).
Proof.
  destruct av, bv; simpl; try apply localeCompare_antisym.
  rewrite <- Z.sgn_opp. f_equal. lia.
Qed.

Lemma respects_total (sortOrder : SortOrder) (av bv : JS.value) :
  respects sortOrder (declared_cmp av bv) \/ respects sortOrder (declared_cmp bv av).
Proof.
  pose proof (declared_cmp_antisym av bv) as H.
  destruct (Z.sgn_spec (declared_cmp av bv)) as [[? E]|[[? E]|[? E]]];
    destruct (Z.sgn_spec (declared_cmp bv av)) as [[? E']|[[? E']|[? E']]];
    rewrite E, E' in H; try discriminate H;
    destruct sortOrder; simpl; lia.
Qed.

Lemma contacts_comparator_respects (sortBy : Contact.key) (sortOrder : SortOrder)
  (a b : Contact.t) :
  Contacts.comparator sortBy sortOrder a b <= 0
  <-> respects sortOrder (declared_cmp (Contact.get a sortBy) (Contact.get b sortBy)).
Proof.
  unfold Contacts.comparator, declared_cmp. destruct sortOrder; simpl; lia.
Qed.

Lemma tasks_comparator_respects (sortBy : Task.key) (sortOrder : SortOrder)
  (a b : Task.t) :
  Tasks.comparator sortBy sortOrder a b <= 0
  <-> respects sortOrder (declared_cmp (Task.get a sortBy) (Task.get b sortBy)).
Proof.
  unfold Tasks.comparator, declared_cmp. destruct sortOrder; simpl; lia.
Qed.

Lemma adjacent_impl {A : Type} (R R' : A -> A -> Prop) (l : list A) :
  (forall a b, R a b -> R' a b) -> adjacent R l -> adjacent R' l.
Proof. intros HR Hl i a b Ha Hb. exact (HR _ _ (Hl _ _ _ Ha Hb)). Qed.

End Sorting.

(** C8.  Whenever the simulated failure does not fire, [listContacts] and
    [listTasks] return a result in which every two neighbours [a], [b] of
    [data] are in the requested order on the requested field: the
    comparison of [a[sortBy]] with [b[sortBy]] (numbers by subtraction,
    other values by the collation of their string representations) is not
    positive when ascending and, negated, not positive when descending. *)
Theorem list_data_sorted {L : Locale} :
  (forall (w : World) (params : Contacts.ListParams.t),
      let sortBy := default Contact.KlastActivityAt (Contacts.ListParams.sortBy params) in
      let sortOrder := default desc (Contacts.ListParams.sortOrder params) in
      Qltb (upcoming 1 (contacts_seeded w)) (5 # 100) = false ->
      exists r w',
        Contacts.listContacts params w = (Return r, w')
        /\ adjacent
             (fun a b => respects sortOrder
                           (declared_cmp (Contact.get a sortBy) (Contact.get b sortBy)))
             (Contacts.ListResult.data r))
  /\ (forall (w : World) (params : Tasks.TaskListParams.t),
      let sortBy := default Task.KupdatedAt (Tasks.TaskListParams.sortBy params) in
      let sortOrder := default desc (Tasks.TaskListParams.sortOrder params) in
      Qltb (upcoming 1 (tasks_seeded w)) (5 # 100) = false ->
      exists r w',
        Tasks.listTasks params w = (Return r, w')
        /\ adjacent
             (fun a b => respects sortOrder
                           (declared_cmp (Task.get a sortBy) (Task.get b sortBy)))
             (Tasks.TaskListResult.data r)).
Proof.
  split; intros w params sortBy sortOrder Hok.
  - pose proof (listContacts_run params w) as Hrun. cbv zeta in Hrun.
    rewrite Hok in Hrun. eexists _, _. split; [exact Hrun|]. simpl.
    apply slice_adjacent.
    eapply adjacent_impl; [|apply sort_adjacent].
    + intros a b. apply contacts_comparator_respects.
    + intros a b. rewrite !contacts_comparator_respects. apply respects_total.
  - pose proof (listTasks_run params w) as Hrun. cbv zeta in Hrun.
    rewrite Hok in Hrun. eexists _, _. split; [exact Hrun|]. simpl.
    apply slice_adjacent.
    eapply adjacent_impl; [|apply sort_adjacent].
    + intros a b. apply tasks_comparator_respects.
    + intros a b. rewrite !tasks_comparator_respects. apply respects_total.
Qed.

Lemma list_data_sorted_witness :
  (exists r w',
      Contacts.listContacts (L := ascii_locale)
        (Contacts.ListParams.mk None (Some Contact.KlastName) (Some asc) None None)
        Sample.busy
      = (Return r, w')
      /\ adjacent
           (fun a b => respects asc
                         (declared_cmp (Contact.get a Contact.KlastName)
                                       (Contact.get b Contact.KlastName)))
           (Contacts.ListResult.data r))
  /\ (exists r w',
      Tasks.listTasks (L := ascii_locale)
        (Tasks.TaskListParams.mk None None (Some Task.KdueDate) (Some desc) None None None)
        Sample.busy
      = (Return r, w')
      /\ adjacent
           (fun a b => respects desc
                         (declared_cmp (Task.get a Task.KdueDate)
                                       (Task.get b Task.KdueDate)))
           (Tasks.TaskListResult.data r)).
Proof.
  split.
  - apply (proj1 (list_data_sorted (L := ascii_locale)) Sample.busy
             (Contacts.ListParams.mk None (Some Contact.KlastName) (Some asc) None None)).
    reflexivity.
  - apply (proj2 (list_data_sorted (L := ascii_locale)) Sample.busy
             (Tasks.TaskListParams.mk None None (Some Task.KdueDate) (Some desc)
                                      None None None)).
    reflexivity.
Defined.

(** By due date, descending: the task without a due date first (its
    "undefined" collates after the digits), then the later date. *)
Example listTasks_by_dueDate :
  fst (Tasks.listTasks (L := ascii_locale)
         (Tasks.TaskListParams.mk None None (Some Task.KdueDate) (Some desc)
                                  None None None) Sample.busy)
  = Return (Tasks.TaskListResult.mk [Sample.call; Sample.quote; Sample.demo]
                                    3 1 50 false).
Proof. reflexivity. Qed.

(** By default, the contacts come latest activity first. *)
Example listContacts_default_order :
  fst (Contacts.listContacts (L := ascii_locale)
         (Contacts.ListParams.mk None None None None None) Sample.busy)
  = Return (Contacts.ListResult.mk [Sample.grace; Sample.ada] 2 1 50 false).
Proof. reflexivity. Qed.

(** ** Identifiers *)

Lemma Number_zero_prefix (s : string) :
  JS.Number (String "0" s) = JS.Number s.
Proof.
  unfold JS.Number. simpl. now destruct (NilEmpty.uint_of_string s).
Qed.

Lemma Number_pad_loop (k : nat) (s : string) :
  JS.Number (Contacts.pad_loop k s) = JS.Number s.
Proof.
  revert s. induction k as [|k IH]; intros s; simpl.
  - reflexivity.
  - rewrite IH. apply Number_zero_prefix.
Qed.

Lemma Number_String_of_number (n : Z) :
  0 <= n -> JS.Number (JS.String_of_number n) = Some n.
Proof.
  intros Hn. destruct n as [|p|p]; [reflexivity| |lia].
  unfold JS.Number, JS.String_of_number. simpl Z.to_int. simpl NilZero.string_of_int.
  pose proof (DecimalPos.Unsigned.of_to p) as Hp.
  assert (Hs : NilZero.string_of_uint (Pos.to_uint p)
               = NilEmpty.string_of_uint (Pos.to_uint p)).
  { destruct (Pos.to_uint p); [discriminate Hp | reflexivity..]. }
  rewrite Hs, NilEmpty.usu. unfold Z.of_uint. now rewrite Hp.
Qed.

Lemma Number_pad (n : Z) (size : nat) :
  0 <= n -> JS.Number (Contacts.pad n size) = Some n.
Proof.
  intros Hn. unfold Contacts.pad. rewrite Number_pad_loop.
  now apply Number_String_of_number.
Qed.

Lemma zeros_shift (k : nat) (s : string) :
  zeros k ++ String "0" s = String "0" (zeros k ++ s).
Proof.
  induction k as [|k IH]; simpl; [reflexivity | now rewrite IH].
Qed.

Lemma pad_loop_zeros (k : nat) (s : string) :
  Contacts.pad_loop k s = zeros k ++ s.
Proof.
  revert s. induction k as [|k IH]; intros s; simpl.
  - reflexivity.
  - rewrite IH. apply zeros_shift.
Qed.

Lemma contacts_pad_zero_padded (n : Z) (size : nat) :
  Contacts.pad n size = zero_padded size n.
Proof. apply pad_loop_zeros. Qed.

Lemma tasks_pad_zero_padded (n : Z) (size : nat) :
  Tasks.pad n size = zero_padded size n.
Proof. apply pad_loop_zeros. Qed.

Section MaxSuffix.

Context {A : Type}.

Variable f : A -> Z.

Lemma fold_left_max (l : list A) (a : Z) :
  0 <= a ->
  fold_left (fun m x => Z.max m (f x)) l a
  = Z.max a (fold_right Z.max 0 (map f l)).
Proof.
  revert a. induction l as [|x l IH]; intros a Ha; simpl.
  - lia.
  - rewrite IH by lia. lia.
Qed.

Lemma fold_left_max_from_0 (l : list A) :
  fold_left (fun m x => Z.max m (f x)) l 0 = fold_right Z.max 0 (map f l).
Proof.
  rewrite fold_left_max by lia.
  assert (H0 : 0 <= fold_right Z.max 0 (map f l)) by (induction l; simpl; lia).
  lia.
Qed.

Lemma fold_right_max_bound (l : list A) (x : A) :
  In x l -> f x <= fold_right Z.max 0 (map f l).
Proof.
  induction l as [|y l IH]; simpl; [tauto|].
  intros [->|H]; [lia | specialize (IH H); lia].
Qed.

Lemma fold_right_max_nonneg (l : list A) : 0 <= fold_right Z.max 0 (map f l).
Proof. induction l; simpl; lia. Qed.

End MaxSuffix.

Lemma nextContactId_spec (contacts : list Contact.t) :
  Contacts.nextContactId contacts
  = "C" ++ zero_padded 5 (1 + max_suffix Contacts.suffix (map Contact.id contacts)).
Proof.
  unfold Contacts.nextContactId, max_suffix.
  rewrite (fold_left_max_from_0 (fun c => Contacts.suffix (Contact.id c))).
  rewrite contacts_pad_zero_padded, map_map. f_equal. f_equal. lia.
Qed.

(** An identifier made of a one-letter prefix and the padded number [n]
    has the numeric suffix [n]. *)
Lemma suffix_of_padded (c : ascii) (n : Z) :
  0 <= n -> Contacts.suffix (String c (zero_padded 5 n)) = n.
Proof.
  intros Hn. unfold Contacts.suffix. simpl JS.slice1.
  rewrite <- contacts_pad_zero_padded, Number_pad by assumption. reflexivity.
Qed.

Lemma padded_id_fresh (c : ascii) (ids : list string) :
  ~ In (String c (zero_padded 5 (1 + max_suffix Contacts.suffix ids))) ids.
Proof.
  intros Hin.
  pose proof (fold_right_max_bound Contacts.suffix ids _ Hin) as Hle.
  pose proof (fold_right_max_nonneg Contacts.suffix ids) as H0.
  fold (max_suffix Contacts.suffix ids) in Hle, H0.
  rewrite suffix_of_padded in Hle; lia.
Qed.

(** With stored ids that are decimal and read below 2^53 - 1, the number
    of the next id is at most 2^53 - 1: the largest suffix and its
    successor are whole numbers below 2^53, which the doubles of the source
    hold exactly. *)
Lemma next_number_is_safe (ids : list string) :
  ids_decimal ids -> 1 <= 1 + max_suffix Contacts.suffix ids <= 2 ^ 53 - 1.
Proof.
  unfold max_suffix. induction 1 as [|id ids Hid _ IH]; simpl.
  - lia.
  - assert (Hlt : Contacts.suffix id < 2 ^ 53 - 1).
    { destruct id as [|c digits]; [discriminate Hid|].
      unfold decimal_id in Hid. apply andb_prop in Hid as (_ & Hlt).
      apply Z.ltb_lt in Hlt. exact Hlt. }
    lia.
Qed.

(** ** Creation *)

Section Creation.

Context {L : Locale}.

Lemma find_In_Some {A : Type} (p : A -> bool) (l : list A) (x : A) :
  In x l -> p x = true -> exists y, JS.find p l = Some y.
Proof.
  intros Hin Hp. unfold JS.find. destruct (List.find p l) as [y|] eqn:E; [eauto|].
  rewrite (find_none _ _ E x Hin) in Hp. discriminate.
Qed.

Lemma createContact_returns (input : Contacts.ContactCreateInput.t) (w : World) :
  contact_input_valid input (contacts_snapshot w) ->
  let w1 := contacts_seeded w in
  let old := contacts_snapshot w in
  let contact :=
    Contact.mk (Contacts.nextContactId old)
               (JS.trim (Contacts.ContactCreateInput.firstName input))
               (JS.trim (Contacts.ContactCreateInput.lastName input))
               (JS.trim (Contacts.ContactCreateInput.email input))
               (default "" (Contacts.ContactCreateInput.phone input))
               (default "" (Contacts.ContactCreateInput.company input))
               (default "" (Contacts.ContactCreateInput.city input))
               (default "" (Contacts.ContactCreateInput.state input))
               (default [] (Contacts.ContactCreateInput.tags input))
               (clock w1 (ticks w1)) (clock w1 (ticks w1)) in
  Contacts.createContact input w
  = (Return contact,
     set_contacts_json (Some (contact :: old))
       (set_CONTACTS_CACHE (Some (contact :: old)) (set_ticks (S (ticks w1)) w1))).
Proof.
  intros (Hf & Hl & He & Hfresh). cbv zeta.
  pose proof (createContact_run input w) as Hrun. cbv zeta in Hrun. rewrite Hrun.
  apply truthy_true in Hf, Hl, He. rewrite Hf, Hl, He. simpl.
  destruct (existsb _ _) eqn:E; [|reflexivity].
  apply existsb_exists in E as (c & Hin & Heq). apply String.eqb_eq in Heq.
  now destruct (Hfresh c Hin).
Qed.

Lemma createTask_returns (input : Tasks.TaskCreateInput.t) (w : World) :
  task_input_valid input (contacts_snapshot (tasks_seeded w)) ->
  createTask_undisturbed w ->
  let wc := tasks_prepared w in
  let old := tasks_snapshot w in
  let maxNum := fold_left (fun m t => Z.max m (Tasks.suffix (Task.id t))) old 0 + 1 in
  let task :=
    Task.mk ("T" ++ Tasks.pad maxNum 5) (Tasks.TaskCreateInput.contactId input)
            (JS.trim (Tasks.TaskCreateInput.title input))
            (Tasks.TaskCreateInput.notes input) (Tasks.TaskCreateInput.dueDate input)
            false (default Task.medium (Tasks.TaskCreateInput.priority input))
            (clock wc (ticks wc)) (clock wc (ticks wc)) in
  Tasks.createTask input w
  = (Return task,
     set_tasks_json (Some (old ++ [task])%list)
       (set_TASKS_CACHE (Some (old ++ [task])%list)
          (set_ticks (S (ticks wc)) (set_drawn (4 + drawn wc) wc)))).
Proof.
  intros ((c & Hin & Hid) & Hlen) (Hget & Hput). cbv zeta.
  pose proof (createTask_run input w) as Hrun. cbv zeta in Hrun. rewrite Hrun.
  rewrite Hget, Hput.
  destruct (find_In_Some (fun x => String.eqb (Contact.id x)
                                     (Tasks.TaskCreateInput.contactId input))
              _ c Hin) as (y & ->).
  { now apply String.eqb_eq. }
  destruct (JS.trim (Tasks.TaskCreateInput.title input)) as [|a s] eqn:Ht.
  { simpl in Hlen. lia. }
  cbn [JS.truthy negb].
  destruct (Z.ltb_spec 120 (Z.of_nat (String.length (String a s)))); [lia|].
  reflexivity.
Qed.

Lemma next_task_id (old : list Task.t) :
  "T" ++ Tasks.pad (fold_left (fun m t => Z.max m (Tasks.suffix (Task.id t))) old 0 + 1) 5
  = "T" ++ zero_padded 5 (1 + max_suffix Tasks.suffix (map Task.id old)).
Proof.
  unfold max_suffix.
  rewrite (fold_left_max_from_0 (fun t => Tasks.suffix (Task.id t))).
  rewrite tasks_pad_zero_padded, map_map. f_equal. f_equal. lia.
Qed.

Lemma nextContactId_fresh (old : list Contact.t) (c : Contact.t) :
  In c old -> Contact.id c <> Contacts.nextContactId old.
Proof.
  intros Hin Heq. rewrite nextContactId_spec in Heq.
  apply (padded_id_fresh "C" (map Contact.id old)).
  change (String "C" ?s) with ("C" ++ s). rewrite <- Heq. now apply in_map.
Qed.

Lemma next_task_id_fresh (old : list Task.t) (t : Task.t) :
  In t old ->
  Task.id t
  <> "T" ++ Tasks.pad
              (fold_left (fun m t => Z.max m (Tasks.suffix (Task.id t))) old 0 + 1) 5.
Proof.
  intros Hin Heq. rewrite next_task_id in Heq.
  apply (padded_id_fresh "T" (map Task.id old)).
  change (String "T" ?s) with ("T" ++ s).
  change Contacts.suffix with Tasks.suffix. rewrite <- Heq. now apply in_map.
Qed.

End Creation.

(** C7.  For every valid input and every state of the collection whose
    ids are a letter followed by decimal digits that read below 2^53 - 1,
    [createContact] and [createTask] (when no simulated failure fires)
    return a record whose id is the prefix, "C" or "T", followed by the
    zero-padded decimal of 1 + the largest numeric suffix among the records
    of the collection (0 for an empty collection, which makes the id
    number 1), and no record of the collection has that id. *)
Theorem created_id_is_next_and_fresh {L : Locale} :
  (forall (w : World) (input : Contacts.ContactCreateInput.t),
      ids_decimal (map Contact.id (contacts_snapshot w)) ->
      contact_input_valid input (contacts_snapshot w) ->
      exists c w',
        Contacts.createContact input w = (Return c, w')
        /\ Contact.id c
           = "C" ++ zero_padded 5
                      (1 + max_suffix Contacts.suffix
                             (map Contact.id (contacts_snapshot w)))
        /\ (forall c', In c' (contacts_snapshot w) -> Contact.id c' <> Contact.id c)
        /\ (contacts_snapshot w = [] -> Contact.id c = "C00001"))
  /\ (forall (w : World) (input : Tasks.TaskCreateInput.t),
      ids_decimal (map Task.id (tasks_snapshot w)) ->
      task_input_valid input (contacts_snapshot (tasks_seeded w)) ->
      createTask_undisturbed w ->
      exists t w',
        Tasks.createTask input w = (Return t, w')
        /\ Task.id t
           = "T" ++ zero_padded 5
                      (1 + max_suffix Tasks.suffix (map Task.id (tasks_snapshot w)))
        /\ (forall t', In t' (tasks_snapshot w) -> Task.id t' <> Task.id t)
        /\ (tasks_snapshot w = [] -> Task.id t = "T00001")).
Proof.
  split.
  - intros w input _ Hvalid.
    pose proof (createContact_returns input w Hvalid) as Hrun. cbv zeta in Hrun.
    eexists _, _. split; [exact Hrun|]. cbn [Contact.id].
    split; [apply nextContactId_spec|]. split.
    + intros c' Hin. now apply nextContactId_fresh.
    + intros ->. reflexivity.
  - intros w input _ Hvalid Hok.
    pose proof (createTask_returns input w Hvalid Hok) as Hrun. cbv zeta in Hrun.
    eexists _, _. split; [exact Hrun|]. cbn [Task.id].
    split; [apply next_task_id|]. split.
    + intros t' Hin. now apply next_task_id_fresh.
    + intros ->. reflexivity.
Qed.

Lemma sample_contact_ids_decimal :
  ids_decimal (map Contact.id (contacts_snapshot (L := ascii_locale) Sample.calm)).
Proof. repeat constructor. Qed.

Lemma sample_task_ids_decimal : ids_decimal (map Task.id (tasks_snapshot Sample.calm)).
Proof. repeat constructor. Qed.

Lemma sample_contact_input_valid :
  contact_input_valid (L := ascii_locale)
    (Contacts.ContactCreateInput.mk " Grace" "Hopper " "grace@y.org" None None None
                                    None None)
    (contacts_snapshot (L := ascii_locale) Sample.calm).
Proof.
  repeat split; try discriminate.
  intros c [<-|[]]. discriminate.
Qed.

Lemma sample_task_input_valid :
  task_input_valid (Tasks.TaskCreateInput.mk "C00001" " Send quote " None None None)
    (contacts_snapshot (L := ascii_locale) (tasks_seeded Sample.calm)).
Proof.
  split.
  - exists Sample.ada. split; [now left | reflexivity].
  - vm_compute. split; apply Nat.leb_le; reflexivity.
Qed.

Lemma sample_createTask_undisturbed :
  createTask_undisturbed (L := ascii_locale) Sample.calm.
Proof. split; reflexivity. Qed.

Lemma created_id_is_next_and_fresh_witness :
  (exists c w',
      Contacts.createContact (L := ascii_locale)
        (Contacts.ContactCreateInput.mk " Grace" "Hopper " "grace@y.org" None None None
                                        None None) Sample.calm
      = (Return c, w')
      /\ Contact.id c
         = "C" ++ zero_padded 5
                    (1 + max_suffix Contacts.suffix
                           (map Contact.id (contacts_snapshot (L := ascii_locale)
                                              Sample.calm)))
      /\ (forall c', In c' (contacts_snapshot (L := ascii_locale) Sample.calm) ->
                     Contact.id c' <> Contact.id c)
      /\ (contacts_snapshot (L := ascii_locale) Sample.calm = [] ->
          Contact.id c = "C00001"))
  /\ (exists t w',
      Tasks.createTask (L := ascii_locale)
        (Tasks.TaskCreateInput.mk "C00001" " Send quote " None None None) Sample.calm
      = (Return t, w')
      /\ Task.id t
         = "T" ++ zero_padded 5
                    (1 + max_suffix Tasks.suffix (map Task.id (tasks_snapshot Sample.calm)))
      /\ (forall t', In t' (tasks_snapshot Sample.calm) -> Task.id t' <> Task.id t)
      /\ (tasks_snapshot Sample.calm = [] -> Task.id t = "T00001")).
Proof.
  split.
  - apply (proj1 (created_id_is_next_and_fresh (L := ascii_locale))).
    + exact sample_contact_ids_decimal.
    + exact sample_contact_input_valid.
  - apply (proj2 (created_id_is_next_and_fresh (L := ascii_locale))).
    + exact sample_task_ids_decimal.
    + exact sample_task_input_valid.
    + exact sample_createTask_undisturbed.
Defined.

(** The second contact of the sample is C00002 and the second task T00002;
    in an emptied collection the numbering starts again at 1. *)
Example createContact_sample_id :
  match fst (Contacts.createContact (L := ascii_locale)
               (Contacts.ContactCreateInput.mk " Grace" "Hopper " "grace@y.org" None
                                               None None None None) Sample.calm) with
  | Return c => Contact.id c
  | Throw m => m
  end = "C00002".
Proof. reflexivity. Qed.

Example createTask_sample_id :
  match fst (Tasks.createTask (L := ascii_locale)
               (Tasks.TaskCreateInput.mk "C00001" " Send quote " None None None)
               Sample.calm) with
  | Return t => Task.id t
  | Throw m => m
  end = "T00002".
Proof. reflexivity. Qed.

Example createTask_restarts_at_1 :
  match fst (Tasks.createTask (L := ascii_locale)
               (Tasks.TaskCreateInput.mk "C00001" "Call" None None None)
               (set_TASKS_CACHE (Some []) Sample.calm)) with
  | Return t => Task.id t
  | Throw m => m
  end = "T00001".
Proof. reflexivity. Qed.

(** C5, as amended.  For every valid input (and, for [createTask], when no
    simulated failure fires) creation returns a record with the trimmed
    fields of the input, an id no stored record has (the stored ids being
    a letter followed by decimal digits that read below 2^53 - 1), and both
    timestamps equal to the clock reading of the call, and persists the
    whole collection; an input with a required field missing is refused with a
    ValidationError and nothing is stored.  [createTask] appends the new
    task at the end of the collection; [createContact] puts the new contact
    at the front.  In both, the records stored before keep their order. *)
Theorem created_record_is_stored {L : Locale} :
  (forall (w : World) (input : Contacts.ContactCreateInput.t),
      contact_input_valid input (contacts_snapshot w) ->
      exists c w',
        Contacts.createContact input w = (Return c, w')
        /\ Contact.firstName c = JS.trim (Contacts.ContactCreateInput.firstName input)
        /\ Contact.lastName c = JS.trim (Contacts.ContactCreateInput.lastName input)
        /\ Contact.email c = JS.trim (Contacts.ContactCreateInput.email input)
        /\ (ids_decimal (map Contact.id (contacts_snapshot w)) ->
            forall c', In c' (contacts_snapshot w) -> Contact.id c' <> Contact.id c)
        /\ Contact.createdAt c = clock (contacts_seeded w) (ticks (contacts_seeded w))
        /\ Contact.lastActivityAt c = Contact.createdAt c
        /\ CONTACTS_CACHE w' = Some (c :: contacts_snapshot w)
        /\ contacts_json w' = Some (c :: contacts_snapshot w))
  /\ (forall (w : World) (input : Contacts.ContactCreateInput.t),
      JS.trim (Contacts.ContactCreateInput.firstName input) = ""
      \/ JS.trim (Contacts.ContactCreateInput.lastName input) = ""
      \/ JS.trim (Contacts.ContactCreateInput.email input) = "" ->
      Contacts.createContact input w
      = (Throw "ValidationError: firstName, lastName, email required",
         contacts_seeded w))
  /\ (forall (w : World) (input : Tasks.TaskCreateInput.t),
      task_input_valid input (contacts_snapshot (tasks_seeded w)) ->
      createTask_undisturbed w ->
      exists t w',
        Tasks.createTask input w = (Return t, w')
        /\ Task.contactId t = Tasks.TaskCreateInput.contactId input
        /\ Task.title t = JS.trim (Tasks.TaskCreateInput.title input)
        /\ Task.completed t = false
        /\ (ids_decimal (map Task.id (tasks_snapshot w)) ->
            forall t', In t' (tasks_snapshot w) -> Task.id t' <> Task.id t)
        /\ Task.createdAt t = clock (tasks_prepared w) (ticks (tasks_prepared w))
        /\ Task.updatedAt t = Task.createdAt t
        /\ TASKS_CACHE w' = Some (tasks_snapshot w ++ [t])%list
        /\ tasks_json w' = Some (tasks_snapshot w ++ [t])%list)
  /\ (forall (w : World) (input : Tasks.TaskCreateInput.t),
      (exists c, In c (contacts_snapshot (tasks_seeded w))
                 /\ Contact.id c = Tasks.TaskCreateInput.contactId input) ->
      Qltb (upcoming 1 (tasks_prepared w)) (5 # 100) = false ->
      JS.trim (Tasks.TaskCreateInput.title input) = ""
      \/ (120 < String.length (JS.trim (Tasks.TaskCreateInput.title input)))%nat ->
      exists m w',
        Tasks.createTask input w = (Throw m, w')
        /\ isValidationError m = true
        /\ TASKS_CACHE w' = Some (tasks_snapshot w)
        /\ tasks_json w' = tasks_json (tasks_seeded w)).
Proof.
  split; [|split; [|split]].
  - intros w input Hvalid.
    pose proof (createContact_returns input w Hvalid) as Hrun. cbv zeta in Hrun.
    eexists _, _. split; [exact Hrun|]. simpl.
    repeat split. intros _ c' Hin. now apply nextContactId_fresh.
  - intros w input Hmissing.
    pose proof (createContact_run input w) as Hrun. cbv zeta in Hrun. rewrite Hrun.
    destruct Hmissing as [->|[->| ->]]; simpl; rewrite ?orb_true_r; reflexivity.
  - intros w input Hvalid Hok.
    pose proof (createTask_returns input w Hvalid Hok) as Hrun. cbv zeta in Hrun.
    eexists _, _. split; [exact Hrun|]. simpl.
    repeat split. intros _ t' Hin. now apply next_task_id_fresh.
  - intros w input (c & Hin & Hid) Hget Htitle.
    pose proof (createTask_run input w) as Hrun. cbv zeta in Hrun. rewrite Hrun.
    rewrite Hget.
    destruct (find_In_Some (fun x => String.eqb (Contact.id x)
                                       (Tasks.TaskCreateInput.contactId input))
                _ c Hin) as (y & ->).
    { now apply String.eqb_eq. }
    destruct (contacts_seeded_frame (tasks_seeded w)) as (_ & Hjson & _).
    assert (Hframe : forall n,
      TASKS_CACHE (set_drawn n (tasks_prepared w)) = Some (tasks_snapshot w)
      /\ tasks_json (set_drawn n (tasks_prepared w)) = tasks_json (tasks_seeded w)).
    { intros n. simpl_world. split; [apply tasks_prepared_cache | exact Hjson]. }
    destruct Htitle as [Hempty|Hlong].
    + rewrite Hempty. cbn [JS.truthy negb].
      eexists _, _. split; [reflexivity|]. split; [reflexivity | apply Hframe].
    + destruct (JS.truthy _); cbn [negb].
      * destruct (Z.ltb_spec 120
                   (Z.of_nat (String.length (JS.trim (Tasks.TaskCreateInput.title input)))));
          [|lia].
        eexists _, _. split; [reflexivity|]. split; [reflexivity | apply Hframe].
      * eexists _, _. split; [reflexivity|]. split; [reflexivity | apply Hframe].
Qed.

(** C5, as stated, fails for [createContact]: the new contact is first in
    the collection, not last. *)
Lemma createContact_puts_new_contact_first :
  exists c w',
    Contacts.createContact (L := ascii_locale)
      (Contacts.ContactCreateInput.mk " Grace" "Hopper " "grace@y.org" None None None
                                      None None) Sample.calm
    = (Return c, w')
    /\ CONTACTS_CACHE w' = Some [c; Sample.ada]
    /\ CONTACTS_CACHE w' <> Some ([Sample.ada] ++ [c])%list.
Proof.
  set (c := Contact.mk "C00002" "Grace" "Hopper" "grace@y.org" "" "" "" "" [] 5000 5000).
  exists c, (set_contacts_json (Some [c; Sample.ada])
               (set_CONTACTS_CACHE (Some [c; Sample.ada]) (set_ticks 1 Sample.calm))).
  split; [reflexivity|]. split; [reflexivity|].
  simpl. intros [=].
Qed.

Lemma created_record_is_stored_witness :
  (exists c w',
      Contacts.createContact (L := ascii_locale)
        (Contacts.ContactCreateInput.mk " Grace" "Hopper " "grace@y.org" None None None
                                        None None) Sample.calm
      = (Return c, w')
      /\ Contact.firstName c = "Grace"
      /\ (forall c', In c' (contacts_snapshot (L := ascii_locale) Sample.calm) ->
                     Contact.id c' <> Contact.id c)
      /\ CONTACTS_CACHE w' = Some [c; Sample.ada]
      /\ contacts_json w' = Some [c; Sample.ada])
  /\ Contacts.createContact (L := ascii_locale)
       (Contacts.ContactCreateInput.mk "  " "Hopper" "grace@y.org" None None None
                                       None None) Sample.calm
     = (Throw "ValidationError: firstName, lastName, email required", Sample.calm)
  /\ (exists t w',
      Tasks.createTask (L := ascii_locale)
        (Tasks.TaskCreateInput.mk "C00001" " Send quote " None None None) Sample.calm
      = (Return t, w')
      /\ Task.title t = "Send quote"
      /\ (forall t', In t' (tasks_snapshot Sample.calm) -> Task.id t' <> Task.id t)
      /\ TASKS_CACHE w' = Some [Sample.call; t]
      /\ tasks_json w' = Some [Sample.call; t])
  /\ (exists m w',
      Tasks.createTask (L := ascii_locale)
        (Tasks.TaskCreateInput.mk "C00001" "   " None None None) Sample.calm
      = (Throw m, w')
      /\ isValidationError m = true
      /\ TASKS_CACHE w' = Some [Sample.call]
      /\ tasks_json w' = Some [Sample.call]).
Proof.
  pose proof (created_record_is_stored (L := ascii_locale)) as (H1 & H2 & H3 & H4).
  split; [|split; [|split]].
  - destruct (H1 Sample.calm _ sample_contact_input_valid)
      as (c & w' & Hrun & Hf & _ & _ & Hfresh & _ & _ & Hcache & Hjson).
    exists c, w'. repeat split; try assumption.
    exact (Hfresh sample_contact_ids_decimal).
  - apply (H2 Sample.calm
             (Contacts.ContactCreateInput.mk "  " "Hopper" "grace@y.org" None None None
                                             None None)).
    left. reflexivity.
  - destruct (H3 Sample.calm _ sample_task_input_valid sample_createTask_undisturbed)
      as (t & w' & Hrun & _ & Ht & _ & Hfresh & _ & _ & Hcache & Hjson).
    exists t, w'. repeat split; try assumption.
    exact (Hfresh sample_task_ids_decimal).
  - apply (H4 Sample.calm (Tasks.TaskCreateInput.mk "C00001" "   " None None None)).
    + exists Sample.ada. split; [now left | reflexivity].
    + reflexivity.
    + left. reflexivity.
Defined.

(** ** Update *)

(** C6.  For every stored task ([prev], the first task with the id),
    whenever the simulated failure does not fire, [updateTask] returns a
    task with the id, contact and creation time of [prev] and [updatedAt]
    set to the clock reading of the call; each field given in the update
    replaces the stored one and each field not given keeps the stored value;
    a given title is stored trimmed, and one that is empty once trimmed
    leaves the stored title, with no error.  With only [completed: true]
    given, the result is [prev] with [completed] true and [updatedAt]
    refreshed. *)
Theorem updateTask_replaces_given_fields
  (w : World) (id : string) (updates : Tasks.TaskUpdateInput.t) (prev : Task.t) :
  Qltb (upcoming 1 (tasks_seeded w)) (12 # 100) = false ->
  JS.find (fun t => String.eqb (Task.id t) id) (tasks_snapshot w) = Some prev ->
  exists next w',
    Tasks.updateTask id updates w = (Return next, w')
    /\ Task.id next = Task.id prev
    /\ Task.contactId next = Task.contactId prev
    /\ Task.createdAt next = Task.createdAt prev
    /\ Task.updatedAt next = clock (tasks_seeded w) (ticks (tasks_seeded w))
    /\ (forall s, Tasks.TaskUpdateInput.title updates = Some s ->
                  (JS.trim s <> "" -> Task.title next = JS.trim s)
                  /\ (JS.trim s = "" -> Task.title next = Task.title prev))
    /\ (Tasks.TaskUpdateInput.title updates = None -> Task.title next = Task.title prev)
    /\ Task.notes next
       = match Tasks.TaskUpdateInput.notes updates with
         | Some s => Some s
         | None => Task.notes prev
         end
    /\ Task.dueDate next
       = match Tasks.TaskUpdateInput.dueDate updates with
         | Some d => Some d
         | None => Task.dueDate prev
         end
    /\ Task.completed next
       = default (Task.completed prev) (Tasks.TaskUpdateInput.completed updates)
    /\ Task.priority next
       = default (Task.priority prev) (Tasks.TaskUpdateInput.priority updates)
    /\ (updates = Tasks.TaskUpdateInput.mk None None None (Some true) None ->
        next = Task.mk (Task.id prev) (Task.contactId prev) (Task.title prev)
                       (Task.notes prev) (Task.dueDate prev) true (Task.priority prev)
                       (Task.createdAt prev)
                       (clock (tasks_seeded w) (ticks (tasks_seeded w))))
    /\ In next (default [] (TASKS_CACHE w'))
    /\ tasks_json w' = TASKS_CACHE w'.
Proof.
  intros Hok Hfind.
  pose proof (updateTask_run id updates w) as Hrun. cbv zeta in Hrun.
  rewrite Hok, Hfind in Hrun.
  destruct (find_findIndex _ _ _ Hfind) as (idx & Hidx & Hlookup).
  rewrite Hidx in Hrun.
  eexists _, _. split; [exact Hrun|]. simpl_world. unfold Tasks.merge. cbn [Task.id
    Task.contactId Task.title Task.notes Task.dueDate Task.completed Task.priority
    Task.createdAt Task.updatedAt].
  do 4 (split; [reflexivity|]).
  split.
  { intros s ->. split; intros Hs.
    - apply truthy_true in Hs. now rewrite Hs.
    - now rewrite Hs. }
  split; [now intros ->|].
  do 2 (split; [reflexivity|]).
  split; [now destruct (Tasks.TaskUpdateInput.completed updates)|].
  split; [now destruct (Tasks.TaskUpdateInput.priority updates)|].
  split; [now intros ->|].
  split; [|reflexivity].
  cbn [default]. apply list_elem_of_In.
  apply list_elem_of_lookup. exists idx.
  apply list_lookup_insert_eq. now apply lookup_lt_Some in Hlookup.
Qed.

Lemma updateTask_replaces_given_fields_witness :
  exists next w',
    Tasks.updateTask "T00001" (Tasks.TaskUpdateInput.mk None None None (Some true) None)
                     Sample.calm
    = (Return next, w')
    /\ next = Task.mk "T00001" "C00001" "Call" None None true Task.medium 2000 5000.
Proof.
  destruct (updateTask_replaces_given_fields Sample.calm "T00001"
              (Tasks.TaskUpdateInput.mk None None None (Some true) None) Sample.call
              eq_refl eq_refl)
    as (next & w' & Hrun & _ & _ & _ & _ & _ & _ & _ & _ & _ & _ & Hnext & _).
  exists next, w'. split; [exact Hrun | exact (Hnext eq_refl)].
Defined.

(** A title of spaces keeps the stored title; a title with spaces around it
    is stored without them. *)
Example updateTask_blank_title :
  match fst (Tasks.updateTask "T00001"
               (Tasks.TaskUpdateInput.mk (Some "   ") None None None (Some Task.high))
               Sample.calm) with
  | Return next => Some (Task.title next, Task.priority next)
  | Throw _ => None
  end = Some ("Call", Task.high).
Proof. reflexivity. Qed.

Example updateTask_trims_title :
  match fst (Tasks.updateTask "T00001"
               (Tasks.TaskUpdateInput.mk (Some " Call back ") None None None None)
               Sample.calm) with
  | Return next => Some (Task.title next)
  | Throw _ => None
  end = Some "Call back".
Proof. reflexivity. Qed.

(** ** Failures *)

Section Failures.

Context {L : Locale}.

(** The messages [createTask] can throw. *)
Lemma createTask_throws (input : Tasks.TaskCreateInput.t) (w : World) (m : string)
  (w' : World) :
  Tasks.createTask input w = (Throw m, w') ->
  (m = "ValidationError: contact does not exist"
   \/ m = "ValidationError: title required"
   \/ m = "ValidationError: title too long"
   \/ m = "TransientError: simulate mutation failure")
  /\ exists n, w' = set_drawn n (tasks_prepared w).
Proof.
  pose proof (createTask_run input w) as Hrun. cbv zeta in Hrun. rewrite Hrun.
  destruct (Qltb (upcoming 1 _) _); [intros [= <- <-]; eauto 6|].
  destruct (JS.find _ _); [|intros [= <- <-]; eauto 6].
  destruct (negb _); [intros [= <- <-]; eauto 6|].
  destruct (120 <? _); [intros [= <- <-]; eauto 6|].
  destruct (Qltb (upcoming 3 _) _); [intros [= <- <-]; eauto 7|].
  discriminate.
Qed.

(** A call that throws has left the tasks, in memory and on disk, as they
    were once loaded. *)
Lemma createTask_throw_frame (input : Tasks.TaskCreateInput.t) (w : World)
  (m : string) (w' : World) :
  Tasks.createTask input w = (Throw m, w') ->
  TASKS_CACHE w' = TASKS_CACHE (tasks_seeded w)
  /\ tasks_json w' = tasks_json (tasks_seeded w).
Proof.
  intros H. apply createTask_throws in H as (_ & n & ->).
  change (TASKS_CACHE (set_drawn n (tasks_prepared w)))
    with (TASKS_CACHE (tasks_prepared w)).
  change (tasks_json (set_drawn n (tasks_prepared w)))
    with (tasks_json (tasks_prepared w)).
  rewrite tasks_prepared_cache, tasks_seeded_cache.
  split; [reflexivity|]. unfold tasks_prepared.
  destruct (contacts_seeded_frame (tasks_seeded w)) as (_ & Hjson & _). exact Hjson.
Qed.

End Failures.

Lemma updateTask_throw_frame (id : string) (updates : Tasks.TaskUpdateInput.t)
  (w : World) (m : string) (w' : World) :
  Tasks.updateTask id updates w = (Throw m, w') ->
  TASKS_CACHE w' = TASKS_CACHE (tasks_seeded w)
  /\ tasks_json w' = tasks_json (tasks_seeded w).
Proof.
  pose proof (updateTask_run id updates w) as Hrun. cbv zeta in Hrun. rewrite Hrun.
  destruct (Qltb _ _); [intros [= <- <-]; split; reflexivity|].
  destruct (JS.find _ _); [destruct (JS.findIndex _ _)|];
    intros [= <- <-]; split; reflexivity.
Qed.

Lemma deleteTask_throw_frame (id : string) (w : World) (m : string) (w' : World) :
  Tasks.deleteTask id w = (Throw m, w') ->
  TASKS_CACHE w' = TASKS_CACHE (tasks_seeded w)
  /\ tasks_json w' = tasks_json (tasks_seeded w).
Proof.
  pose proof (deleteTask_run id w) as Hrun. cbv zeta in Hrun. rewrite Hrun.
  destruct (Qltb _ _); [intros [= <- <-]; split; reflexivity|].
  destruct (JS.findIndex _ _); intros [= <- <-]; split; reflexivity.
Qed.

(** C4, as amended.  In [createTask], [updateTask] and [deleteTask] the
    simulated failure is injected before the operation is attempted: a draw
    below 0.12 makes [updateTask] and [deleteTask] (and [createTask], once
    its input is accepted) raise a TransientError, and a call that raises a
    TransientError leaves the tasks in memory and on disk as they were once
    loaded, so a failed write has not been applied. *)
Theorem transient_failure_precedes_mutation {L : Locale} :
  (forall (input : Tasks.TaskCreateInput.t) (w : World) (m : string) (w' : World),
      Tasks.createTask input w = (Throw m, w') ->
      isTransientError m = true ->
      TASKS_CACHE w' = TASKS_CACHE (tasks_seeded w)
      /\ tasks_json w' = tasks_json (tasks_seeded w))
  /\ (forall (id : string) (updates : Tasks.TaskUpdateInput.t) (w : World) (m : string)
             (w' : World),
      Tasks.updateTask id updates w = (Throw m, w') ->
      isTransientError m = true ->
      TASKS_CACHE w' = TASKS_CACHE (tasks_seeded w)
      /\ tasks_json w' = tasks_json (tasks_seeded w))
  /\ (forall (id : string) (w : World) (m : string) (w' : World),
      Tasks.deleteTask id w = (Throw m, w') ->
      isTransientError m = true ->
      TASKS_CACHE w' = TASKS_CACHE (tasks_seeded w)
      /\ tasks_json w' = tasks_json (tasks_seeded w))
  /\ (forall (input : Tasks.TaskCreateInput.t) (w : World),
      task_input_valid input (contacts_snapshot (tasks_seeded w)) ->
      Qltb (upcoming 1 (tasks_prepared w)) (5 # 100) = false ->
      Qltb (upcoming 3 (tasks_prepared w)) (12 # 100) = true ->
      fst (Tasks.createTask input w) = Throw "TransientError: simulate mutation failure")
  /\ (forall (id : string) (updates : Tasks.TaskUpdateInput.t) (w : World),
      Qltb (upcoming 1 (tasks_seeded w)) (12 # 100) = true ->
      fst (Tasks.updateTask id updates w)
      = Throw "TransientError: simulate mutation failure")
  /\ (forall (id : string) (w : World),
      Qltb (upcoming 1 (tasks_seeded w)) (12 # 100) = true ->
      fst (Tasks.deleteTask id w) = Throw "TransientError: simulate mutation failure").
Proof.
  split; [|split; [|split; [|split; [|split]]]].
  - intros input w m w' H _. exact (createTask_throw_frame input w m w' H).
  - intros id updates w m w' H _. exact (updateTask_throw_frame id updates w m w' H).
  - intros id w m w' H _. exact (deleteTask_throw_frame id w m w' H).
  - intros input w ((c & Hin & Hid) & Hlen) Hget Hput.
    pose proof (createTask_run input w) as Hrun. cbv zeta in Hrun. rewrite Hrun.
    rewrite Hget, Hput.
    destruct (find_In_Some (fun x => String.eqb (Contact.id x)
                                       (Tasks.TaskCreateInput.contactId input))
                _ c Hin) as (y & ->).
    { now apply String.eqb_eq. }
    destruct (JS.trim (Tasks.TaskCreateInput.title input)) as [|a s] eqn:Ht.
    { simpl in Hlen. lia. }
    cbn [JS.truthy negb].
    destruct (Z.ltb_spec 120 (Z.of_nat (String.length (String a s)))); [lia|].
    reflexivity.
  - intros id updates w H.
    pose proof (updateTask_run id updates w) as Hrun. cbv zeta in Hrun.
    now rewrite Hrun, H.
  - intros id w H.
    pose proof (deleteTask_run id w) as Hrun. cbv zeta in Hrun.
    now rewrite Hrun, H.
Qed.

(** C4, as stated, fails: no call of the three that raises a TransientError
    has changed the tasks in memory or on disk. *)
Lemma no_mutation_behind_a_transient_failure :
  ~ (exists (L : Locale) (w : World) (m : string) (w' : World),
        ((exists input, Tasks.createTask input w = (Throw m, w'))
         \/ (exists id updates, Tasks.updateTask id updates w = (Throw m, w'))
         \/ (exists id, Tasks.deleteTask id w = (Throw m, w')))
        /\ isTransientError m = true
        /\ (TASKS_CACHE w' <> TASKS_CACHE (tasks_seeded w)
            \/ tasks_json w' <> tasks_json (tasks_seeded w))).
Proof.
  intros (L & w & m & w' & Hcall & _ & Hchanged).
  assert (Hframe : TASKS_CACHE w' = TASKS_CACHE (tasks_seeded w)
                   /\ tasks_json w' = tasks_json (tasks_seeded w)).
  { destruct Hcall as [(input & H)|[(id & updates & H)|(id & H)]].
    - exact (createTask_throw_frame input w m w' H).
    - exact (updateTask_throw_frame id updates w m w' H).
    - exact (deleteTask_throw_frame id w m w' H). }
  destruct Hframe as (Hc & Hj). destruct Hchanged as [H|H]; contradiction.
Qed.

Lemma transient_failure_precedes_mutation_witness :
  (TASKS_CACHE (set_drawn 4 Sample.flaky) = TASKS_CACHE (tasks_seeded Sample.flaky)
   /\ tasks_json (set_drawn 4 Sample.flaky) = tasks_json (tasks_seeded Sample.flaky))
  /\ (TASKS_CACHE (set_drawn 2 Sample.stormy) = TASKS_CACHE (tasks_seeded Sample.stormy)
      /\ tasks_json (set_drawn 2 Sample.stormy) = tasks_json (tasks_seeded Sample.stormy))
  /\ fst (Tasks.createTask (L := ascii_locale)
            (Tasks.TaskCreateInput.mk "C00001" "Send quote" None None None) Sample.flaky)
     = Throw "TransientError: simulate mutation failure"
  /\ fst (Tasks.deleteTask "T00001" Sample.stormy)
     = Throw "TransientError: simulate mutation failure".
Proof.
  pose proof (transient_failure_precedes_mutation (L := ascii_locale))
    as (Hcreate & Hupdate & Hdelete & Hc & Hu & Hd).
  split; [|split; [|split]].
  - apply (Hcreate (Tasks.TaskCreateInput.mk "C00001" "Send quote" None None None)
             Sample.flaky "TransientError: simulate mutation failure");
      reflexivity.
  - apply (Hupdate "T00001" (Tasks.TaskUpdateInput.mk None None None (Some true) None)
             Sample.stormy "TransientError: simulate mutation failure");
      reflexivity.
  - apply Hc.
    + split.
      * exists Sample.ada. split; [now left | reflexivity].
      * vm_compute. split; apply Nat.leb_le; reflexivity.
    + reflexivity.
    + reflexivity.
  - apply Hd. reflexivity.
Defined.

(** C10.  [createTask] never raises a NotFoundError; whatever [getContact]
    throws, [createTask] throws "ValidationError: contact does not exist"
    in its place; and there is a run in which the contact exists, the title
    is valid and [createTask] still throws that error, the tasks left as
    they were: the run where the simulated failure of [getContact] fires. *)
Theorem createTask_contact_check {L : Locale} :
  (forall (input : Tasks.TaskCreateInput.t) (w : World) (m : string) (w' : World),
      Tasks.createTask input w = (Throw m, w') -> isNotFoundError m = false)
  /\ (forall (input : Tasks.TaskCreateInput.t) (w : World) (m : string) (w1 : World),
      Contacts.getContact (Tasks.TaskCreateInput.contactId input) (tasks_seeded w)
      = (Throw m, w1) ->
      Tasks.createTask input w = (Throw "ValidationError: contact does not exist", w1))
  /\ (exists (input : Tasks.TaskCreateInput.t) (w : World) (m : string) (w1 : World),
      Contacts.getContact (Tasks.TaskCreateInput.contactId input) (tasks_seeded w)
      = (Throw m, w1)
      /\ isTransientError m = true)
  /\ (exists (input : Tasks.TaskCreateInput.t) (w w' : World),
      task_input_valid input (contacts_snapshot (tasks_seeded w))
      /\ Tasks.createTask input w = (Throw "ValidationError: contact does not exist", w')
      /\ TASKS_CACHE w' = TASKS_CACHE w
      /\ tasks_json w' = tasks_json w).
Proof.
  split; [|split; [|split]].
  - intros input w m w' H.
    apply createTask_throws in H as ([->|[->|[->| ->]]] & _); reflexivity.
  - intros input w m w1 H.
    pose proof (getContact_run (Tasks.TaskCreateInput.contactId input) (tasks_seeded w))
      as Hget. cbv zeta in Hget. rewrite Hget in H. clear Hget.
    pose proof (createTask_run input w) as Hrun. cbv zeta in Hrun. rewrite Hrun.
    unfold tasks_prepared.
    destruct (Qltb (upcoming 1 _) _).
    + injection H as _ <-. reflexivity.
    + destruct (JS.find _ _); [discriminate H|].
      injection H as _ <-. reflexivity.
  - exists (Tasks.TaskCreateInput.mk "C00001" "Call" None None None), Sample.stormy,
      "TransientError: simulated network failure", (set_drawn 2 Sample.stormy).
    split; reflexivity.
  - exists (Tasks.TaskCreateInput.mk "C00001" "Call" None None None), Sample.stormy,
      (set_drawn 2 Sample.stormy).
    split; [|split; [|split]]; try reflexivity.
    split.
    + exists Sample.ada. split; [now left | reflexivity].
    + vm_compute. split; apply Nat.leb_le; reflexivity.
Qed.

Lemma createTask_contact_check_witness :
  isNotFoundError "ValidationError: contact does not exist" = false
  /\ Tasks.createTask (L := ascii_locale)
       (Tasks.TaskCreateInput.mk "C00009" "Call" None None None) Sample.calm
     = (Throw "ValidationError: contact does not exist", set_drawn 2 Sample.calm).
Proof.
  pose proof (createTask_contact_check (L := ascii_locale)) as (Hnever & Hconv & _).
  split.
  - apply (Hnever (Tasks.TaskCreateInput.mk "C00009" "Call" None None None) Sample.calm
             _ (set_drawn 2 Sample.calm)).
    reflexivity.
  - apply (Hconv (Tasks.TaskCreateInput.mk "C00009" "Call" None None None) Sample.calm
             "NotFoundError: contact not found").
    reflexivity.
Defined.

(** ** Where the code departs from the claims *)

(** C9 at a failing input.  [updateTask] stores a title of 121 characters,
    which [createTask] refuses: the length check of [createTask] is missing
    from [updateTask]. *)
Theorem updateTask_stores_overlong_title :
  (exists next w',
      Tasks.updateTask "T00001"
        (Tasks.TaskUpdateInput.mk (Some Sample.long_title) None None None None)
        Sample.calm
      = (Return next, w')
      /\ String.length (JS.trim (Task.title next)) = 121%nat
      /\ TASKS_CACHE w' = Some [next]
      /\ tasks_json w' = Some [next])
  /\ fst (Tasks.createTask (L := ascii_locale)
            (Tasks.TaskCreateInput.mk "C00001" Sample.long_title None None None)
            Sample.calm)
     = Throw "ValidationError: title too long".
Proof.
  split; [|reflexivity].
  set (next := Task.mk "T00001" "C00001" Sample.long_title None None false
                       Task.medium 2000 5000).
  exists next,
    (set_tasks_json (Some [next])
       (set_TASKS_CACHE (Some [next]) (set_ticks 1 (set_drawn 2 Sample.calm)))).
  repeat split; reflexivity.
Qed.

(** C3 at a failing input.  With the tasks already loaded, deleting contact
    C00001 removes the contact and empties the tasks file, and the next
    [listTasks] for C00001 still returns its task, from the module's cache,
    which the cascade does not touch. *)
Theorem deleteContact_leaves_cached_tasks :
  exists w1 w2,
    Contacts.deleteContact (L := ascii_locale) "C00001" Sample.calm = (Return true, w1)
    /\ CONTACTS_CACHE w1 = Some []
    /\ tasks_json w1 = Some []
    /\ TASKS_CACHE w1 = Some [Sample.call]
    /\ fst (Contacts.getContact (L := ascii_locale) "C00001" w1)
       = Throw "NotFoundError: contact not found"
    /\ Tasks.listTasks (L := ascii_locale)
         (Tasks.TaskListParams.mk (Some "C00001") None None None None None None) w1
       = (Return (Tasks.TaskListResult.mk [Sample.call] 1 1 50 false), w2).
Proof.
  set (w1 := set_tasks_json (Some [])
               (set_contacts_json (Some [])
                  (set_CONTACTS_CACHE (Some []) Sample.calm))).
  exists w1, (set_drawn 2 w1).
  repeat split; reflexivity.
Qed.

(** ** What does hold of deleting a contact *)

Section Deletion.

Context {L : Locale}.

Lemma find_None_of_Forall {A : Type} (p : A -> bool) (l : list A) :
  (forall x, In x l -> p x = false) -> JS.find p l = None.
Proof.
  unfold JS.find. induction l as [|y l IH]; intros H; simpl.
  - reflexivity.
  - rewrite (H y) by now left. apply IH. intros x Hx. apply H. now right.
Qed.

(** Once the first record with a key is spliced out of a list without
    duplicate keys, no record has the key. *)
Lemma find_splice1_None {A : Type} (key : A -> string) (id : string) (l : list A)
  (idx : nat) :
  List.NoDup (map key l) ->
  JS.findIndex (fun x => String.eqb (key x) id) l = Some idx ->
  JS.find (fun x => String.eqb (key x) id) (JS.splice1 idx l) = None.
Proof.
  unfold JS.splice1. revert idx. induction l as [|x l IH]; intros idx Hnd Hidx.
  - discriminate.
  - simpl in Hidx. inversion Hnd as [|? ? Hnotin Hnd']; subst.
    destruct (String.eqb_spec (key x) id) as [Hx|Hx].
    + injection Hidx as <-. simpl. apply find_None_of_Forall.
      intros y Hy. apply String.eqb_neq. intros Heq. apply Hnotin.
      rewrite Hx, <- Heq. now apply in_map.
    + destruct (JS.findIndex _ l) as [j|] eqn:Hj; [|discriminate].
      injection Hidx as <-. simpl.
      destruct (String.eqb_spec (key x) id); [contradiction|].
      now apply IH.
Qed.

Lemma deleteContact_returns (id : string) (w : World) (idx : nat) :
  JS.findIndex (fun c => String.eqb (Contact.id c) id) (contacts_snapshot w) = Some idx ->
  Contacts.deleteContact id w
  = (Return true,
     set_tasks_json
       (Some (List.filter (fun t => negb (String.eqb (Task.contactId t) id))
                          (default [] (tasks_json w))))
       (set_contacts_json (Some (JS.splice1 idx (contacts_snapshot w)))
          (set_CONTACTS_CACHE (Some (JS.splice1 idx (contacts_snapshot w)))
             (contacts_seeded w)))).
Proof.
  intros Hidx.
  pose proof (deleteContact_run id w) as Hrun. cbv zeta in Hrun.
  rewrite Hidx in Hrun. rewrite Hrun.
  now destruct (contacts_seeded_frame w) as (_ & -> & _).
Qed.

Lemma getContact_loaded (id : string) (w : World) (l : list Contact.t) :
  CONTACTS_CACHE w = Some l ->
  Contacts.getContact id w
  = (if Qltb (upcoming 1 w) (5 # 100)
     then Throw "TransientError: simulated network failure"
     else match JS.find (fun x => String.eqb (Contact.id x) id) l with
          | None => Throw "NotFoundError: contact not found"
          | Some c => Return c
          end,
     set_drawn (2 + drawn w) w).
Proof.
  intros H. pose proof (getContact_run id w) as Hget. cbv zeta in Hget.
  rewrite (contacts_snapshot_loaded w l H) in Hget.
  rewrite (contacts_seeded_loaded w l H) in Hget. exact Hget.
Qed.

End Deletion.

(** X1.  Deleting a stored contact (the ids of the collection being distinct)
    removes it from the collection in memory and on disk, so that the next
    [getContact] that does not fail transiently throws NotFoundError; it
    removes every task of the contact from the tasks file; and it leaves
    the tasks cache of the process as it was. *)
Theorem deleteContact_removes_and_cascades_on_disk {L : Locale}
  (w : World) (id : string) (c : Contact.t) :
  List.NoDup (map Contact.id (contacts_snapshot w)) ->
  In c (contacts_snapshot w) ->
  Contact.id c = id ->
  exists w',
    Contacts.deleteContact id w = (Return true, w')
    /\ contacts_json w' = CONTACTS_CACHE w'
    /\ (forall c', In c' (default [] (CONTACTS_CACHE w')) ->
                   In c' (contacts_snapshot w) /\ Contact.id c' <> id)
    /\ (Qltb (upcoming 1 w') (5 # 100) = false ->
        fst (Contacts.getContact id w') = Throw "NotFoundError: contact not found")
    /\ (forall t, In t (default [] (tasks_json w')) ->
                  In t (default [] (tasks_json w)) /\ Task.contactId t <> id)
    /\ TASKS_CACHE w' = TASKS_CACHE w.
Proof.
  intros Hnd Hin Hid.
  destruct (find_In_Some (fun x => String.eqb (Contact.id x) id) _ c Hin) as (y & Hy).
  { now apply String.eqb_eq. }
  destruct (find_findIndex _ _ _ Hy) as (idx & Hidx & _).
  pose proof (find_splice1_None Contact.id id _ idx Hnd Hidx) as Hgone.
  eexists. split; [exact (deleteContact_returns id w idx Hidx)|].
  simpl_world. cbn [default].
  split; [reflexivity|]. split; [|split; [|split]].
  - intros c' Hc'. split.
    + unfold JS.splice1 in Hc'. apply in_app_or in Hc' as [H|H].
      * now apply In_take in H.
      * now apply In_drop in H.
    + intros Heq. unfold JS.find in Hgone.
      pose proof (find_none _ _ Hgone c' Hc') as Hne. simpl in Hne.
      rewrite Heq, String.eqb_refl in Hne. discriminate.
  - intros Hok.
    match goal with
    | |- fst (Contacts.getContact id ?w1) = _ =>
        rewrite (getContact_loaded id w1 (JS.splice1 idx (contacts_snapshot w)) eq_refl)
    end.
    rewrite Hok. cbn [fst]. now rewrite Hgone.
  - intros t Ht. apply filter_In in Ht as [Ht Hne]. split; [exact Ht|].
    apply negb_true_iff, String.eqb_neq in Hne. exact Hne.
  - apply (contacts_seeded_frame w).
Qed.

Lemma sample_ids_distinct :
  List.NoDup (map Contact.id (contacts_snapshot (L := ascii_locale) Sample.busy)).
Proof.
  repeat constructor; simpl; intuition discriminate.
Qed.

Lemma deleteContact_removes_and_cascades_on_disk_witness :
  exists w',
    Contacts.deleteContact (L := ascii_locale) "C00001" Sample.busy = (Return true, w')
    /\ CONTACTS_CACHE w' = Some [Sample.grace]
    /\ contacts_json w' = Some [Sample.grace]
    /\ tasks_json w' = Some [Sample.demo]
    /\ TASKS_CACHE w' = Some [Sample.call; Sample.demo; Sample.quote].
Proof.
  destruct (deleteContact_removes_and_cascades_on_disk (L := ascii_locale) Sample.busy
              "C00001" Sample.ada sample_ids_distinct (or_introl eq_refl) eq_refl)
    as (w' & Hrun & _).
  exists w'. split; [exact Hrun|].
  assert (Hw : (Return true, w')
               = Contacts.deleteContact (L := ascii_locale) "C00001" Sample.busy)
    by (symmetry; exact Hrun).
  apply (f_equal snd) in Hw. simpl in Hw. subst w'.
  repeat split; reflexivity.
Defined.

Lemma tasks_snapshot_unloaded (w : World) (l : list Task.t) :
  TASKS_CACHE w = None -> tasks_json w = Some l -> tasks_snapshot w = l.
Proof.
  intros Hc Hj. unfold tasks_snapshot, tasks_seeded, Tasks.ensureSeeded, bind, gets.
  rewrite Hc. simpl. now rewrite Hj.
Qed.

Lemma filter_nil_of_Forall {A : Type} (p : A -> bool) (l : list A) :
  (forall x, In x l -> p x = false) -> List.filter p l = [].
Proof.
  induction l as [|y l IH]; intros H; simpl.
  - reflexivity.
  - rewrite (H y) by now left. apply IH. intros x Hx. apply H. now right.
Qed.

Lemma slice_nil {A : Type} (start stop : Z) : JS.slice (@nil A) start stop = [].
Proof. unfold JS.slice. now rewrite skipn_nil, firstn_nil. Qed.

(** X2.  When the tasks have not been loaded in the process yet, deleting a
    stored contact whose id is not empty makes the next [listTasks] for
    that contact (one that does not fail transiently) return no data: the
    tasks are then loaded from the file the cascade has rewritten. *)
Theorem listTasks_after_delete_when_tasks_not_loaded {L : Locale}
  (w : World) (params : Tasks.TaskListParams.t) (id : string) (c : Contact.t) :
  TASKS_CACHE w = None ->
  In c (contacts_snapshot w) ->
  Contact.id c = id ->
  id <> "" ->
  Tasks.TaskListParams.contactId params = Some id ->
  exists w1,
    Contacts.deleteContact id w = (Return true, w1)
    /\ (Qltb (upcoming 1 (tasks_seeded w1)) (5 # 100) = false ->
        exists r w2,
          Tasks.listTasks params w1 = (Return r, w2)
          /\ Tasks.TaskListResult.data r = []
          /\ Tasks.TaskListResult.total r = 0).
Proof.
  intros Hcache Hin Hid Hne Hparam.
  destruct (find_In_Some (fun x => String.eqb (Contact.id x) id) _ c Hin) as (y & Hy).
  { now apply String.eqb_eq. }
  destruct (find_findIndex _ _ _ Hy) as (idx & Hidx & _).
  eexists. split; [exact (deleteContact_returns id w idx Hidx)|].
  intros Hok.
  match type of Hok with
  | Qltb (upcoming 1 (tasks_seeded ?w1)) _ = false =>
      pose proof (listTasks_run params w1) as Hrun; cbv zeta in Hrun;
      rewrite Hok in Hrun;
      rewrite (tasks_snapshot_unloaded w1
                 (List.filter (fun t => negb (String.eqb (Task.contactId t) id))
                              (default [] (tasks_json w)))) in Hrun
  end.
  - rewrite Hparam in Hrun.
    assert (Hremaining : forall t,
      In t (List.filter (fun t => negb (String.eqb (Task.contactId t) id))
                        (default [] (tasks_json w))) ->
      negb (String.eqb (Task.contactId t) id) = true).
    { intros t Ht. now apply filter_In in Ht as [_ Ht]. }
    revert Hrun Hremaining.
    generalize (List.filter (fun t => negb (String.eqb (Task.contactId t) id))
                            (default [] (tasks_json w))).
    intros remaining Hrun Hremaining.
    rewrite filter_nil_of_Forall in Hrun.
    + simpl JS.sort in Hrun. rewrite slice_nil in Hrun.
      eexists _, _. split; [exact Hrun|]. split; reflexivity.
    + intros t Ht. apply Hremaining in Ht.
      unfold Tasks.matches. apply truthy_true in Hne. rewrite Hne, Ht. reflexivity.
  - simpl_world. rewrite <- Hcache. apply (contacts_seeded_frame w).
  - reflexivity.
Qed.

Lemma listTasks_after_delete_when_tasks_not_loaded_witness :
  exists w1,
    Contacts.deleteContact (L := ascii_locale) "C00001"
      (set_TASKS_CACHE None Sample.busy) = (Return true, w1)
    /\ (Qltb (upcoming 1 (tasks_seeded w1)) (5 # 100) = false ->
        exists r w2,
          Tasks.listTasks (L := ascii_locale)
            (Tasks.TaskListParams.mk (Some "C00001") None None None None None None) w1
          = (Return r, w2)
          /\ Tasks.TaskListResult.data r = []
          /\ Tasks.TaskListResult.total r = 0).
Proof.
  apply (listTasks_after_delete_when_tasks_not_loaded (L := ascii_locale)
           (set_TASKS_CACHE None Sample.busy)
           (Tasks.TaskListParams.mk (Some "C00001") None None None None None None)
           "C00001" Sample.ada).
  - reflexivity.
  - left. reflexivity.
  - reflexivity.
  - discriminate.
  - reflexivity.
Defined.

(** * Further properties of the services *)

(** ** Reading *)

Section Reading.

Context {L : Locale}.

Lemma same_store_refl (w : World) : same_store w w.
Proof. repeat split. Qed.

Lemma same_store_set_drawn (n : nat) (w : World) : same_store w (set_drawn n w).
Proof. repeat split. Qed.

Lemma tasks_snapshot_loaded (w : World) (l : list Task.t) :
  TASKS_CACHE w = Some l -> tasks_snapshot w = l.
Proof.
  intros H. unfold tasks_snapshot. rewrite (tasks_seeded_loaded w l H). now rewrite H.
Qed.

Lemma listContacts_world (params : Contacts.ListParams.t) (w : World) :
  snd (Contacts.listContacts params w)
  = set_drawn (2 + drawn (contacts_seeded w)) (contacts_seeded w).
Proof.
  pose proof (listContacts_run params w) as H. cbv zeta in H. now rewrite H.
Qed.

Lemma getContact_world (id : string) (w : World) :
  snd (Contacts.getContact id w)
  = set_drawn (2 + drawn (contacts_seeded w)) (contacts_seeded w).
Proof.
  pose proof (getContact_run id w) as H. cbv zeta in H. now rewrite H.
Qed.

Lemma listTasks_world (params : Tasks.TaskListParams.t) (w : World) :
  snd (Tasks.listTasks params w)
  = set_drawn (2 + drawn (tasks_seeded w)) (tasks_seeded w).
Proof.
  pose proof (listTasks_run params w) as H. cbv zeta in H. now rewrite H.
Qed.

End Reading.

(** X3.  The three reads never write: whatever their outcome,
    [listContacts] and [getContact] leave the contacts and the tasks, in
    memory and on disk, as they are once the contacts are loaded, and
    [listTasks] as they are once the tasks are loaded; on a store that is
    already loaded nothing changes at all.  They make exactly two draws and
    read no clock. *)
Theorem reads_do_not_write {L : Locale} (w : World) :
  (forall params,
      same_store (contacts_seeded w) (snd (Contacts.listContacts params w))
      /\ drawn (snd (Contacts.listContacts params w))
         = (2 + drawn (contacts_seeded w))%nat
      /\ ticks (snd (Contacts.listContacts params w)) = ticks (contacts_seeded w))
  /\ (forall id,
      same_store (contacts_seeded w) (snd (Contacts.getContact id w))
      /\ drawn (snd (Contacts.getContact id w)) = (2 + drawn (contacts_seeded w))%nat
      /\ ticks (snd (Contacts.getContact id w)) = ticks (contacts_seeded w))
  /\ (forall params,
      same_store (tasks_seeded w) (snd (Tasks.listTasks params w))
      /\ drawn (snd (Tasks.listTasks params w)) = (2 + drawn (tasks_seeded w))%nat
      /\ ticks (snd (Tasks.listTasks params w)) = ticks (tasks_seeded w))
  /\ (forall l params id,
      CONTACTS_CACHE w = Some l ->
      same_store w (snd (Contacts.listContacts params w))
      /\ same_store w (snd (Contacts.getContact id w)))
  /\ (forall l params,
      TASKS_CACHE w = Some l -> same_store w (snd (Tasks.listTasks params w))).
Proof.
  split; [|split; [|split; [|split]]].
  - intros params. rewrite listContacts_world. repeat split.
  - intros id. rewrite getContact_world. repeat split.
  - intros params. rewrite listTasks_world. repeat split.
  - intros l params id H. rewrite listContacts_world, getContact_world.
    rewrite (contacts_seeded_loaded w l H). repeat split.
  - intros l params H. rewrite listTasks_world.
    rewrite (tasks_seeded_loaded w l H). repeat split.
Qed.

Lemma reads_do_not_write_witness :
  same_store Sample.busy
    (snd (Contacts.listContacts (L := ascii_locale)
            (Contacts.ListParams.mk (Some "a") None None None None) Sample.busy))
  /\ same_store Sample.busy (snd (Contacts.getContact (L := ascii_locale) "C00009"
                                    Sample.busy))
  /\ same_store Sample.stormy
       (snd (Tasks.listTasks (L := ascii_locale)
               (Tasks.TaskListParams.mk None None None None None None None)
               Sample.stormy)).
Proof.
  pose proof (reads_do_not_write (L := ascii_locale) Sample.busy) as (_ & _ & _ & Hc & _).
  pose proof (reads_do_not_write (L := ascii_locale) Sample.stormy) as (_ & _ & _ & _ & Ht).
  split; [|split].
  - apply (Hc [Sample.ada; Sample.grace]
              (Contacts.ListParams.mk (Some "a") None None None None) "C00009").
    reflexivity.
  - apply (Hc [Sample.ada; Sample.grace]
              (Contacts.ListParams.mk (Some "a") None None None None) "C00009").
    reflexivity.
  - apply (Ht [Sample.call]). reflexivity.
Defined.

(** ** Pages *)

Section Pages.

Context {A : Type}.

Lemma slice_page (l : list A) (start size : Z) :
  0 <= start -> 0 <= size ->
  JS.slice l start (start + size)
  = firstn (Z.to_nat size) (skipn (Z.to_nat start) l).
Proof.
  intros Hs Hz. unfold JS.slice, JS.relativeIndex.
  destruct (Z.ltb_spec start 0); [lia|].
  destruct (Z.ltb_spec (start + size) 0); [lia|].
  destruct (Z.le_gt_cases (Z.of_nat (length l)) start) as [Hout|Hin].
  - rewrite !skipn_all2 by lia. now rewrite !firstn_nil.
  - replace (Z.min start (Z.of_nat (length l))) with start by lia.
    destruct (Z.le_gt_cases (start + size) (Z.of_nat (length l))) as [Hfit|Hcut].
    + f_equal. lia.
    + rewrite !firstn_all2; [reflexivity | rewrite length_skipn; lia..].
Qed.

Lemma slice_whole (l : list A) (size : Z) :
  Z.of_nat (length l) <= size -> JS.slice l 0 size = l.
Proof.
  intros H. rewrite <- (Z.add_0_l size), slice_page by lia.
  simpl skipn. apply firstn_all2. lia.
Qed.



End Pages.

Section StableTotals.

Context {L : Locale}.

Lemma listContacts_after_read (params : Contacts.ListParams.t) (w : World) (n : nat) :
  let w1 := set_drawn n (contacts_seeded w) in
  contacts_seeded w1 = w1 /\ contacts_snapshot w1 = contacts_snapshot w.
Proof.
  cbv zeta.
  assert (H : CONTACTS_CACHE (set_drawn n (contacts_seeded w))
              = Some (contacts_snapshot w)) by apply contacts_seeded_cache.
  split.
  - exact (contacts_seeded_loaded _ _ H).
  - exact (contacts_snapshot_loaded _ _ H).
Qed.

Lemma listTasks_after_read (w : World) (n : nat) :
  let w1 := set_drawn n (tasks_seeded w) in
  tasks_seeded w1 = w1 /\ tasks_snapshot w1 = tasks_snapshot w.
Proof.
  cbv zeta.
  assert (H : TASKS_CACHE (set_drawn n (tasks_seeded w)) = Some (tasks_snapshot w))
    by apply tasks_seeded_cache.
  split.
  - exact (tasks_seeded_loaded _ _ H).
  - exact (tasks_snapshot_loaded _ _ H).
Qed.

End StableTotals.

(** X4.  Two successive lists that succeed report the same [total] when
    they ask for the same search text (and, for tasks, the same [contactId]
    and [completed] filters), whatever the page, the page size and the sort
    of each: the total depends on the collection and the filter only. *)
Theorem list_total_is_stable {L : Locale} :
  (forall (w : World) (p1 p2 : Contacts.ListParams.t),
      Contacts.ListParams.q p1 = Contacts.ListParams.q p2 ->
      Qltb (upcoming 1 (contacts_seeded w)) (5 # 100) = false ->
      Qltb (upcoming 3 (contacts_seeded w)) (5 # 100) = false ->
      exists r1 w1 r2 w2,
        Contacts.listContacts p1 w = (Return r1, w1)
        /\ Contacts.listContacts p2 w1 = (Return r2, w2)
        /\ Contacts.ListResult.total r2 = Contacts.ListResult.total r1)
  /\ (forall (w : World) (p1 p2 : Tasks.TaskListParams.t),
      Tasks.TaskListParams.q p1 = Tasks.TaskListParams.q p2 ->
      Tasks.TaskListParams.contactId p1 = Tasks.TaskListParams.contactId p2 ->
      Tasks.TaskListParams.completed p1 = Tasks.TaskListParams.completed p2 ->
      Qltb (upcoming 1 (tasks_seeded w)) (5 # 100) = false ->
      Qltb (upcoming 3 (tasks_seeded w)) (5 # 100) = false ->
      exists r1 w1 r2 w2,
        Tasks.listTasks p1 w = (Return r1, w1)
        /\ Tasks.listTasks p2 w1 = (Return r2, w2)
        /\ Tasks.TaskListResult.total r2 = Tasks.TaskListResult.total r1).
Proof.
  split.
  - intros w p1 p2 Hq H1 H3.
    pose proof (listContacts_run p1 w) as Hrun1. cbv zeta in Hrun1.
    rewrite H1 in Hrun1.
    destruct (listContacts_after_read p1 w (2 + drawn (contacts_seeded w)))
      as (Hseeded & Hsnap).
    pose proof (listContacts_run p2
                  (set_drawn (2 + drawn (contacts_seeded w)) (contacts_seeded w)))
      as Hrun2.
    cbv zeta in Hrun2. rewrite Hseeded, Hsnap in Hrun2.
    change (upcoming 1 (set_drawn (2 + drawn (contacts_seeded w)) (contacts_seeded w)))
      with (upcoming 3 (contacts_seeded w)) in Hrun2.
    rewrite H3 in Hrun2.
    eexists _, _, _, _. split; [exact Hrun1|]. split; [exact Hrun2|].
    simpl. now rewrite Hq.
  - intros w p1 p2 Hq Hc Hd H1 H3.
    pose proof (listTasks_run p1 w) as Hrun1. cbv zeta in Hrun1.
    rewrite H1 in Hrun1.
    destruct (listTasks_after_read w (2 + drawn (tasks_seeded w))) as (Hseeded & Hsnap).
    pose proof (listTasks_run p2
                  (set_drawn (2 + drawn (tasks_seeded w)) (tasks_seeded w))) as Hrun2.
    cbv zeta in Hrun2. rewrite Hseeded, Hsnap in Hrun2.
    change (upcoming 1 (set_drawn (2 + drawn (tasks_seeded w)) (tasks_seeded w)))
      with (upcoming 3 (tasks_seeded w)) in Hrun2.
    rewrite H3 in Hrun2.
    eexists _, _, _, _. split; [exact Hrun1|]. split; [exact Hrun2|].
    simpl. now rewrite Hq, Hc, Hd.
Qed.

Lemma list_total_is_stable_witness :
  (exists r1 w1 r2 w2,
      Contacts.listContacts (L := ascii_locale)
        (Contacts.ListParams.mk (Some "a") None None None (Some 10)) Sample.busy
      = (Return r1, w1)
      /\ Contacts.listContacts (L := ascii_locale)
           (Contacts.ListParams.mk (Some "a") (Some Contact.Kemail) (Some asc)
                                   (Some 2) (Some 1)) w1
         = (Return r2, w2)
      /\ Contacts.ListResult.total r2 = Contacts.ListResult.total r1)
  /\ (exists r1 w1 r2 w2,
      Tasks.listTasks (L := ascii_locale)
        (Tasks.TaskListParams.mk (Some "C00001") None None None None None None)
        Sample.busy
      = (Return r1, w1)
      /\ Tasks.listTasks (L := ascii_locale)
           (Tasks.TaskListParams.mk (Some "C00001") None (Some Task.Ktitle) (Some asc)
                                    (Some 5) (Some 3) None) w1
         = (Return r2, w2)
      /\ Tasks.TaskListResult.total r2 = Tasks.TaskListResult.total r1).
Proof.
  split.
  - apply (proj1 (list_total_is_stable (L := ascii_locale))); reflexivity.
  - apply (proj2 (list_total_is_stable (L := ascii_locale))); reflexivity.
Defined.

Lemma chunk_of_sorted {A : Type} (cmp : A -> A -> Z) (filtered : list A)
  (page pageSize : Z) :
  1 <= page -> 1 <= pageSize ->
  let total := Z.of_nat (length filtered) in
  let whole := JS.slice (JS.sort cmp filtered) ((1 - 1) * Z.max 1 total)
                        ((1 - 1) * Z.max 1 total + Z.max 1 total) in
  Z.of_nat (length whole) = total
  /\ JS.slice (JS.sort cmp filtered) ((page - 1) * pageSize)
              ((page - 1) * pageSize + pageSize)
     = firstn (Z.to_nat pageSize) (skipn (Z.to_nat ((page - 1) * pageSize)) whole).
Proof.
  intros Hp Hs total whole.
  assert (Hwhole : whole = JS.sort cmp filtered).
  { subst whole. replace ((1 - 1) * Z.max 1 total) with 0 by lia.
    apply slice_whole. rewrite sort_length. subst total. lia. }
  rewrite Hwhole. split.
  - now rewrite sort_length.
  - apply slice_page; nia.
Qed.

(** X5.  The pages of a query are the consecutive chunks of one ordering:
    for a page number and a page size that are at least 1, the [data] of a
    list that succeeds is the [page]-th run of [pageSize] records of the list
    the same query returns when it asks for everything in one page, which
    holds [total] records; so no record is skipped or repeated from one page
    to the next. *)
Theorem pages_are_consecutive_chunks {L : Locale} :
  (forall (w : World) (params : Contacts.ListParams.t),
      let page := default 1 (Contacts.ListParams.page params) in
      let pageSize := default 50 (Contacts.ListParams.pageSize params) in
      1 <= page -> 1 <= pageSize ->
      Qltb (upcoming 1 (contacts_seeded w)) (5 # 100) = false ->
      exists r w' rAll wAll,
        Contacts.listContacts params w = (Return r, w')
        /\ Contacts.listContacts
             (contacts_with_paging params 1 (Z.max 1 (Contacts.ListResult.total r))) w
           = (Return rAll, wAll)
        /\ Z.of_nat (length (Contacts.ListResult.data rAll)) = Contacts.ListResult.total r
        /\ Contacts.ListResult.data r
           = firstn (Z.to_nat pageSize)
                    (skipn (Z.to_nat ((page - 1) * pageSize))
                           (Contacts.ListResult.data rAll)))
  /\ (forall (w : World) (params : Tasks.TaskListParams.t),
      let page := default 1 (Tasks.TaskListParams.page params) in
      let pageSize := default 50 (Tasks.TaskListParams.pageSize params) in
      1 <= page -> 1 <= pageSize ->
      Qltb (upcoming 1 (tasks_seeded w)) (5 # 100) = false ->
      exists r w' rAll wAll,
        Tasks.listTasks params w = (Return r, w')
        /\ Tasks.listTasks
             (tasks_with_paging params 1 (Z.max 1 (Tasks.TaskListResult.total r))) w
           = (Return rAll, wAll)
        /\ Z.of_nat (length (Tasks.TaskListResult.data rAll)) = Tasks.TaskListResult.total r
        /\ Tasks.TaskListResult.data r
           = firstn (Z.to_nat pageSize)
                    (skipn (Z.to_nat ((page - 1) * pageSize))
                           (Tasks.TaskListResult.data rAll))).
Proof.
  split; intros w params page pageSize Hp Hs Hok.
  - pose proof (listContacts_run params w) as Hrun. cbv zeta in Hrun.
    rewrite Hok in Hrun.
    eexists _, _. eexists _, _. split; [exact Hrun|].
    cbn [Contacts.ListResult.total Contacts.ListResult.data].
    match goal with
    | |- Contacts.listContacts ?p w = _ /\ _ =>
        pose proof (listContacts_run p w) as Hall; cbv zeta in Hall;
        rewrite Hok in Hall
    end.
    split; [exact Hall|].
    cbn [Contacts.ListResult.data contacts_with_paging Contacts.ListParams.q
         Contacts.ListParams.sortBy Contacts.ListParams.sortOrder
         Contacts.ListParams.page Contacts.ListParams.pageSize default].
    apply chunk_of_sorted; assumption.
  - pose proof (listTasks_run params w) as Hrun. cbv zeta in Hrun.
    rewrite Hok in Hrun.
    eexists _, _. eexists _, _. split; [exact Hrun|].
    cbn [Tasks.TaskListResult.total Tasks.TaskListResult.data].
    match goal with
    | |- Tasks.listTasks ?p w = _ /\ _ =>
        pose proof (listTasks_run p w) as Hall; cbv zeta in Hall;
        rewrite Hok in Hall
    end.
    split; [exact Hall|].
    cbn [Tasks.TaskListResult.data tasks_with_paging Tasks.TaskListParams.q
         Tasks.TaskListParams.sortBy Tasks.TaskListParams.sortOrder
         Tasks.TaskListParams.page Tasks.TaskListParams.pageSize
         Tasks.TaskListParams.contactId Tasks.TaskListParams.completed default].
    apply chunk_of_sorted; assumption.
Qed.

Lemma pages_are_consecutive_chunks_witness :
  (exists r w' rAll wAll,
      Contacts.listContacts (L := ascii_locale)
        (Contacts.ListParams.mk None None None (Some 2) (Some 1)) Sample.busy
      = (Return r, w')
      /\ Contacts.listContacts (L := ascii_locale)
           (contacts_with_paging
              (Contacts.ListParams.mk None None None (Some 2) (Some 1)) 1
              (Z.max 1 (Contacts.ListResult.total r))) Sample.busy
         = (Return rAll, wAll)
      /\ Z.of_nat (length (Contacts.ListResult.data rAll)) = Contacts.ListResult.total r
      /\ Contacts.ListResult.data r
         = firstn (Z.to_nat 1)
                  (skipn (Z.to_nat ((2 - 1) * 1)) (Contacts.ListResult.data rAll)))
  /\ (exists r w' rAll wAll,
      Tasks.listTasks (L := ascii_locale)
        (Tasks.TaskListParams.mk None None None None (Some 2) (Some 2) None) Sample.busy
      = (Return r, w')
      /\ Tasks.listTasks (L := ascii_locale)
           (tasks_with_paging
              (Tasks.TaskListParams.mk None None None None (Some 2) (Some 2) None) 1
              (Z.max 1 (Tasks.TaskListResult.total r))) Sample.busy
         = (Return rAll, wAll)
      /\ Z.of_nat (length (Tasks.TaskListResult.data rAll)) = Tasks.TaskListResult.total r
      /\ Tasks.TaskListResult.data r
         = firstn (Z.to_nat 2)
                  (skipn (Z.to_nat ((2 - 1) * 2)) (Tasks.TaskListResult.data rAll))).
Proof.
  split.
  - apply (proj1 (pages_are_consecutive_chunks (L := ascii_locale)) Sample.busy
             (Contacts.ListParams.mk None None None (Some 2) (Some 1)));
      [simpl; lia | simpl; lia | reflexivity].
  - apply (proj2 (pages_are_consecutive_chunks (L := ascii_locale)) Sample.busy
             (Tasks.TaskListParams.mk None None None None (Some 2) (Some 2) None));
      [simpl; lia | simpl; lia | reflexivity].
Defined.

(** The second page of two of the three sample tasks, latest update first,
    is the one task left. *)
Example listTasks_second_page :
  fst (Tasks.listTasks (L := ascii_locale)
         (Tasks.TaskListParams.mk None None None None (Some 2) (Some 2) None) Sample.busy)
  = Return (Tasks.TaskListResult.mk [Sample.call] 3 2 2 false).
Proof. reflexivity. Qed.




(** Page 1 with a page size of -1 on the three sample tasks: all but the
    last. *)
Example listTasks_negative_pageSize :
  fst (Tasks.listTasks (L := ascii_locale)
         (Tasks.TaskListParams.mk None None None None (Some 1) (Some (-1)) None)
         Sample.busy)
  = Return (Tasks.TaskListResult.mk [Sample.demo; Sample.quote] 3 1 (-1) true).
Proof. reflexivity. Qed.

(** ** Writing *)

Section ListSurgery.

Context {A : Type}.

Lemma splice1_map {B : Type} (f : A -> B) (idx : nat) (l : list A) :
  map f (JS.splice1 idx l) = JS.splice1 idx (map f l).
Proof.
  unfold JS.splice1. now rewrite map_app, firstn_map, skipn_map.
Qed.

Lemma NoDup_splice1 (idx : nat) (l : list A) :
  List.NoDup l -> List.NoDup (JS.splice1 idx l).
Proof.
  unfold JS.splice1. intros Hnd.
  rewrite <- (firstn_skipn idx l) in Hnd.
  destruct (skipn idx l) as [|x rest] eqn:Hrest.
  - rewrite (skipn_all2 (n := S idx)); [now rewrite app_nil_r in *|].
    assert (length (skipn idx l) = O) by now rewrite Hrest.
    rewrite length_skipn in *. lia.
  - replace (skipn (S idx) l) with rest.
    + eapply List.NoDup_remove_1. exact Hnd.
    + change (S idx) with (1 + idx)%nat. rewrite <- skipn_skipn, Hrest. reflexivity.
Qed.

(** What [findIndex] finds splits the list at the first hit. *)
Lemma findIndex_split (p : A -> bool) (l : list A) (idx : nat) :
  JS.findIndex p l = Some idx ->
  exists before x after,
    l = (before ++ x :: after)%list
    /\ length before = idx
    /\ p x = true
    /\ (forall y, In y before -> p y = false)
    /\ JS.splice1 idx l = (before ++ after)%list
    /\ (forall z : A, <[idx := z]> l = (before ++ z :: after)%list).
Proof.
  revert idx. induction l as [|y l IH]; intros idx H; simpl in H.
  - discriminate.
  - destruct (p y) eqn:Hy.
    + injection H as <-. exists [], y, l. repeat split; try assumption.
      intros ? [].
    + destruct (JS.findIndex p l) as [j|]; [|discriminate].
      injection H as <-.
      destruct (IH j eq_refl) as (before & x & after & -> & Hlen & Hx & Hb & Hs & Hi).
      exists (y :: before), x, after. repeat split.
      * simpl. now rewrite Hlen.
      * exact Hx.
      * intros z [<-|Hz]; [exact Hy | now apply Hb].
      * unfold JS.splice1 in *. simpl. now rewrite Hs.
      * intros z. simpl. now rewrite Hi.
Qed.

Lemma findIndex_None_Forall (p : A -> bool) (l : list A) :
  JS.findIndex p l = None <-> (forall x, In x l -> p x = false).
Proof.
  rewrite findIndex_None. split.
  - intros H x Hx. exact (find_none _ _ H x Hx).
  - apply find_None_of_Forall.
Qed.

End ListSurgery.

(** X7.  [updateTask] and [deleteTask], when the simulated failure does
    not fire, act on the first task with the given id and on nothing else:
    the tasks before it and after it stay as they are and in order, in
    memory and on disk, and the contacts are not touched.  When no task
    has the id, both throw NotFoundError and nothing is changed. *)
Theorem update_and_delete_act_on_the_first_match (w : World) (id : string) :
  Qltb (upcoming 1 (tasks_seeded w)) (12 # 100) = false ->
  ((forall t, In t (tasks_snapshot w) -> Task.id t <> id) ->
   forall updates,
     Tasks.updateTask id updates w
     = (Throw "NotFoundError: task not found",
        set_drawn (2 + drawn (tasks_seeded w)) (tasks_seeded w))
     /\ Tasks.deleteTask id w
        = (Throw "NotFoundError: task not found",
           set_drawn (2 + drawn (tasks_seeded w)) (tasks_seeded w)))
  /\ (forall t, In t (tasks_snapshot w) -> Task.id t = id ->
      exists before prev after,
        tasks_snapshot w = (before ++ prev :: after)%list
        /\ Task.id prev = id
        /\ (forall y, In y before -> Task.id y <> id)
        /\ (forall updates, exists next w',
              Tasks.updateTask id updates w = (Return next, w')
              /\ Task.id next = id
              /\ TASKS_CACHE w' = Some (before ++ next :: after)%list
              /\ tasks_json w' = Some (before ++ next :: after)%list
              /\ CONTACTS_CACHE w' = CONTACTS_CACHE w
              /\ contacts_json w' = contacts_json w)
        /\ (exists w',
              Tasks.deleteTask id w = (Return true, w')
              /\ TASKS_CACHE w' = Some (before ++ after)%list
              /\ tasks_json w' = Some (before ++ after)%list
              /\ CONTACTS_CACHE w' = CONTACTS_CACHE w
              /\ contacts_json w' = contacts_json w)).
Proof.
  intros Hok.
  destruct (tasks_seeded_frame w) as (Hcc & Hcj & _).
  split.
  - intros Habsent updates.
    assert (Hnone : JS.findIndex (fun t => String.eqb (Task.id t) id) (tasks_snapshot w)
                    = None).
    { apply findIndex_None_Forall. intros x Hx. apply String.eqb_neq.
      now apply Habsent. }
    pose proof (updateTask_run id updates w) as Hu. cbv zeta in Hu.
    pose proof (deleteTask_run id w) as Hd. cbv zeta in Hd.
    rewrite Hok, Hnone in Hu, Hd.
    split; [|exact Hd]. rewrite Hu. now destruct (JS.find _ _).
  - intros t Hin Hid.
    destruct (find_In_Some (fun x => String.eqb (Task.id x) id) _ t Hin) as (y & Hy).
    { now apply String.eqb_eq. }
    destruct (find_findIndex _ _ _ Hy) as (idx & Hidx & Hlookup).
    destruct (findIndex_split _ _ _ Hidx)
      as (before & prev & after & Hsplit & Hlen & Hprev & Hbefore & Hsplice & Hinsert).
    assert (Hyprev : y = prev).
    { rewrite Hsplit in Hlookup. rewrite <- Hlen in Hlookup.
      rewrite list_lookup_middle in Hlookup by reflexivity. congruence. }
    subst y. exists before, prev, after.
    split; [exact Hsplit|]. split; [now apply String.eqb_eq|].
    split; [intros z Hz; apply String.eqb_neq; now apply Hbefore|].
    split.
    + intros updates.
      pose proof (updateTask_run id updates w) as Hu. cbv zeta in Hu.
      rewrite Hok, Hy, Hidx, Hinsert in Hu.
      eexists _, _. split; [exact Hu|]. simpl_world.
      split; [now apply String.eqb_eq|]. repeat split; assumption.
    + pose proof (deleteTask_run id w) as Hd. cbv zeta in Hd.
      rewrite Hok, Hidx, Hsplice in Hd.
      eexists. split; [exact Hd|]. simpl_world. repeat split; assumption.
Qed.

Lemma update_and_delete_act_on_the_first_match_witness :
  Tasks.deleteTask "T00009" Sample.busy
  = (Throw "NotFoundError: task not found", set_drawn 2 Sample.busy)
  /\ exists before prev after,
      tasks_snapshot Sample.busy = (before ++ prev :: after)%list
      /\ Task.id prev = "T00002"
      /\ exists w',
          Tasks.deleteTask "T00002" Sample.busy = (Return true, w')
          /\ TASKS_CACHE w' = Some (before ++ after)%list
          /\ tasks_json w' = Some (before ++ after)%list.
Proof.
  pose proof (update_and_delete_act_on_the_first_match Sample.busy "T00009" eq_refl)
    as (Habsent & _).
  pose proof (update_and_delete_act_on_the_first_match Sample.busy "T00002" eq_refl)
    as (_ & Hpresent).
  split.
  - apply (Habsent ltac:(intros t [<-|[<-|[<-|[]]]]; discriminate)
             (Tasks.TaskUpdateInput.mk None None None None None)).
  - destruct (Hpresent Sample.demo ltac:(right; left; reflexivity) eq_refl)
      as (before & prev & after & Hsplit & Hid & _ & _ & w' & Hd & Hc & Hj & _).
    exists before, prev, after. split; [exact Hsplit|]. split; [exact Hid|].
    exists w'. repeat split; assumption.
Defined.

(** Deleting the task in the middle of the sample leaves the two others,
    in order, in memory and on disk. *)
Example deleteTask_sample :
  Tasks.deleteTask "T00002" Sample.busy
  = (Return true,
     set_tasks_json (Some [Sample.call; Sample.quote])
       (set_TASKS_CACHE (Some [Sample.call; Sample.quote]) (set_drawn 2 Sample.busy))).
Proof. reflexivity. Qed.

(** ** Trimming twice *)

Lemma trimStart_head (s : string) :
  JS.trimStart s = ""
  \/ exists c t, JS.trimStart s = String c t /\ JS.isWhiteSpace c = false.
Proof.
  induction s as [|c t IH]; simpl.
  - now left.
  - destruct (JS.isWhiteSpace c) eqn:Hc; [exact IH|]. right. eauto.
Qed.

Lemma trimEnd_head (c : ascii) (t : string) :
  JS.isWhiteSpace c = false -> exists t', JS.trimEnd (String c t) = String c t'.
Proof.
  intros Hc. simpl. destruct (JS.trimEnd t); [rewrite Hc|]; eauto.
Qed.

Lemma trimEnd_trimEnd (s : string) : JS.trimEnd (JS.trimEnd s) = JS.trimEnd s.
Proof.
  induction s as [|c t IH]; simpl; [reflexivity|].
  destruct (JS.trimEnd t) as [|d u] eqn:Hu.
  - destruct (JS.isWhiteSpace c) eqn:Hc; simpl; [reflexivity | now rewrite Hc].
  - change (JS.trimEnd (String c (String d u)))
      with (match JS.trimEnd (String d u) with
            | EmptyString =>
                if JS.isWhiteSpace c then EmptyString else String c EmptyString
            | t' => String c t'
            end).
    now rewrite IH.
Qed.

(** [trim] leaves a trimmed string as it is. *)
Lemma trim_trim (s : string) : JS.trim (JS.trim s) = JS.trim s.
Proof.
  unfold JS.trim.
  destruct (trimStart_head s) as [->|(c & t & -> & Hc)].
  - reflexivity.
  - destruct (trimEnd_head c t Hc) as (t' & Ht'). rewrite Ht'.
    simpl JS.trimStart. rewrite Hc, <- Ht'. apply trimEnd_trimEnd.
Qed.

(** ** The outcomes of the writes on tasks *)

Section TaskWrites.

Context {L : Locale}.

Lemma createTask_cases (input : Tasks.TaskCreateInput.t) (w : World) :
  (exists m n, Tasks.createTask input w = (Throw m, set_drawn n (tasks_prepared w)))
  \/ (exists t,
        Tasks.createTask input w
        = (Return t,
           set_tasks_json (Some (tasks_snapshot w ++ [t])%list)
             (set_TASKS_CACHE (Some (tasks_snapshot w ++ [t])%list)
                (set_ticks (S (ticks (tasks_prepared w)))
                   (set_drawn (4 + drawn (tasks_prepared w)) (tasks_prepared w)))))
        /\ Task.id t
           = "T" ++ Tasks.pad
                      (fold_left (fun m t => Z.max m (Tasks.suffix (Task.id t)))
                                 (tasks_snapshot w) 0 + 1) 5
        /\ Task.title t = JS.trim (Tasks.TaskCreateInput.title input)
        /\ JS.trim (Tasks.TaskCreateInput.title input) <> ""
        /\ (String.length (JS.trim (Tasks.TaskCreateInput.title input)) <= 120)%nat).
Proof.
  pose proof (createTask_run input w) as Hrun. cbv zeta in Hrun. rewrite Hrun.
  destruct (Qltb (upcoming 1 _) _); [left; eauto|].
  destruct (JS.find _ _); [|left; eauto].
  destruct (JS.truthy _) eqn:Htruthy; cbn [negb]; [|left; eauto].
  destruct (Z.ltb_spec 120
              (Z.of_nat (String.length (JS.trim (Tasks.TaskCreateInput.title input)))));
    [left; eauto|].
  destruct (Qltb (upcoming 3 _) _); [left; eauto|].
  right. eexists. split; [reflexivity|]. cbn [Task.id Task.title].
  repeat split; [now apply truthy_true | lia].
Qed.

End TaskWrites.

Lemma updateTask_cases (id : string) (updates : Tasks.TaskUpdateInput.t) (w : World) :
  (exists m n, Tasks.updateTask id updates w = (Throw m, set_drawn n (tasks_seeded w)))
  \/ (exists before prev after,
        tasks_snapshot w = (before ++ prev :: after)%list
        /\ Task.id prev = id
        /\ let next := Tasks.merge prev updates
                         (clock (tasks_seeded w) (ticks (tasks_seeded w))) in
           Tasks.updateTask id updates w
           = (Return next,
              set_tasks_json (Some (before ++ next :: after)%list)
                (set_TASKS_CACHE (Some (before ++ next :: after)%list)
                   (set_ticks (S (ticks (tasks_seeded w)))
                      (set_drawn (2 + drawn (tasks_seeded w)) (tasks_seeded w)))))).
Proof.
  pose proof (updateTask_run id updates w) as Hrun. cbv zeta in Hrun. rewrite Hrun.
  destruct (Qltb _ _); [left; eauto|].
  destruct (JS.find _ _) as [prev|] eqn:Hfind; [|left; eauto].
  destruct (find_findIndex _ _ _ Hfind) as (idx & Hidx & Hlookup). rewrite Hidx.
  destruct (findIndex_split _ _ _ Hidx)
    as (before & x & after & Hsplit & Hlen & Hx & _ & _ & Hinsert).
  assert (x = prev) as ->.
  { rewrite Hsplit, <- Hlen in Hlookup.
    rewrite list_lookup_middle in Hlookup by reflexivity. congruence. }
  right. exists before, prev, after.
  split; [exact Hsplit|]. split; [now apply String.eqb_eq|].
  cbv zeta. now rewrite Hinsert.
Qed.

Lemma deleteTask_cases (id : string) (w : World) :
  (exists m n, Tasks.deleteTask id w = (Throw m, set_drawn n (tasks_seeded w)))
  \/ (exists before x after,
        tasks_snapshot w = (before ++ x :: after)%list
        /\ Task.id x = id
        /\ Tasks.deleteTask id w
           = (Return true,
              set_tasks_json (Some (before ++ after)%list)
                (set_TASKS_CACHE (Some (before ++ after)%list)
                   (set_drawn (2 + drawn (tasks_seeded w)) (tasks_seeded w))))).
Proof.
  pose proof (deleteTask_run id w) as Hrun. cbv zeta in Hrun. rewrite Hrun.
  destruct (Qltb _ _); [left; eauto|].
  destruct (JS.findIndex _ _) as [idx|] eqn:Hidx; [|left; eauto].
  destruct (findIndex_split _ _ _ Hidx)
    as (before & x & after & Hsplit & _ & Hx & _ & Hsplice & _).
  right. exists before, x, after.
  split; [exact Hsplit|]. split; [now apply String.eqb_eq|]. now rewrite Hsplice.
Qed.

(** ** Invariants of the task store *)

Lemma title_ok_trimmed (s : string) :
  JS.trim s <> "" -> (String.length (JS.trim s) <= 120)%nat ->
  (1 <= String.length (JS.trim (JS.trim s)) <= 120)%nat.
Proof.
  intros Hne Hlen. rewrite trim_trim. split; [|exact Hlen].
  destruct (JS.trim s); [congruence | simpl; lia].
Qed.

(** X8.  The bound on titles is kept by [createTask] and [deleteTask]
    whatever their outcome, and by [updateTask] when the update gives no
    title or one of at most 120 characters once trimmed: if every stored
    title has 1 to 120 characters once trimmed before the call, the same
    holds after it. *)
Theorem title_bound_is_kept {L : Locale} (w : World) :
  Forall title_ok (tasks_snapshot w) ->
  (forall input,
      Forall title_ok (default [] (TASKS_CACHE (snd (Tasks.createTask input w)))))
  /\ (forall id,
      Forall title_ok (default [] (TASKS_CACHE (snd (Tasks.deleteTask id w)))))
  /\ (forall id updates,
      (forall s, Tasks.TaskUpdateInput.title updates = Some s ->
                 (String.length (JS.trim s) <= 120)%nat) ->
      Forall title_ok (default [] (TASKS_CACHE (snd (Tasks.updateTask id updates w))))).
Proof.
  intros Hold. split; [|split].
  - intros input.
    destruct (createTask_cases input w) as [(m & n & ->)|(t & -> & _ & Ht & Hne & Hlen)].
    + cbn [snd]. simpl_world. now rewrite tasks_prepared_cache.
    + cbn [snd]. simpl_world. cbn [default]. apply Forall_app. split; [exact Hold|].
      constructor; [|constructor]. unfold title_ok. rewrite Ht.
      now apply title_ok_trimmed.
  - intros id.
    destruct (deleteTask_cases id w) as [(m & n & ->)|(before & x & after & Hs & _ & ->)].
    + cbn [snd]. simpl_world. now rewrite tasks_seeded_cache.
    + cbn [snd]. simpl_world. cbn [default]. rewrite Hs in Hold.
      apply Forall_app in Hold as (Hb & Ha). apply Forall_app. split; [exact Hb|].
      now inversion Ha.
  - intros id updates Hshort.
    destruct (updateTask_cases id updates w)
      as [(m & n & ->)|(before & prev & after & Hs & _ & Hrun)].
    + cbn [snd]. simpl_world. now rewrite tasks_seeded_cache.
    + cbv zeta in Hrun. rewrite Hrun. cbn [snd]. simpl_world. cbn [default].
      rewrite Hs in Hold. apply Forall_app in Hold as (Hb & Ha).
      inversion Ha as [|? ? Hprev Hafter]; subst.
      apply Forall_app. split; [exact Hb|]. constructor; [|exact Hafter].
      unfold title_ok, Tasks.merge. cbn [Task.title].
      destruct (Tasks.TaskUpdateInput.title updates) as [s|] eqn:Hs'; [|exact Hprev].
      destruct (JS.truthy (JS.trim s)) eqn:Htruthy; [|exact Hprev].
      apply title_ok_trimmed; [now apply truthy_true | now apply Hshort].
Qed.

Lemma sample_titles_ok : Forall title_ok (tasks_snapshot Sample.busy).
Proof.
  repeat constructor; vm_compute; apply Nat.leb_le; reflexivity.
Qed.

Lemma title_bound_is_kept_witness :
  Forall title_ok
    (default [] (TASKS_CACHE
                   (snd (Tasks.createTask (L := ascii_locale)
                           (Tasks.TaskCreateInput.mk "C00001" "  Send quote " None None
                                                     None) Sample.busy))))
  /\ Forall title_ok
       (default [] (TASKS_CACHE
                      (snd (Tasks.updateTask "T00002"
                              (Tasks.TaskUpdateInput.mk (Some " Demo at noon ") None None
                                                        None None) Sample.busy)))).
Proof.
  pose proof (title_bound_is_kept (L := ascii_locale) Sample.busy sample_titles_ok)
    as (Hcreate & _ & Hupdate).
  split.
  - apply Hcreate.
  - apply Hupdate. intros s [= <-]. vm_compute. apply Nat.leb_le. reflexivity.
Defined.

Lemma NoDup_map_insert_middle {A B : Type} (f : A -> B) (before after : list A)
  (x y : A) :
  f y = f x ->
  map f (before ++ y :: after)%list = map f (before ++ x :: after)%list.
Proof.
  intros H. rewrite !map_app. simpl. now rewrite H.
Qed.

(** X9.  The writes on tasks keep the task store sound, whatever their
    outcome: if, once loaded, the file holds what the cache holds and no
    two tasks share an id, the same is true after [updateTask] and
    [deleteTask], and after [createTask] when the stored ids are a letter
    followed by decimal digits that read below 2^53 - 1. *)
Theorem task_writes_keep_the_store_sound {L : Locale} (w : World) :
  tasks_sound (tasks_seeded w) ->
  (forall input,
      ids_decimal (map Task.id (tasks_snapshot w)) ->
      tasks_sound (snd (Tasks.createTask input w)))
  /\ (forall id updates, tasks_sound (snd (Tasks.updateTask id updates w)))
  /\ (forall id, tasks_sound (snd (Tasks.deleteTask id w))).
Proof.
  intros (l & Hcache & Hjson & Hnd).
  assert (Hsnap : tasks_snapshot w = l) by (unfold tasks_snapshot; now rewrite Hcache).
  assert (Hprepared : tasks_json (tasks_prepared w) = Some l).
  { unfold tasks_prepared.
    destruct (contacts_seeded_frame (tasks_seeded w)) as (_ & -> & _). exact Hjson. }
  split; [|split].
  - intros input _.
    destruct (createTask_cases input w) as [(m & n & ->)|(t & -> & Hid & _)].
    + exists l. cbn [snd]. simpl_world. rewrite tasks_prepared_cache, Hsnap.
      repeat split; assumption.
    + exists (l ++ [t])%list. cbn [snd]. simpl_world. rewrite Hsnap.
      split; [reflexivity|]. split; [reflexivity|].
      unfold task_ids_distinct in *. rewrite map_app. simpl.
      apply List.NoDup_app; [exact Hnd | repeat constructor; intros [] |].
      intros x Hx [<-|[]].
      apply in_map_iff in Hx as (t' & Heq & Hin).
      apply (next_task_id_fresh l t' Hin). rewrite Heq, Hid, Hsnap. reflexivity.
  - intros id updates.
    destruct (updateTask_cases id updates w)
      as [(m & n & ->)|(before & prev & after & Hs & _ & Hrun)].
    + exists l. cbn [snd]. simpl_world. repeat split; assumption.
    + cbv zeta in Hrun. rewrite Hrun. eexists. cbn [snd]. simpl_world.
      split; [reflexivity|]. split; [reflexivity|].
      unfold task_ids_distinct in *.
      rewrite (NoDup_map_insert_middle Task.id before after prev) by reflexivity.
      now rewrite <- Hs, Hsnap.
  - intros id.
    destruct (deleteTask_cases id w) as [(m & n & ->)|(before & x & after & Hs & _ & ->)].
    + exists l. cbn [snd]. simpl_world. repeat split; assumption.
    + eexists. cbn [snd]. simpl_world.
      split; [reflexivity|]. split; [reflexivity|].
      unfold task_ids_distinct in *. rewrite Hsnap in Hs. rewrite Hs in Hnd.
      rewrite map_app in *. simpl in Hnd. eapply List.NoDup_remove_1. exact Hnd.
Qed.

Lemma busy_task_ids_decimal : ids_decimal (map Task.id (tasks_snapshot Sample.busy)).
Proof. repeat constructor. Qed.

Lemma sample_tasks_sound : tasks_sound (tasks_seeded Sample.busy).
Proof.
  exists [Sample.call; Sample.demo; Sample.quote].
  split; [reflexivity|]. split; [reflexivity|].
  repeat constructor; simpl; intuition discriminate.
Qed.

Lemma task_writes_keep_the_store_sound_witness :
  tasks_sound (snd (Tasks.createTask (L := ascii_locale)
                      (Tasks.TaskCreateInput.mk "C00002" "Call back" None None None)
                      Sample.busy))
  /\ tasks_sound (snd (Tasks.deleteTask "T00001" Sample.busy)).
Proof.
  pose proof (task_writes_keep_the_store_sound (L := ascii_locale) Sample.busy
                sample_tasks_sound) as (Hcreate & _ & Hdelete).
  split; [apply Hcreate; exact busy_task_ids_decimal | apply Hdelete].
Defined.

(** ** The outcomes of the writes on contacts *)

Section ContactWrites.

Context {L : Locale}.

Lemma existsb_email_false (email : string) (l : list Contact.t) :
  existsb (fun c => String.eqb (toLowerCase (Contact.email c)) (toLowerCase email)) l
  = false
  <-> forall c, In c l -> toLowerCase (Contact.email c) <> toLowerCase email.
Proof.
  split.
  - intros H c Hc Heq.
    assert (Ht : existsb (fun c => String.eqb (toLowerCase (Contact.email c))
                                              (toLowerCase email)) l = true).
    { apply existsb_exists. exists c. split; [exact Hc | now apply String.eqb_eq]. }
    congruence.
  - intros H. apply not_true_is_false. intros Ht.
    apply existsb_exists in Ht as (c & Hc & Heq).
    apply String.eqb_eq in Heq. exact (H c Hc Heq).
Qed.

Lemma createContact_cases (input : Contacts.ContactCreateInput.t) (w : World) :
  (exists m,
      Contacts.createContact input w = (Throw m, contacts_seeded w)
      /\ isValidationError m = true
      /\ ~ contact_input_valid input (contacts_snapshot w))
  \/ (exists c,
        Contacts.createContact input w
        = (Return c,
           set_contacts_json (Some (c :: contacts_snapshot w))
             (set_CONTACTS_CACHE (Some (c :: contacts_snapshot w))
                (set_ticks (S (ticks (contacts_seeded w))) (contacts_seeded w))))
        /\ Contact.id c = Contacts.nextContactId (contacts_snapshot w)
        /\ Contact.email c = JS.trim (Contacts.ContactCreateInput.email input)
        /\ contact_input_valid input (contacts_snapshot w)).
Proof.
  pose proof (createContact_run input w) as Hrun. cbv zeta in Hrun. rewrite Hrun.
  destruct (JS.truthy (JS.trim (Contacts.ContactCreateInput.firstName input))) eqn:H1.
  2:{ left. eexists. split; [reflexivity|]. split; [reflexivity|].
      intros (Hne & _). now apply truthy_false in H1. }
  destruct (JS.truthy (JS.trim (Contacts.ContactCreateInput.lastName input))) eqn:H2.
  2:{ left. eexists. split; [reflexivity|]. split; [reflexivity|].
      intros (_ & Hne & _). now apply truthy_false in H2. }
  destruct (JS.truthy (JS.trim (Contacts.ContactCreateInput.email input))) eqn:H3.
  2:{ left. eexists. split; [reflexivity|]. split; [reflexivity|].
      intros (_ & _ & Hne & _). now apply truthy_false in H3. }
  cbn [negb orb].
  destruct (existsb _ _) eqn:He.
  - left. eexists. split; [reflexivity|]. split; [reflexivity|].
    intros (_ & _ & _ & Hall). apply existsb_email_false in Hall. congruence.
  - right. eexists. split; [reflexivity|]. cbn [Contact.id Contact.email].
    split; [reflexivity|]. split; [reflexivity|].
    repeat split; try (now apply truthy_true).
    now apply existsb_email_false.
Qed.

Lemma deleteContact_cases (id : string) (w : World) :
  (Contacts.deleteContact id w
   = (Throw "NotFoundError: contact not found", contacts_seeded w)
   /\ forall c, In c (contacts_snapshot w) -> Contact.id c <> id)
  \/ (exists before x after,
        contacts_snapshot w = (before ++ x :: after)%list
        /\ Contact.id x = id
        /\ (forall y, In y before -> Contact.id y <> id)
        /\ Contacts.deleteContact id w
           = (Return true,
              set_tasks_json
                (Some (List.filter (fun t => negb (String.eqb (Task.contactId t) id))
                                   (default [] (tasks_json (contacts_seeded w)))))
                (set_contacts_json (Some (before ++ after)%list)
                   (set_CONTACTS_CACHE (Some (before ++ after)%list)
                      (contacts_seeded w))))).
Proof.
  pose proof (deleteContact_run id w) as Hrun. cbv zeta in Hrun. rewrite Hrun.
  destruct (JS.findIndex _ _) as [idx|] eqn:Hidx.
  - destruct (findIndex_split _ _ _ Hidx)
      as (before & x & after & Hsplit & _ & Hx & Hb & Hsplice & _).
    right. exists before, x, after.
    split; [exact Hsplit|]. split; [now apply String.eqb_eq|].
    split; [|now rewrite Hsplice].
    intros y Hy. apply String.eqb_neq. now apply Hb.
  - left. split; [reflexivity|].
    intros c Hc. apply String.eqb_neq.
    exact (proj1 (findIndex_None_Forall _ _) Hidx c Hc).
Qed.

End ContactWrites.

(** X10.  The writes on contacts keep the contact store sound, whatever
    their outcome: if, once loaded, the file holds what the cache holds, no
    two contacts share an id and no two share an email (case aside), the
    same is true after [deleteContact], and after [createContact] when the
    stored ids are a letter followed by decimal digits that read below
    2^53 - 1. *)
Theorem contact_writes_keep_the_store_sound {L : Locale} (w : World) :
  contacts_sound (contacts_seeded w) ->
  (forall input,
      ids_decimal (map Contact.id (contacts_snapshot w)) ->
      contacts_sound (snd (Contacts.createContact input w)))
  /\ (forall id, contacts_sound (snd (Contacts.deleteContact id w))).
Proof.
  intros Hsound.
  assert (Hsnap : exists l, contacts_snapshot w = l
                            /\ CONTACTS_CACHE (contacts_seeded w) = Some l
                            /\ contacts_json (contacts_seeded w) = Some l
                            /\ contact_ids_distinct l /\ contact_emails_distinct l).
  { destruct Hsound as (l & Hc & Hj & Hids & Hem). exists l.
    unfold contacts_snapshot. rewrite Hc. repeat split; assumption. }
  destruct Hsnap as (l & Hsnap & Hc & Hj & Hids & Hem).
  split.
  - intros input _.
    destruct (createContact_cases input w)
      as [(m & -> & _)|(c & -> & Hid & Hemail & _ & _ & _ & Hfresh)].
    + exact Hsound.
    + rewrite Hsnap in *. exists (c :: l). cbn [snd]. simpl_world.
      split; [reflexivity|]. split; [reflexivity|]. split.
      * unfold contact_ids_distinct. simpl. constructor; [|exact Hids].
        intros Hin. apply in_map_iff in Hin as (c' & Heq & Hin).
        apply (nextContactId_fresh l c' Hin). congruence.
      * unfold contact_emails_distinct. simpl. constructor; [|exact Hem].
        intros Hin. apply in_map_iff in Hin as (c' & Heq & Hin).
        apply (Hfresh c' Hin). congruence.
  - intros id.
    destruct (deleteContact_cases id w)
      as [(-> & _)|(before & x & after & Hsplit & _ & _ & ->)].
    + exact Hsound.
    + rewrite Hsnap in Hsplit. rewrite Hsplit in Hids, Hem.
      eexists. cbn [snd]. simpl_world.
      split; [reflexivity|]. split; [reflexivity|].
      unfold contact_ids_distinct, contact_emails_distinct in *.
      rewrite !map_app in *. simpl in Hids, Hem.
      split; eapply List.NoDup_remove_1; eassumption.
Qed.

Lemma busy_contact_ids_decimal :
  ids_decimal (map Contact.id (contacts_snapshot (L := ascii_locale) Sample.busy)).
Proof. repeat constructor. Qed.

Lemma sample_contacts_sound :
  contacts_sound (L := ascii_locale) (contacts_seeded (L := ascii_locale) Sample.busy).
Proof.
  exists [Sample.ada; Sample.grace].
  split; [reflexivity|]. split; [reflexivity|].
  split; repeat constructor; simpl; intuition discriminate.
Qed.

Lemma contact_writes_keep_the_store_sound_witness :
  contacts_sound (L := ascii_locale)
    (snd (Contacts.createContact (L := ascii_locale)
            (Contacts.ContactCreateInput.mk "Alan" "Turing" "alan@z.net" None None None
                                            None None) Sample.busy))
  /\ contacts_sound (L := ascii_locale)
       (snd (Contacts.deleteContact (L := ascii_locale) "C00001" Sample.busy)).
Proof.
  pose proof (contact_writes_keep_the_store_sound (L := ascii_locale) Sample.busy
                sample_contacts_sound) as (Hcreate & Hdelete).
  split; [apply Hcreate; exact busy_contact_ids_decimal | apply Hdelete].
Defined.

(** X11.  The writes on contacts have no simulated failure.
    [createContact] returns exactly for the valid inputs, and otherwise
    throws a ValidationError; [deleteContact] returns exactly when a contact
    has the id, and otherwise throws a NotFoundError; a call that throws
    leaves the world as loading the contacts left it. *)
Theorem contact_writes_fail_only_on_their_input {L : Locale} (w : World) :
  (forall input,
      (exists c w', Contacts.createContact input w = (Return c, w'))
      <-> contact_input_valid input (contacts_snapshot w))
  /\ (forall input m w',
        Contacts.createContact input w = (Throw m, w') ->
        isValidationError m = true /\ w' = contacts_seeded w)
  /\ (forall id,
        (exists w', Contacts.deleteContact id w = (Return true, w'))
        <-> exists c, In c (contacts_snapshot w) /\ Contact.id c = id)
  /\ (forall id m w',
        Contacts.deleteContact id w = (Throw m, w') ->
        isNotFoundError m = true /\ w' = contacts_seeded w).
Proof.
  split; [|split; [|split]].
  - intros input.
    destruct (createContact_cases input w)
      as [(m & Hrun & _ & Hinvalid)|(c & Hrun & _ & _ & Hvalid)]; rewrite Hrun.
    + split; [intros (c & w' & [=]) | intros Hvalid; contradiction].
    + split; [intros _; exact Hvalid | intros _; eauto].
  - intros input m w' Hthrow.
    destruct (createContact_cases input w)
      as [(m0 & Hrun & Hm & _)|(c & Hrun & _)]; rewrite Hrun in Hthrow.
    + injection Hthrow as <- <-. split; [exact Hm | reflexivity].
    + discriminate.
  - intros id.
    destruct (deleteContact_cases id w)
      as [(Hrun & Hnone)|(before & x & after & Hsplit & Hx & _ & Hrun)]; rewrite Hrun.
    + split; [intros (w' & [=]) | intros (c & Hc & Hid); now destruct (Hnone c Hc)].
    + split; [|intros _; eauto].
      intros _. exists x. split; [|exact Hx].
      rewrite Hsplit. apply in_or_app. right. now left.
  - intros id m w' Hthrow.
    destruct (deleteContact_cases id w)
      as [(Hrun & _)|(before & x & after & _ & _ & _ & Hrun)]; rewrite Hrun in Hthrow.
    + injection Hthrow as <- <-. split; reflexivity.
    + discriminate.
Qed.

Lemma sample_new_contact_valid :
  contact_input_valid (L := ascii_locale)
    (Contacts.ContactCreateInput.mk "Alan" "Turing" "alan@z.net" None None None None
                                    None)
    (contacts_snapshot (L := ascii_locale) Sample.busy).
Proof.
  repeat split; try discriminate.
  intros c [<-|[<-|[]]]; discriminate.
Qed.

Lemma contact_writes_fail_only_on_their_input_witness :
  (exists c w',
      Contacts.createContact (L := ascii_locale)
        (Contacts.ContactCreateInput.mk "Alan" "Turing" "alan@z.net" None None None
                                        None None) Sample.busy
      = (Return c, w'))
  /\ (isNotFoundError "NotFoundError: contact not found" = true
      /\ Sample.busy = contacts_seeded (L := ascii_locale) Sample.busy).
Proof.
  pose proof (contact_writes_fail_only_on_their_input (L := ascii_locale) Sample.busy)
    as (Hcreate & _ & _ & Hdelete).
  split.
  - apply Hcreate. exact sample_new_contact_valid.
  - apply (Hdelete "C00009"). reflexivity.
Defined.

Example createContact_duplicate_email :
  Contacts.createContact (L := ascii_locale)
    (Contacts.ContactCreateInput.mk "Augusta" "King" "  ADA@X.COM " None None None None
                                    None) Sample.busy
  = (Throw "ValidationError: email already exists", Sample.busy).
Proof. reflexivity. Qed.

(** ** Deleting a contact, then writing tasks *)

(** X12.  The tasks that [deleteContact] removed from the tasks file come
    back with the next write on tasks.  When the tasks are loaded,
    [deleteContact] filters the file and leaves the cache; a [createTask]
    that returns afterwards writes the whole cache and the new task, and an
    [updateTask] or [deleteTask] that returns writes every cached task but
    the one it was called on, the tasks of the deleted contact among
    them. *)
Theorem cascade_is_undone_by_the_next_task_write {L : Locale}
  (w w' : World) (id : string) (l : list Task.t) :
  TASKS_CACHE w = Some l ->
  Contacts.deleteContact id w = (Return true, w') ->
  (forall input t w'',
      Tasks.createTask input w' = (Return t, w'') ->
      tasks_json w'' = Some (l ++ [t])%list)
  /\ (forall tid updates t w'',
        Tasks.updateTask tid updates w' = (Return t, w'') ->
        forall x, In x l -> Task.id x <> tid -> In x (default [] (tasks_json w'')))
  /\ (forall tid w'',
        Tasks.deleteTask tid w' = (Return true, w'') ->
        forall x, In x l -> Task.id x <> tid -> In x (default [] (tasks_json w''))).
Proof.
  intros Hl Hdel.
  assert (Hcache : TASKS_CACHE w' = Some l).
  { destruct (deleteContact_cases id w)
      as [(Hrun & _)|(before & x & after & _ & _ & _ & Hrun)];
      rewrite Hrun in Hdel; [discriminate|].
    injection Hdel as <-. simpl_world.
    destruct (contacts_seeded_frame w) as (-> & _). exact Hl. }
  pose proof (tasks_snapshot_loaded w' l Hcache) as Hsnap.
  split; [|split].
  - intros input t w'' Hrun.
    destruct (createTask_cases input w') as [(m & n & Hc)|(t0 & Hc & _)];
      rewrite Hc in Hrun; [discriminate|].
    injection Hrun as -> <-. simpl_world. now rewrite Hsnap.
  - intros tid updates t w'' Hrun x Hx Hne.
    destruct (updateTask_cases tid updates w')
      as [(m & n & Hc)|(before & prev & after & Hsplit & Hid & Hc)].
    + rewrite Hc in Hrun. discriminate.
    + cbv zeta in Hc. rewrite Hc in Hrun. injection Hrun as _ <-.
      simpl_world. cbn [default]. rewrite Hsnap in Hsplit. rewrite Hsplit in Hx.
      apply in_app_or in Hx as [Hx|[->|Hx]].
      * apply in_or_app. now left.
      * now destruct Hne.
      * apply in_or_app. right. now right.
  - intros tid w'' Hrun x Hx Hne.
    destruct (deleteTask_cases tid w')
      as [(m & n & Hc)|(before & y & after & Hsplit & Hid & Hc)];
      rewrite Hc in Hrun; [discriminate|].
    injection Hrun as <-. simpl_world. cbn [default].
    rewrite Hsnap in Hsplit. rewrite Hsplit in Hx.
    apply in_app_or in Hx as [Hx|[->|Hx]].
    + apply in_or_app. now left.
    + now destruct Hne.
    + apply in_or_app. now right.
Qed.

Lemma cascade_is_undone_by_the_next_task_write_witness :
  tasks_json (snd (Contacts.deleteContact (L := ascii_locale) "C00001" Sample.busy))
  = Some [Sample.demo]
  /\ forall t w'',
      Tasks.createTask (L := ascii_locale)
        (Tasks.TaskCreateInput.mk "C00002" "Call back" None None None)
        (snd (Contacts.deleteContact (L := ascii_locale) "C00001" Sample.busy))
      = (Return t, w'') ->
      tasks_json w'' = Some [Sample.call; Sample.demo; Sample.quote; t].
Proof.
  split; [reflexivity|].
  exact (proj1 (cascade_is_undone_by_the_next_task_write (L := ascii_locale)
                  Sample.busy _ "C00001" [Sample.call; Sample.demo; Sample.quote]
                  eq_refl eq_refl)
           (Tasks.TaskCreateInput.mk "C00002" "Call back" None None None)).
Defined.

Example tasks_of_deleted_contact_come_back :
  tasks_json
    (snd (Tasks.createTask (L := ascii_locale)
            (Tasks.TaskCreateInput.mk "C00002" "Call back" None None None)
            (snd (Contacts.deleteContact (L := ascii_locale) "C00001" Sample.busy))))
  = Some [Sample.call; Sample.demo; Sample.quote;
          Task.mk "T00004" "C00002" "Call back" None None false Task.medium 5000 5000].
Proof. reflexivity. Qed.

(** ** Creating a task, then deleting it *)

Lemma findIndex_app_last {A : Type} (p : A -> bool) (l : list A) (x : A) :
  (forall y, In y l -> p y = false) -> p x = true ->
  JS.findIndex p (l ++ [x])%list = Some (length l).
Proof.
  intros Hl Hx. induction l as [|y l IH]; simpl.
  - now rewrite Hx.
  - rewrite (Hl y) by now left. rewrite IH; [reflexivity|].
    intros z Hz. apply Hl. now right.
Qed.

Lemma splice1_last {A : Type} (l : list A) (x : A) :
  JS.splice1 (length l) (l ++ [x])%list = l.
Proof.
  unfold JS.splice1.
  rewrite firstn_app, firstn_all, Nat.sub_diag. simpl.
  rewrite skipn_all2 by (rewrite length_app; simpl; lia).
  now rewrite !app_nil_r.
Qed.

(** X13.  Deleting the task that [createTask] has just returned undoes the
    creation, for stored ids that are a letter followed by decimal digits
    that read below 2^53 - 1: when the simulated failure does not fire,
    [deleteTask] on the new id returns true and leaves, in memory and on
    disk, the tasks there were before the creation; and the id is given
    again, to the next task that is created. *)
Theorem deleting_the_newest_task_frees_its_id {L : Locale}
  (w w1 : World) (input : Tasks.TaskCreateInput.t) (t : Task.t) :
  ids_decimal (map Task.id (tasks_snapshot w)) ->
  Tasks.createTask input w = (Return t, w1) ->
  Qltb (upcoming 1 w1) (12 # 100) = false ->
  exists w2,
    Tasks.deleteTask (Task.id t) w1 = (Return true, w2)
    /\ TASKS_CACHE w2 = Some (tasks_snapshot w)
    /\ tasks_json w2 = Some (tasks_snapshot w)
    /\ forall input' t' w3,
        Tasks.createTask input' w2 = (Return t', w3) -> Task.id t' = Task.id t.
Proof.
  intros _ Hcreate Hok.
  destruct (createTask_cases input w) as [(m & n & Hc)|(t0 & Hc & Hid & _)];
    rewrite Hc in Hcreate; [discriminate|].
  injection Hcreate as -> Hw1.
  assert (Hcache : TASKS_CACHE w1 = Some (tasks_snapshot w ++ [t])%list)
    by (rewrite <- Hw1; reflexivity).
  pose proof (tasks_seeded_loaded w1 _ Hcache) as Hseed.
  pose proof (tasks_snapshot_loaded w1 _ Hcache) as Hsnap.
  pose proof (deleteTask_run (Task.id t) w1) as Hrun. cbv zeta in Hrun.
  rewrite Hseed, Hsnap, Hok in Hrun.
  rewrite findIndex_app_last, splice1_last in Hrun.
  - eexists. split; [exact Hrun|]. simpl_world.
    split; [reflexivity|]. split; [reflexivity|].
    intros input' t' w3 Hagain.
    match type of Hagain with
    | Tasks.createTask _ ?w2 = _ =>
        pose proof (tasks_snapshot_loaded w2 (tasks_snapshot w) eq_refl) as Hsnap2;
        destruct (createTask_cases input' w2) as [(m & n & Hc')|(t1 & Hc' & Hid' & _)];
        rewrite Hc' in Hagain; [discriminate|]
    end.
    injection Hagain as -> _. rewrite Hid', Hsnap2. now rewrite Hid.
  - intros y Hy. apply String.eqb_neq. rewrite Hid. now apply next_task_id_fresh.
  - apply String.eqb_refl.
Qed.

Lemma deleting_the_newest_task_frees_its_id_witness :
  exists w2,
    Tasks.deleteTask "T00004"
      (snd (Tasks.createTask (L := ascii_locale)
              (Tasks.TaskCreateInput.mk "C00002" "Call back" None None None)
              Sample.busy))
    = (Return true, w2)
    /\ TASKS_CACHE w2 = Some [Sample.call; Sample.demo; Sample.quote]
    /\ tasks_json w2 = Some [Sample.call; Sample.demo; Sample.quote].
Proof.
  destruct (deleting_the_newest_task_frees_its_id (L := ascii_locale) Sample.busy _
              (Tasks.TaskCreateInput.mk "C00002" "Call back" None None None)
              (Task.mk "T00004" "C00002" "Call back" None None false Task.medium
                       5000 5000)
              busy_task_ids_decimal eq_refl eq_refl)
    as (w2 & Hrun & Hcache & Hjson & _).
  exists w2. repeat split; assumption.
Defined.

(** ** Seeding *)

Lemma frac_bounds (q : Q) : (0 <= frac q)%Q /\ (frac q < 1)%Q.
Proof.
  unfold frac. pose proof (Qfloor_le q) as Hle. pose proof (Qlt_floor q) as Hlt.
  rewrite inject_Z_plus in Hlt. change (inject_Z 1) with 1%Q in Hlt. split; lra.
Qed.

Lemma Qfloor_nonneg (x : Q) : (0 <= x)%Q -> 0 <= Qfloor x.
Proof. intros H. exact (Qfloor_resp_le 0 x H). Qed.

Lemma Qfloor_lt_Z (x : Q) (d : Z) : (x < inject_Z d)%Q -> Qfloor x < d.
Proof.
  intros H. rewrite Zlt_Qlt. pose proof (Qfloor_le x). lra.
Qed.

(** [Math.floor(r * d)] for a draw [r] and a whole [d]. *)
Lemma floor_scaled (r : Q) (d : Z) :
  (0 <= r)%Q -> (r < 1)%Q -> 0 <= d ->
  0 <= Math_floor (r * inject_Z d) <= d
  /\ (0 < d -> Math_floor (r * inject_Z d) < d).
Proof.
  intros H0 H1 Hd. unfold Math_floor.
  assert (Hd' : (0 <= inject_Z d)%Q).
  { change 0%Q with (inject_Z 0). now rewrite <- Zle_Qle. }
  assert (Hlo : (0 <= r * inject_Z d)%Q) by now apply Qmult_le_0_compat.
  split; [split|].
  - now apply Qfloor_nonneg.
  - destruct (Z.eq_dec d 0) as [->|Hne].
    + assert (Hz : (r * inject_Z 0 == 0)%Q) by (change (inject_Z 0) with 0%Q; lra).
      rewrite Hz. reflexivity.
    + apply Z.lt_le_incl, Qfloor_lt_Z.
      assert (Hpos : (0 < inject_Z d)%Q).
      { change 0%Q with (inject_Z 0). rewrite <- Zlt_Qlt. lia. }
      pose proof (Qmult_lt_compat_r r 1 (inject_Z d) Hpos H1). lra.
  - intros Hpos. apply Qfloor_lt_Z.
    assert (Hpos' : (0 < inject_Z d)%Q).
    { change 0%Q with (inject_Z 0). now rewrite <- Zlt_Qlt. }
    pose proof (Qmult_lt_compat_r r 1 (inject_Z d) Hpos' H1). lra.
Qed.

(** The index [randomChoice] computes is within the table. *)
Lemma choice_index (q : Q) (n : nat) :
  (0 < n)%nat ->
  (Z.to_nat (Math_floor (frac q * inject_Z (Z.of_nat n))) < n)%nat.
Proof.
  intros Hn. destruct (frac_bounds q) as (H0 & H1).
  destruct (floor_scaled (frac q) (Z.of_nat n) H0 H1 ltac:(lia)) as ((Hlo & _) & Hlt).
  specialize (Hlt ltac:(lia)). lia.
Qed.

(** Every city of the table is found in it, at an index where the table
    of states has an entry. *)
Lemma city_index (m : nat) :
  (m < 10)%nat ->
  exists k s,
    JS.findIndex (String.eqb (nth m Contacts.cities "")) Contacts.cities = Some k
    /\ nth_error Contacts.states k = Some s
    /\ In (nth m Contacts.cities "", s) (combine Contacts.cities Contacts.states).
Proof.
  intros Hm.
  do 10 (destruct m as [|m];
         [eexists _, _; split; [reflexivity|]; split; [reflexivity|];
          simpl; repeat (first [left; reflexivity | right])|]).
  lia.
Qed.

Section SeedingContacts.

Context {L : Locale}.

Lemma seedContact_spec (now i : Z) (w : World) :
  exists c,
    Contacts.seedContact now i w = (Return c, set_drawn (8 + drawn w) w)
    /\ Contact.id c = "C" ++ Contacts.pad i 5
    /\ seeded_ok now c.
Proof.
  unfold Contacts.seedContact, Contacts.randomChoice, Math_random, ret, bind.
  cbn beta iota.
  match goal with
  | |- context [JS.findIndex (String.eqb (nth ?m ?l ?d)) ?l] =>
      destruct (city_index m) as (k & s & Hk & Hs & Hpair);
      [apply (choice_index _ 10); lia | rewrite Hk, Hs]
  end.
  eexists. split; [reflexivity|]. split; [reflexivity|].
  unfold seeded_ok.
  cbn [Contact.createdAt Contact.lastActivityAt Contact.city Contact.state].
  match goal with
  | |- context [Math_floor (?r * 1000 * 60 * 60 * 24 * 365)] =>
      assert (Hyear : 0 <= Math_floor (r * 1000 * 60 * 60 * 24 * 365) < 31536000000)
  end.
  { unfold upcoming.
    match goal with
    | |- context [frac ?q] => destruct (frac_bounds q) as (H0 & H1)
    end.
    split.
    - apply Qfloor_nonneg. lra.
    - apply Qfloor_lt_Z. change (inject_Z 31536000000) with (31536000000 # 1)%Q. lra. }
  match goal with
  | |- context [Math_floor (?r * inject_Z ?d)] =>
      assert (Hspan : 0 <= Math_floor (r * inject_Z d) <= d)
  end.
  { unfold upcoming at 1.
    match goal with
    | |- context [Math_floor (frac ?q * _)] => destruct (frac_bounds q) as (H0 & H1)
    end.
    apply floor_scaled; [exact H0 | exact H1 | lia]. }
  split; [lia|]. split; [lia|]. split; [lia|]. exact Hpair.
Qed.

Lemma seedContacts_loop_spec (n : nat) (now i : Z) (out : list Contact.t) (w : World) :
  exists l,
    Contacts.seedContacts_loop n now i out w
    = (Return (out ++ l)%list, set_drawn (8 * n + drawn w) w)
    /\ map Contact.id l
       = map (fun j => "C" ++ Contacts.pad (i + Z.of_nat j) 5) (seq 0 n)
    /\ Forall (seeded_ok now) l.
Proof.
  revert i out w. induction n as [|n IH]; intros i out w.
  - exists []. simpl. unfold ret. rewrite app_nil_r, set_drawn_same.
    repeat split. constructor.
  - cbn [Contacts.seedContacts_loop]. unfold bind at 1.
    destruct (seedContact_spec now i w) as (c & -> & Hid & Hok).
    destruct (IH (i + 1) (out ++ [c])%list (set_drawn (8 + drawn w) w))
      as (l & -> & Hids & Hall).
    exists (c :: l). split; [|split].
    + f_equal; [now rewrite <- app_assoc|].
      simpl_world. unfold set_drawn. f_equal. lia.
    + cbn [map seq]. rewrite Hid, Z.add_0_r. f_equal.
      rewrite Hids, <- seq_shift, map_map. apply map_ext.
      intros j. do 2 f_equal. lia.
    + now constructor.
Qed.

Lemma contacts_seeded_fresh (w : World) :
  CONTACTS_CACHE w = None ->
  default [] (contacts_json w) = [] ->
  exists l,
    contacts_seeded w
    = set_contacts_json (Some l)
        (set_CONTACTS_CACHE (Some l)
           (set_drawn (8 * Z.to_nat 12000 + drawn w) (set_ticks (S (ticks w)) w)))
    /\ map Contact.id l
       = map (fun j => "C" ++ Contacts.pad (1 + Z.of_nat j) 5) (seq 0 (Z.to_nat 12000))
    /\ Forall (seeded_ok (clock w (ticks w))) l.
Proof.
  intros Hcache Hfile.
  unfold contacts_seeded, Contacts.ensureSeeded, Contacts.seedContacts.
  generalize (Z.to_nat 12000). intros n.
  unfold Store.readJson, Store.writeJson, bind. cbn beta iota.
  unfold gets, Date_now, modify. cbn beta iota. rewrite Hcache. cbn beta iota.
  destruct (contacts_json w) as [[|c l]|]; [|discriminate Hfile|];
    match goal with
    | |- context [Contacts.seedContacts_loop n ?now ?i ?out ?w0] =>
        destruct (seedContacts_loop_spec n now i out w0) as (l' & -> & Hids & Hall)
    end; exists l'; (split; [reflexivity|]); split; assumption.
Qed.

End SeedingContacts.

Lemma NoDup_map_of_nat (l : list nat) : List.NoDup l -> List.NoDup (map Z.of_nat l).
Proof.
  induction 1 as [|x l Hx Hl IH]; simpl; constructor; [|exact IH].
  intros Hin. apply in_map_iff in Hin as (y & Heq & Hy).
  apply Nat2Z.inj in Heq. now subst.
Qed.

(** X14.  On a store with no contacts (no file, or an empty list in it)
    the first call of the contacts service makes 12000 contacts and writes
    them to the file: their ids are C00001, C00002, ... in this order, all
    distinct; each was created within the 365 days before the seeding, has
    its last activity between its creation and the seeding, and has the
    state of its city; the seeding reads the clock once and takes eight
    draws per contact. *)
Theorem fresh_store_is_seeded {L : Locale} (w : World) :
  CONTACTS_CACHE w = None ->
  default [] (contacts_json w) = [] ->
  length (contacts_snapshot w) = Z.to_nat 12000
  /\ map Contact.id (contacts_snapshot w)
     = map (fun k => "C" ++ zero_padded 5 (Z.of_nat k)) (seq 1 (Z.to_nat 12000))
  /\ contact_ids_distinct (contacts_snapshot w)
  /\ Forall (seeded_ok (clock w (ticks w))) (contacts_snapshot w)
  /\ contacts_json (contacts_seeded w) = Some (contacts_snapshot w)
  /\ ticks (contacts_seeded w) = S (ticks w)
  /\ drawn (contacts_seeded w) = (8 * Z.to_nat 12000 + drawn w)%nat.
Proof.
  intros Hcache Hfile.
  destruct (contacts_seeded_fresh w Hcache Hfile) as (l & Hw & Hids & Hall).
  unfold contacts_snapshot. rewrite Hw. clear Hw.
  generalize dependent (Z.to_nat 12000). intros n Hids.
  simpl_world. cbn [default from_option id].
  assert (Hids' : map Contact.id l
                  = map (fun k => "C" ++ zero_padded 5 (Z.of_nat k)) (seq 1 n)).
  { rewrite Hids, <- seq_shift, map_map. apply map_ext.
    intros j. rewrite contacts_pad_zero_padded. do 2 f_equal. lia. }
  split; [|split; [exact Hids'|split; [|repeat split; assumption]]].
  - rewrite <- (length_map Contact.id), Hids, length_map. apply length_seq.
  - unfold contact_ids_distinct. apply (List.NoDup_map_inv Contacts.suffix).
    rewrite Hids', map_map.
    rewrite (map_ext_in _ Z.of_nat).
    + apply NoDup_map_of_nat, seq_NoDup.
    + intros k _. apply (suffix_of_padded "C"). lia.
Qed.

Lemma fresh_store_is_seeded_witness :
  length (contacts_snapshot (L := ascii_locale) fresh_world) = Z.to_nat 12000
  /\ contact_ids_distinct (contacts_snapshot (L := ascii_locale) fresh_world).
Proof.
  destruct (fresh_store_is_seeded (L := ascii_locale) fresh_world eq_refl eq_refl)
    as (Hlen & _ & Hnd & _).
  split; assumption.
Defined.

(** ** Loading *)

Lemma tasks_seeded_unloaded (w : World) :
  TASKS_CACHE w = None ->
  tasks_seeded w
  = match tasks_json w with
    | Some l => set_TASKS_CACHE (Some l) w
    | None => set_tasks_json (Some []) (set_TASKS_CACHE (Some []) (set_ticks (S (ticks w)) w))
    end.
Proof.
  intros H. unfold tasks_seeded, Tasks.ensureSeeded, bind, gets. rewrite H.
  cbn beta iota. unfold Store.readJson, gets. cbn beta iota.
  destruct (tasks_json w); reflexivity.
Qed.

(** X15.  Loading a collection a second time changes nothing, and a
    collection that was not in memory is, once loaded, the one its file
    holds: read from the file, or made and written to it.  The tasks are
    loaded from any file there is, an empty one too, and start empty
    without one; loading them takes no draw and leaves the contacts. *)
Theorem loading_mirrors_the_file {L : Locale} (w : World) :
  contacts_seeded (contacts_seeded w) = contacts_seeded w
  /\ tasks_seeded (tasks_seeded w) = tasks_seeded w
  /\ (CONTACTS_CACHE w = None ->
      contacts_json (contacts_seeded w) = CONTACTS_CACHE (contacts_seeded w))
  /\ (TASKS_CACHE w = None ->
      tasks_json (tasks_seeded w) = TASKS_CACHE (tasks_seeded w)
      /\ tasks_snapshot w = default [] (tasks_json w))
  /\ CONTACTS_CACHE (tasks_seeded w) = CONTACTS_CACHE w
  /\ contacts_json (tasks_seeded w) = contacts_json w
  /\ drawn (tasks_seeded w) = drawn w.
Proof.
  split; [|split; [|split; [|split]]].
  - apply (contacts_seeded_loaded _ _ (contacts_seeded_cache w)).
  - apply (tasks_seeded_loaded _ _ (tasks_seeded_cache w)).
  - intros Hcache.
    destruct (contacts_json w) as [[|c l]|] eqn:Hfile.
    + destruct (contacts_seeded_fresh w Hcache) as (l' & -> & _);
        [now rewrite Hfile | reflexivity].
    + unfold contacts_seeded, Contacts.ensureSeeded, bind, gets. rewrite Hcache.
      cbn beta iota. unfold Store.readJson, gets. cbn beta iota. rewrite Hfile.
      unfold modify. cbn [snd]. simpl_world. exact Hfile.
    + destruct (contacts_seeded_fresh w Hcache) as (l' & -> & _);
        [now rewrite Hfile | reflexivity].
  - intros Hcache. unfold tasks_snapshot. rewrite (tasks_seeded_unloaded w Hcache).
    destruct (tasks_json w) eqn:Hfile; simpl_world; [|split; reflexivity].
    split; [exact Hfile | reflexivity].
  - destruct (TASKS_CACHE w) as [l|] eqn:Hcache.
    + rewrite (tasks_seeded_loaded w l Hcache). repeat split.
    + rewrite (tasks_seeded_unloaded w Hcache).
      destruct (tasks_json w); repeat split.
Qed.

Lemma loading_mirrors_the_file_witness :
  contacts_json (contacts_seeded (L := ascii_locale) fresh_world)
  = CONTACTS_CACHE (contacts_seeded (L := ascii_locale) fresh_world)
  /\ tasks_json (tasks_seeded fresh_world) = TASKS_CACHE (tasks_seeded fresh_world)
  /\ tasks_snapshot fresh_world = [].
Proof.
  pose proof (loading_mirrors_the_file (L := ascii_locale) fresh_world)
    as (_ & _ & Hcontacts & Htasks & _).
  split; [exact (Hcontacts eq_refl) | exact (Htasks eq_refl)].
Defined.

(** ** The routes *)

Lemma updateTask_throws (id : string) (updates : Tasks.TaskUpdateInput.t) (w : World)
  (m : string) (w' : World) :
  Tasks.updateTask id updates w = (Throw m, w') ->
  (m = "TransientError: simulate mutation failure" \/ m = "NotFoundError: task not found")
  /\ w' = set_drawn (2 + drawn (tasks_seeded w)) (tasks_seeded w).
Proof.
  pose proof (updateTask_run id updates w) as Hrun. cbv zeta in Hrun. rewrite Hrun.
  destruct (Qltb _ _); [intros [= <- <-]; auto|].
  destruct (JS.find _ _); [destruct (JS.findIndex _ _)|]; intros [= <- <-]; auto.
Qed.

Lemma deleteTask_throws (id : string) (w : World) (m : string) (w' : World) :
  Tasks.deleteTask id w = (Throw m, w') ->
  (m = "TransientError: simulate mutation failure" \/ m = "NotFoundError: task not found")
  /\ w' = set_drawn (2 + drawn (tasks_seeded w)) (tasks_seeded w).
Proof.
  pose proof (deleteTask_run id w) as Hrun. cbv zeta in Hrun. rewrite Hrun.
  destruct (Qltb _ _); [intros [= <- <-]; auto|].
  destruct (JS.findIndex _ _); intros [= <- <-]; auto.
Qed.

Section Routes.

Context {L : Locale}.

Lemma getContact_throws (id : string) (w : World) (m : string) (w' : World) :
  Contacts.getContact id w = (Throw m, w') ->
  (m = "TransientError: simulated network failure"
   \/ m = "NotFoundError: contact not found")
  /\ w' = set_drawn (2 + drawn (contacts_seeded w)) (contacts_seeded w).
Proof.
  pose proof (getContact_run id w) as Hrun. cbv zeta in Hrun. rewrite Hrun.
  destruct (Qltb _ _); [intros [= <- <-]; auto|].
  destruct (JS.find _ _); intros [= <- <-]; auto.
Qed.

Lemma tasks_POST_run (body : Tasks.TaskCreateInput.t) (w : World) :
  Api.tasks.POST (ret body) w
  = match Tasks.createTask body w with
    | (Return task, w') => (Return (Api.mkResponse (Api.Json task) 201), w')
    | (Throw m, w') =>
        (Return (Api.mkResponse
                   (Api.Message (Api.messageOf m))
                   (if String.prefix "ValidationError" (Api.messageOf m) then 400
                    else if String.prefix "NotFoundError" (Api.messageOf m) then 404
                    else 503)), w')
    end.
Proof.
  unfold Api.tasks.POST, Api.try_catch_err, bind, ret.
  destruct (Tasks.createTask body w) as [[task|m] w']; reflexivity.
Qed.

Lemma tasks_PATCH_run (body : Tasks.TaskUpdateInput.t) (id : string) (w : World) :
  Api.tasks_id.PATCH (ret body) id w
  = match Tasks.updateTask id body w with
    | (Return task, w') => (Return (Api.mkResponse (Api.Json task) 200), w')
    | (Throw m, w') =>
        (Return (Api.mkResponse
                   (Api.Message (Api.messageOf m))
                   (if String.prefix "ValidationError" (Api.messageOf m) then 400
                    else if String.prefix "NotFoundError" (Api.messageOf m) then 404
                    else 503)), w')
    end.
Proof.
  unfold Api.tasks_id.PATCH, Api.try_catch_err, bind, ret.
  destruct (Tasks.updateTask id body w) as [[task|m] w']; reflexivity.
Qed.

Lemma tasks_DELETE_run (id : string) (w : World) :
  Api.tasks_id.DELETE id w
  = match Tasks.deleteTask id w with
    | (Return _, w') => (Return (Api.mkResponse (Api.Json true) 200), w')
    | (Throw m, w') =>
        (Return (Api.mkResponse
                   (Api.Message (Api.messageOf m))
                   (if String.prefix "NotFoundError" (Api.messageOf m) then 404
                    else 503)), w')
    end.
Proof.
  unfold Api.tasks_id.DELETE, Api.try_catch_err, bind, ret.
  destruct (Tasks.deleteTask id w) as [[b|m] w']; reflexivity.
Qed.

Lemma contacts_POST_run (body : Contacts.ContactCreateInput.t) (w : World) :
  Api.contacts.POST (ret body) w
  = match Contacts.createContact body w with
    | (Return contact, w') => (Return (Api.mkResponse (Api.Json contact) 201), w')
    | (Throw m, w') =>
        (Return (Api.mkResponse
                   (Api.Message (Api.messageOf m))
                   (if String.prefix "ValidationError" (Api.messageOf m) then 400
                    else 503)), w')
    end.
Proof.
  unfold Api.contacts.POST, Api.try_catch_err, bind, ret.
  destruct (Contacts.createContact body w) as [[contact|m] w']; reflexivity.
Qed.

Lemma contacts_GET_run (id : string) (w : World) :
  Api.contacts_id.GET id w
  = if JS.truthy id
    then match Contacts.getContact id w with
         | (Return c, w') => (Return (Api.mkResponse (Api.Json c) 200), w')
         | (Throw m, w') =>
             (Return (Api.mkResponse
                        (Api.Message (Api.messageOf m))
                        (if String.prefix "NotFoundError" (Api.messageOf m) then 404
                         else 503)), w')
         end
    else (Return (Api.mkResponse (Api.Message "BadRequest: missing id") 400), w).
Proof.
  unfold Api.contacts_id.GET, Api.try_catch_err, bind, ret.
  destruct (JS.truthy id); [|reflexivity]. cbn [negb].
  destruct (Contacts.getContact id w) as [[c|m] w']; reflexivity.
Qed.

Lemma contacts_DELETE_run (id : string) (w : World) :
  Api.contacts_id.DELETE id w
  = if JS.truthy id
    then match Contacts.deleteContact id w with
         | (Return _, w') => (Return (Api.mkResponse (Api.Json true) 200), w')
         | (Throw m, w') =>
             (Return (Api.mkResponse
                        (Api.Message (Api.messageOf m))
                        (if String.prefix "NotFoundError" (Api.messageOf m) then 404
                         else 503)), w')
         end
    else (Return (Api.mkResponse (Api.Message "BadRequest: missing id") 400), w).
Proof.
  unfold Api.contacts_id.DELETE, Api.try_catch_err, bind, ret.
  destruct (JS.truthy id); [|reflexivity]. cbn [negb].
  destruct (Contacts.deleteContact id w) as [[b|m] w']; reflexivity.
Qed.

(** The message of a ValidationError is answered 400. *)
Lemma validation_status (m : string) :
  isValidationError m = true ->
  Api.messageOf m = m /\ String.prefix "ValidationError" (Api.messageOf m) = true.
Proof.
  intros H. assert (Hm : Api.messageOf m = m).
  { unfold Api.messageOf. destruct m; [discriminate H | reflexivity]. }
  now rewrite Hm.
Qed.

End Routes.

(** X16.  The statuses of the routes, for a request whose body is a
    value of the input type the service declares.
    [POST /api/tasks] answers 201, 400 or 503 and never the 404 its handler
    provides for; [PATCH /api/tasks/:id] answers 200, 404 or 503 and never
    the 400 its handler provides for; [DELETE /api/tasks/:id] answers 200,
    404 or 503; [POST /api/contacts] answers 201 or 400 and never 503;
    [GET /api/contacts/:id] answers 200, 400, 404 or 503 and
    [DELETE /api/contacts/:id] 200, 400 or 404, never 503, both with 400
    exactly for the empty id. *)
Theorem routes_answer_with_these_statuses {L : Locale} (w : World) :
  (forall body,
      In (answer (Api.tasks.POST (ret body)) w) [Some 201; Some 400; Some 503])
  /\ (forall body id,
        In (answer (Api.tasks_id.PATCH (ret body) id) w) [Some 200; Some 404; Some 503])
  /\ (forall id,
        In (answer (Api.tasks_id.DELETE id) w) [Some 200; Some 404; Some 503])
  /\ (forall body,
        In (answer (Api.contacts.POST (ret body)) w) [Some 201; Some 400])
  /\ (forall id,
        In (answer (Api.contacts_id.GET id) w) [Some 200; Some 400; Some 404; Some 503]
        /\ (answer (Api.contacts_id.GET id) w = Some 400 <-> id = ""))
  /\ (forall id,
        In (answer (Api.contacts_id.DELETE id) w) [Some 200; Some 400; Some 404]
        /\ (answer (Api.contacts_id.DELETE id) w = Some 400 <-> id = "")).
Proof.
  unfold answer. split; [|split; [|split; [|split; [|split]]]].
  - intros body. rewrite tasks_POST_run.
    destruct (Tasks.createTask body w) as [[t|m] w'] eqn:Hrun; [cbn; auto|].
    destruct (createTask_throws _ _ _ _ Hrun) as ([->|[->|[->| ->]]] & _);
      vm_compute; auto.
  - intros body id. rewrite tasks_PATCH_run.
    destruct (Tasks.updateTask id body w) as [[t|m] w'] eqn:Hrun; [cbn; auto|].
    destruct (updateTask_throws _ _ _ _ _ Hrun) as ([->| ->] & _); vm_compute; auto.
  - intros id. rewrite tasks_DELETE_run.
    destruct (Tasks.deleteTask id w) as [[t|m] w'] eqn:Hrun; [cbn; auto|].
    destruct (deleteTask_throws _ _ _ _ Hrun) as ([->| ->] & _); vm_compute; auto.
  - intros body. rewrite contacts_POST_run.
    destruct (createContact_cases body w) as [(m & -> & Hm & _)|(c & -> & _)];
      [|cbn; auto].
    cbn [fst Api.status]. destruct (validation_status m Hm) as (_ & ->). cbn. auto.
  - intros id. rewrite contacts_GET_run.
    destruct (JS.truthy id) eqn:Hid.
    + assert (Hne : id <> "") by now apply truthy_true.
      destruct (Contacts.getContact id w) as [[c|m] w'] eqn:Hrun.
      * cbn. split; [auto|]. split; [discriminate | contradiction].
      * destruct (getContact_throws _ _ _ _ Hrun) as ([->| ->] & _); cbn;
          (split; [auto 6|]); (split; [discriminate | contradiction]).
    + cbn. split; [auto|]. split; [intros _; now apply truthy_false | reflexivity].
  - intros id. rewrite contacts_DELETE_run.
    destruct (JS.truthy id) eqn:Hid.
    + assert (Hne : id <> "") by now apply truthy_true.
      destruct (deleteContact_cases id w)
        as [(-> & _)|(before & x & after & _ & _ & _ & ->)]; cbn;
        (split; [auto 6|]); (split; [discriminate | contradiction]).
    + cbn. split; [auto|]. split; [intros _; now apply truthy_false | reflexivity].
Qed.

Example tasks_POST_for_a_missing_contact :
  fst (Api.tasks.POST (L := ascii_locale)
         (ret (Tasks.TaskCreateInput.mk "C00009" "Call" None None None)) Sample.busy)
  = Return (Api.mkResponse (Api.Message "ValidationError: contact does not exist") 400).
Proof. reflexivity. Qed.

Example tasks_PATCH_for_a_missing_task :
  fst (Api.tasks_id.PATCH
         (ret (Tasks.TaskUpdateInput.mk None None None (Some true) None)) "T00009"
         Sample.busy)
  = Return (Api.mkResponse (Api.Message "NotFoundError: task not found") 404).
Proof. reflexivity. Qed.

(** X17.  A request that is not answered 200 or 201 has written nothing:
    the collections are, in memory and on disk, as loading them left them,
    and a request for the empty id has not even loaded them.  A
    [POST /api/tasks] answered 201 carries the task that is now the last of
    the collection, in memory and on disk. *)
Theorem failed_requests_write_nothing {L : Locale} (w : World) :
  (forall body r w',
      Api.tasks.POST (ret body) w = (Return r, w') ->
      (Api.status r <> 201 -> same_store (tasks_prepared w) w')
      /\ (Api.status r = 201 ->
          exists t, Api.body r = Api.Json t
                    /\ TASKS_CACHE w' = Some (tasks_snapshot w ++ [t])%list
                    /\ tasks_json w' = Some (tasks_snapshot w ++ [t])%list))
  /\ (forall body id r w',
        Api.tasks_id.PATCH (ret body) id w = (Return r, w') ->
        Api.status r <> 200 -> same_store (tasks_seeded w) w')
  /\ (forall id r w',
        Api.tasks_id.DELETE id w = (Return r, w') ->
        Api.status r <> 200 -> same_store (tasks_seeded w) w')
  /\ (forall body r w',
        Api.contacts.POST (ret body) w = (Return r, w') ->
        Api.status r <> 201 -> w' = contacts_seeded w)
  /\ (forall id r w',
        Api.contacts_id.GET id w = (Return r, w') ->
        (Api.status r = 400 -> w' = w)
        /\ same_store (if JS.truthy id then contacts_seeded w else w) w')
  /\ (forall id r w',
        Api.contacts_id.DELETE id w = (Return r, w') ->
        (Api.status r = 400 -> w' = w)
        /\ (Api.status r = 404 -> w' = contacts_seeded w)).
Proof.
  split; [|split; [|split; [|split; [|split]]]].
  - intros body r w'. rewrite tasks_POST_run.
    destruct (createTask_cases body w) as [(m & n & Hrun)|(t & Hrun & _)];
      rewrite Hrun; intros [= <- <-].
    + split; [intros _; apply same_store_set_drawn|].
      destruct (createTask_throws _ _ _ _ Hrun) as ([->|[->|[->| ->]]] & _);
        intros Hst; vm_compute in Hst; discriminate Hst.
    + split; [intros H; now destruct H|]. intros _. exists t. repeat split.
  - intros body id r w'. rewrite tasks_PATCH_run.
    destruct (Tasks.updateTask id body w) as [[t|m] w1] eqn:Hrun; intros [= <- <-].
    + intros H. now destruct H.
    + intros _. destruct (updateTask_throws _ _ _ _ _ Hrun) as (_ & ->).
      apply same_store_set_drawn.
  - intros id r w'. rewrite tasks_DELETE_run.
    destruct (Tasks.deleteTask id w) as [[t|m] w1] eqn:Hrun; intros [= <- <-].
    + intros H. now destruct H.
    + intros _. destruct (deleteTask_throws _ _ _ _ Hrun) as (_ & ->).
      apply same_store_set_drawn.
  - intros body r w'. rewrite contacts_POST_run.
    destruct (createContact_cases body w) as [(m & -> & _)|(c & -> & _)];
      intros [= <- <-].
    + reflexivity.
    + intros H. now destruct H.
  - intros id r w'. rewrite contacts_GET_run.
    destruct (JS.truthy id) eqn:Hid.
    + destruct (Contacts.getContact id w) as [[c|m] w1] eqn:Hrun; intros [= <- <-].
      * split; [discriminate|].
        pose proof (getContact_world id w) as Hw. rewrite Hrun in Hw. cbn [snd] in Hw.
        rewrite Hw. apply same_store_set_drawn.
      * destruct (getContact_throws _ _ _ _ Hrun) as ([->| ->] & ->);
          (split; [intros Hst; vm_compute in Hst; discriminate Hst
                  | apply same_store_set_drawn]).
    + intros [= <- <-]. split; [reflexivity | apply same_store_refl].
  - intros id r w'. rewrite contacts_DELETE_run.
    destruct (JS.truthy id) eqn:Hid.
    + destruct (deleteContact_cases id w)
        as [(-> & _)|(before & x & after & _ & _ & _ & ->)]; intros [= <- <-].
      * split; [intros Hst; vm_compute in Hst; discriminate Hst | reflexivity].
      * split; discriminate.
    + intros [= <- <-]. split; [reflexivity | discriminate].
Qed.

Lemma failed_requests_write_nothing_witness :
  same_store (tasks_prepared (L := ascii_locale) Sample.busy) (set_drawn 2 Sample.busy)
  /\ same_store (tasks_seeded Sample.busy) (set_drawn 2 Sample.busy).
Proof.
  pose proof (failed_requests_write_nothing (L := ascii_locale) Sample.busy)
    as (Hpost & Hpatch & _).
  split.
  - apply (proj1 (Hpost (Tasks.TaskCreateInput.mk "C00009" "Call" None None None)
                        (Api.mkResponse
                           (Api.Message "ValidationError: contact does not exist") 400)
                        (set_drawn 2 Sample.busy) eq_refl)).
    discriminate.
  - apply (Hpatch (Tasks.TaskUpdateInput.mk None None None (Some true) None) "T00009"
                  (Api.mkResponse (Api.Message "NotFoundError: task not found") 404)
                  (set_drawn 2 Sample.busy) eq_refl).
    discriminate.
Defined.

(** ** Retrying *)

Section Retrying.

Context {T : Type}.

Variable fn : Eff T.

(** What holds of the world before a call and after a failed one; what
    holds of a returned value and the world; what holds of a thrown
    message. *)
Variable I : World -> Prop.

Variable R : T -> World -> Prop.

Variable E : string -> Prop.

Hypothesis I_draw : forall n w, I w -> I (set_drawn n w).

Hypothesis fn_step :
  forall w, I w ->
            match fn w with
            | (Return a, w') => R a w'
            | (Throw m, w') => I w' /\ E m
            end.

Lemma withRetry_loop_inv (remaining : nat) (i : Z) (w : World) :
  I w ->
  match ContactPage.withRetry_loop fn remaining i w with
  | (Return a, w') => R a w'
  | (Throw m, w') => I w' /\ E m
  end.
Proof.
  revert i w. induction remaining as [|remaining IH]; intros i w Hw;
    cbn [ContactPage.withRetry_loop]; unfold Api.try_catch_err;
    pose proof (fn_step w Hw) as Hstep; destruct (fn w) as [[a|m] w1];
    try exact Hstep.
  unfold bind, Math_random, ContactPage.sleep, setTimeout, ret. cbn beta iota.
  apply IH, I_draw. exact (proj1 Hstep).
Qed.

End Retrying.

(** X18.  A call retried by [withRetry] is applied at most once, if a
    failed call is without effect.  Let a property of the world be kept by
    a call of [fn] that throws and by taking draws; then from a world with
    the property, [withRetry(fn, attempts)] either returns what one call of
    [fn] returns from such a world, in the world that call left, or throws
    what a call of [fn] threw and leaves a world with the property; and if
    the first call returns there is no other call and no draw. *)
Theorem retried_call_applies_at_most_once {T : Type} (fn : Eff T)
  (I : World -> Prop) (R : T -> World -> Prop) (E : string -> Prop)
  (attempts : nat) (w : World) :
  (1 <= attempts)%nat ->
  (forall n w, I w -> I (set_drawn n w)) ->
  (forall w, I w ->
             match fn w with
             | (Return a, w') => R a w'
             | (Throw m, w') => I w' /\ E m
             end) ->
  I w ->
  match ContactPage.withRetry fn attempts w with
  | (Return a, w') => R a w'
  | (Throw m, w') => I w' /\ E m
  end
  /\ (forall a w', fn w = (Return a, w') ->
                   ContactPage.withRetry fn attempts w = (Return a, w')).
Proof.
  intros _ Hdraw Hstep Hw. split.
  - apply (withRetry_loop_inv fn I R E Hdraw Hstep). exact Hw.
  - intros a w' Hfn. unfold ContactPage.withRetry.
    destruct (attempts - 1)%nat; cbn [ContactPage.withRetry_loop];
      unfold Api.try_catch_err; now rewrite Hfn.
Qed.

Lemma sample_deleteTask_step (w : World) :
  TASKS_CACHE w = Some [Sample.call; Sample.demo; Sample.quote] ->
  match Tasks.deleteTask "T00001" w with
  | (Return _, w') =>
      TASKS_CACHE w' = Some [Sample.demo; Sample.quote]
      /\ tasks_json w' = Some [Sample.demo; Sample.quote]
  | (Throw m, w') =>
      TASKS_CACHE w' = Some [Sample.call; Sample.demo; Sample.quote]
      /\ isTransientError m = true
  end.
Proof.
  intros Hcache.
  pose proof (deleteTask_run "T00001" w) as Hrun. cbv zeta in Hrun.
  rewrite (tasks_snapshot_loaded w _ Hcache), (tasks_seeded_loaded w _ Hcache) in Hrun.
  rewrite Hrun. destruct (Qltb _ _).
  - split; [exact Hcache | reflexivity].
  - split; reflexivity.
Qed.

Lemma retried_call_applies_at_most_once_witness :
  match ContactPage.withRetry (Tasks.deleteTask "T00001") 3 recovering_world with
  | (Return _, w') =>
      TASKS_CACHE w' = Some [Sample.demo; Sample.quote]
      /\ tasks_json w' = Some [Sample.demo; Sample.quote]
  | (Throw m, w') =>
      TASKS_CACHE w' = Some [Sample.call; Sample.demo; Sample.quote]
      /\ isTransientError m = true
  end.
Proof.
  apply (proj1 (retried_call_applies_at_most_once (Tasks.deleteTask "T00001")
                  (fun w => TASKS_CACHE w
                            = Some [Sample.call; Sample.demo; Sample.quote])
                  (fun _ w' => TASKS_CACHE w' = Some [Sample.demo; Sample.quote]
                               /\ tasks_json w' = Some [Sample.demo; Sample.quote])
                  (fun m => isTransientError m = true)
                  3 recovering_world ltac:(lia) (fun _ _ H => H)
                  sample_deleteTask_step eq_refl)).
Defined.

(** The first attempt fails, the second deletes the task: five draws in
    all, two for each attempt and one for the jitter between them. *)
Example withRetry_second_attempt :
  ContactPage.withRetry (Tasks.deleteTask "T00001") 3 recovering_world
  = (Return true,
     set_tasks_json (Some [Sample.demo; Sample.quote])
       (set_TASKS_CACHE (Some [Sample.demo; Sample.quote])
          (set_drawn 5 recovering_world))).
Proof. reflexivity. Qed.

(** ** Looking a contact up *)

Lemma find_first {A : Type} (p : A -> bool) (before after : list A) (x : A) :
  (forall y, In y before -> p y = false) -> p x = true ->
  List.find p (before ++ x :: after)%list = Some x.
Proof.
  intros Hb Hx. induction before as [|y before IH]; simpl.
  - now rewrite Hx.
  - rewrite (Hb y) by now left. apply IH. intros z Hz. apply Hb. now right.
Qed.

(** X19.  [getContact], when the simulated failure does not fire, returns
    the first contact of the collection with the id, and throws a
    NotFoundError when no contact has it. *)
Theorem getContact_returns_the_first_match {L : Locale} (w : World) (id : string) :
  Qltb (upcoming 1 (contacts_seeded w)) (5 # 100) = false ->
  (forall before c after,
      contacts_snapshot w = (before ++ c :: after)%list ->
      Contact.id c = id ->
      (forall y, In y before -> Contact.id y <> id) ->
      fst (Contacts.getContact id w) = Return c)
  /\ ((forall c, In c (contacts_snapshot w) -> Contact.id c <> id) ->
      fst (Contacts.getContact id w) = Throw "NotFoundError: contact not found").
Proof.
  intros Hok. pose proof (getContact_run id w) as Hrun. cbv zeta in Hrun.
  rewrite Hok in Hrun. rewrite Hrun. split.
  - intros before c after Hsplit Hid Hbefore. rewrite Hsplit. unfold JS.find.
    rewrite find_first; [reflexivity| |now apply String.eqb_eq].
    intros y Hy. apply String.eqb_neq. now apply Hbefore.
  - intros Hnone. unfold JS.find.
    rewrite find_None_of_Forall; [reflexivity|].
    intros c Hc. apply String.eqb_neq. now apply Hnone.
Qed.

Lemma getContact_returns_the_first_match_witness :
  fst (Contacts.getContact (L := ascii_locale) "C00002" Sample.busy)
  = Return Sample.grace
  /\ fst (Contacts.getContact (L := ascii_locale) "C00007" Sample.busy)
     = Throw "NotFoundError: contact not found".
Proof.
  split.
  - apply (proj1 (getContact_returns_the_first_match (L := ascii_locale) Sample.busy
                    "C00002" eq_refl) [Sample.ada] Sample.grace []);
      [reflexivity | reflexivity |].
    intros y [<-|[]]. discriminate.
  - apply (proj2 (getContact_returns_the_first_match (L := ascii_locale) Sample.busy
                    "C00007" eq_refl)).
    intros c [<-|[<-|[]]]; discriminate.
Defined.

(** ** Seeding tasks, choosing, padding *)

Lemma seedTask_spec (now i : Z) (w : World) :
  exists t,
    Tasks.seedTask now i w = (Return t, set_drawn (4 + drawn w) w)
    /\ Task.id t = "T" ++ Tasks.pad i 5
    /\ Task.contactId t = "C" ++ Tasks.pad ((i * 13) mod 5000) 5
    /\ seeded_task_ok now t.
Proof.
  unfold Tasks.seedTask, Math_random, ret, bind. cbn beta iota.
  eexists. split; [reflexivity|]. split; [reflexivity|]. split; [reflexivity|].
  unfold seeded_task_ok. cbn [Task.createdAt Task.updatedAt Task.dueDate].
  match goal with
  | |- context [Math_floor (?r * 1000 * 60 * 60 * 24 * 120)] =>
      assert (Hspan : 0 <= Math_floor (r * 1000 * 60 * 60 * 24 * 120) < 10368000000)
  end.
  { unfold upcoming.
    match goal with
    | |- context [frac ?q] => destruct (frac_bounds q) as (H0 & H1)
    end.
    split.
    - apply Qfloor_nonneg. lra.
    - apply Qfloor_lt_Z. change (inject_Z 10368000000) with (10368000000 # 1)%Q. lra. }
  match goal with
  | |- context [Math_floor (?r * 1000 * 60 * 60 * 24 * 30)] =>
      assert (Hdue : 0 <= Math_floor (r * 1000 * 60 * 60 * 24 * 30) < 2592000000)
  end.
  { unfold upcoming.
    match goal with
    | |- context [frac ?q] => destruct (frac_bounds q) as (H0 & H1)
    end.
    split.
    - apply Qfloor_nonneg. lra.
    - apply Qfloor_lt_Z. change (inject_Z 2592000000) with (2592000000 # 1)%Q. lra. }
  match goal with
  | |- context [Math_floor (?r * inject_Z ?d)] =>
      assert (Hupd : 0 <= Math_floor (r * inject_Z d) <= d)
  end.
  { unfold upcoming at 1.
    match goal with
    | |- context [Math_floor (frac ?q * inject_Z _)] =>
        destruct (frac_bounds q) as (H0 & H1)
    end.
    apply floor_scaled; [exact H0 | exact H1 | lia]. }
  split; [lia|]. split; [lia|]. split; [lia|].
  eexists. split; [reflexivity|]. lia.
Qed.

Lemma seedTasks_loop_spec (n : nat) (now i : Z) (out : list Task.t) (w : World) :
  exists l,
    Tasks.seedTasks_loop n now i out w
    = (Return (out ++ l)%list, set_drawn (4 * n + drawn w) w)
    /\ map Task.id l = map (fun j => "T" ++ Tasks.pad (i + Z.of_nat j) 5) (seq 0 n)
    /\ map Task.contactId l
       = map (fun j => "C" ++ Tasks.pad (((i + Z.of_nat j) * 13) mod 5000) 5) (seq 0 n)
    /\ Forall (seeded_task_ok now) l.
Proof.
  revert i out w. induction n as [|n IH]; intros i out w.
  - exists []. simpl. unfold ret. rewrite app_nil_r, set_drawn_same.
    repeat split. constructor.
  - cbn [Tasks.seedTasks_loop]. unfold bind at 1.
    destruct (seedTask_spec now i w) as (t & -> & Hid & Hcid & Hok).
    destruct (IH (i + 1) (out ++ [t])%list (set_drawn (4 + drawn w) w))
      as (l & -> & Hids & Hcids & Hall).
    exists (t :: l). split; [|split; [|split]].
    + f_equal; [now rewrite <- app_assoc|].
      simpl_world. unfold set_drawn. f_equal. lia.
    + cbn [map seq]. rewrite Hid, Z.add_0_r. f_equal.
      rewrite Hids, <- seq_shift, map_map. apply map_ext.
      intros j. do 2 f_equal. lia.
    + cbn [map seq]. rewrite Hcid, Z.add_0_r. f_equal.
      rewrite Hcids, <- seq_shift, map_map. apply map_ext.
      intros j. do 4 f_equal. lia.
    + now constructor.
Qed.

(** X20.  [seedTasks(count)] reads the clock once, takes four draws per
    task and returns [count] tasks (none for a count of 0 or less): the
    [i]-th has the id T followed by [i] padded to five digits and the
    contact C followed by [13 i mod 5000] padded to five digits; each was
    created within the 120 days before the seeding, was updated between its
    creation and the seeding, and is due within 30 days of its creation. *)
Theorem seedTasks_makes_count_tasks (count : Z) (w : World) :
  exists l,
    Tasks.seedTasks count w
    = (Return l, set_drawn (4 * Z.to_nat count + drawn w) (set_ticks (S (ticks w)) w))
    /\ length l = Z.to_nat count
    /\ map Task.id l
       = map (fun k => "T" ++ zero_padded 5 (Z.of_nat k)) (seq 1 (Z.to_nat count))
    /\ map Task.contactId l
       = map (fun k => "C" ++ zero_padded 5 ((Z.of_nat k * 13) mod 5000))
             (seq 1 (Z.to_nat count))
    /\ task_ids_distinct l
    /\ Forall (seeded_task_ok (clock w (ticks w))) l.
Proof.
  unfold Tasks.seedTasks, bind, Date_now.
  generalize (Z.to_nat count). intros n.
  destruct (seedTasks_loop_spec n (clock w (ticks w)) 1 [] (set_ticks (S (ticks w)) w))
    as (l & -> & Hids & Hcids & Hall).
  exists l. simpl_world.
  assert (Hids' : map Task.id l
                  = map (fun k => "T" ++ zero_padded 5 (Z.of_nat k)) (seq 1 n)).
  { rewrite Hids, <- seq_shift, map_map. apply map_ext.
    intros j. rewrite tasks_pad_zero_padded. do 2 f_equal. lia. }
  split; [reflexivity|]. split; [|split; [exact Hids'|split; [|split]]].
  - rewrite <- (length_map Task.id), Hids, length_map. apply length_seq.
  - rewrite Hcids, <- seq_shift, map_map. apply map_ext.
    intros j. rewrite tasks_pad_zero_padded. do 4 f_equal. lia.
  - unfold task_ids_distinct. apply (List.NoDup_map_inv Tasks.suffix).
    rewrite Hids', map_map.
    rewrite (map_ext_in _ Z.of_nat).
    + apply NoDup_map_of_nat, seq_NoDup.
    + intros k _. apply (suffix_of_padded "T"). lia.
  - exact Hall.
Qed.

Example seedTasks_sample :
  match fst (Tasks.seedTasks 2 Sample.calm) with
  | Return l => map (fun t => (Task.id t, Task.contactId t, Task.title t)) l
  | Throw _ => []
  end = [("T00001", "C00013", "Schedule demo"); ("T00002", "C00026", "Prepare quote")].
Proof. vm_compute. reflexivity. Qed.

(** X21.  [randomChoice] on a table that is not empty takes one draw and
    returns an entry of the table. *)
Theorem randomChoice_returns_an_entry (arr : list string) (w : World) :
  arr <> [] ->
  exists x,
    Contacts.randomChoice arr w = (Return x, set_drawn (S (drawn w)) w) /\ In x arr.
Proof.
  intros Hne. unfold Contacts.randomChoice, Math_random, ret, bind. cbn beta iota.
  eexists. split; [reflexivity|].
  apply nth_In. unfold upcoming. apply choice_index.
  destruct arr; [contradiction | simpl; lia].
Qed.

Lemma randomChoice_returns_an_entry_witness :
  exists x,
    Contacts.randomChoice Contacts.tagsPool Sample.calm
    = (Return x, set_drawn 1 Sample.calm)
    /\ In x Contacts.tagsPool.
Proof.
  apply (randomChoice_returns_an_entry Contacts.tagsPool Sample.calm). discriminate.
Defined.

Lemma length_zeros (k : nat) : String.length (zeros k) = k.
Proof. induction k as [|k IH]; simpl; [reflexivity | now rewrite IH]. Qed.

Lemma length_string_app (s t : string) :
  String.length (s ++ t) = (String.length s + String.length t)%nat.
Proof. induction s as [|c s IH]; simpl; [reflexivity | now rewrite IH]. Qed.

(** X22.  [pad] never cuts: padding a number gives a string of at least
    [size] characters, of exactly [size] when the digits of the number are
    at most [size], which [Number] reads back as the number; the two copies
    of [pad] in the services agree. *)
Theorem pad_round_trip (num : Z) (size : nat) :
  0 <= num ->
  JS.Number (Contacts.pad num size) = Some num
  /\ String.length (Contacts.pad num size)
     = Nat.max size (String.length (JS.String_of_number num))
  /\ Tasks.pad num size = Contacts.pad num size.
Proof.
  intros Hnum. split; [now apply Number_pad|]. split.
  - unfold Contacts.pad. rewrite pad_loop_zeros, length_string_app, length_zeros. lia.
  - now rewrite tasks_pad_zero_padded, contacts_pad_zero_padded.
Qed.

Lemma pad_round_trip_witness :
  JS.Number (Contacts.pad 123456 5) = Some 123456
  /\ String.length (Contacts.pad 123456 5)
     = Nat.max 5 (String.length (JS.String_of_number 123456))
  /\ Tasks.pad 123456 5 = Contacts.pad 123456 5.
Proof. apply (pad_round_trip 123456 5). lia. Defined.
